(** * SynthVision: the generation session pipeline

    A shallow embedding of the prompt expander and the image synthesizers
    (services/api.ts), of the session store and of the orchestrator
    ([startGeneration] and [stopGeneration] of App.tsx), and of the
    workbench around them (the other handlers of App.tsx, the form of
    SettingsModal.tsx and the tags of ImageEditorModal.tsx), followed by
    the properties of the pipeline that the specification states and by
    further properties of the code.

    Conventions of the embedding.
    - JavaScript strings are [string], texts of 8-bit characters; the
      strings that [JSON.parse] reads out of a text are lists of code units,
      since an escape can denote any of them.  Numbers that only ever hold small
      non-negative integers ([totalTarget], [progress], indices,
      [Date.now()]) are [nat].  The one place where the source computes with
      fractions, the progress formula, is evaluated in IEEE-754 binary64
      (Rocq's primitive floats), as JavaScript does.
    - A promise is modelled by its settlement: [Resolved v], or
      [Rejected message] for a thrown [Error] carrying [message].
    - An [async] function is cut at its [await]s into segments that run
      atomically; the program counter [Pc] records at which [await] a run is
      suspended and holds the local variables that are live there.
    - The clock ([Date.now()], [toLocaleTimeString()]) and the network are
      inputs of the segment that reads them. *)

From Stdlib Require Import Bool Arith Lia List String Ascii ZArith.
From Stdlib Require Import DecimalString DecimalNat Permutation.
From Stdlib Require Import PrimFloat FloatOps SpecFloat Uint63.
Import ListNotations.

Local Open Scope nat_scope.
Local Open Scope list_scope.
Local Open Scope string_scope.

(** ** JavaScript glue *)

(** How a promise settles, or how a call returns or throws. *)
Inductive Outcome (A : Type) : Type :=
| Resolved (value : A)
| Rejected (message : string).
Arguments Resolved {A} value.
Arguments Rejected {A} message.

(** [`${n}`] for a non-negative integer [n]. *)
Definition show (n : nat) : string := NilZero.string_of_uint (Nat.to_uint n).

(** Truthiness of an optional string: [undefined] and the empty string are
    falsy. *)
Definition truthy (v : option string) : bool :=
  match v with
  | Some s => negb (String.eqb s EmptyString)
  | None => false
  end.

(** The double-quote character. *)
Definition dquote : ascii := "034"%char.
Definition q : string := String dquote EmptyString.

(** One reading of the clock inside a segment. *)
Record Clock := {
  now : nat;             (* Date.now() *)
  localeTime : string    (* new Date().toLocaleTimeString() *)
}.

(** ** types.ts *)

Inductive ModelType := GEMINI | OPENAI_COMPATIBLE.

Module ModelConfig.
Record t := {
  id : string;
  name : string;
  type : ModelType;
  endpoint : option string;
  apiKey : option string;
  modelId : string
}.
End ModelConfig.

Module GeneratedImage.
Record t := {
  id : string;
  url : string;
  prompt : string;
  timestamp : nat;
  tags : list string
}.
End GeneratedImage.

Inductive Status := idle | generating | completed | failed | stopped.

Module Session.
Record t := {
  id : string;
  name : string;
  basePrompt : string;
  referenceImages : list string;
  generatedImages : list GeneratedImage.t;
  generatedPrompts : list string;
  createdAt : nat;
  status : Status;
  totalTarget : nat;
  progress : nat;
  logs : list string
}.

(** The object spreads [{ ...s, field: v }] that the source uses. *)
Definition with_status (v : Status) (s : t) : t :=
  {| id := id s; name := name s; basePrompt := basePrompt s;
     referenceImages := referenceImages s;
     generatedImages := generatedImages s;
     generatedPrompts := generatedPrompts s; createdAt := createdAt s;
     status := v; totalTarget := totalTarget s; progress := progress s;
     logs := logs s |}.

Definition with_progress (v : nat) (s : t) : t :=
  {| id := id s; name := name s; basePrompt := basePrompt s;
     referenceImages := referenceImages s;
     generatedImages := generatedImages s;
     generatedPrompts := generatedPrompts s; createdAt := createdAt s;
     status := status s; totalTarget := totalTarget s; progress := v;
     logs := logs s |}.

Definition with_logs (v : list string) (s : t) : t :=
  {| id := id s; name := name s; basePrompt := basePrompt s;
     referenceImages := referenceImages s;
     generatedImages := generatedImages s;
     generatedPrompts := generatedPrompts s; createdAt := createdAt s;
     status := status s; totalTarget := totalTarget s;
     progress := progress s; logs := v |}.

Definition with_generatedPrompts (v : list string) (s : t) : t :=
  {| id := id s; name := name s; basePrompt := basePrompt s;
     referenceImages := referenceImages s;
     generatedImages := generatedImages s;
     generatedPrompts := v; createdAt := createdAt s;
     status := status s; totalTarget := totalTarget s;
     progress := progress s; logs := logs s |}.

Definition with_generatedImages (v : list GeneratedImage.t) (s : t) : t :=
  {| id := id s; name := name s; basePrompt := basePrompt s;
     referenceImages := referenceImages s;
     generatedImages := v;
     generatedPrompts := generatedPrompts s; createdAt := createdAt s;
     status := status s; totalTarget := totalTarget s;
     progress := progress s; logs := logs s |}.
End Session.

(** ** services/api.ts: extracting JSON from the model's text *)

Module Api.

(** The fragment of JavaScript regular expressions that [extractJson] uses:
    a literal character, the greedy [[\s\S]*], sequence and alternation. *)
Inductive regex :=
| Chr (c : ascii)
| AnyStar
| Cat (r1 r2 : regex)
| Alt (r1 r2 : regex).

(** Backtracking matcher.  [matchAt r s k] matches [r] at the start of [s]
    and hands the rest of the text to the continuation [k]; when [k] fails
    the matcher backtracks.  [AnyStar] first takes every character and gives
    them back one at a time; [Alt] tries its left branch first. *)
Fixpoint matchAt (r : regex) (s : string) (k : string -> option string)
  : option string :=
  match r with
  | Chr c =>
      match s with
      | String d s' => if Ascii.eqb c d then k s' else None
      | EmptyString => None
      end
  | AnyStar =>
      (fix star (s : string) : option string :=
         match s with
         | EmptyString => k EmptyString
         | String _ s' =>
             match star s' with
             | Some rest => Some rest
             | None => k s
             end
         end) s
  | Cat r1 r2 => matchAt r1 s (fun s1 => matchAt r2 s1 k)
  | Alt r1 r2 =>
      match matchAt r1 s k with
      | Some rest => Some rest
      | None => matchAt r2 s k
      end
  end.

(** [text.match(r)] without the [g] flag: the match at the leftmost position
    where [r] matches, as the matched text ([jsonMatch[0]]). *)
Fixpoint String_match (r : regex) (text : string) : option string :=
  match matchAt r text Some with
  | Some rest => Some (substring 0 (length text - length rest) text)
  | None =>
      match text with
      | EmptyString => None
      | String _ text' => String_match r text'
      end
  end.

(** [/\{[\s\S]*\}|\[[\s\S]*\]/] *)
Definition jsonPattern : regex :=
  Alt (Cat (Chr "{") (Cat AnyStar (Chr "}")))
      (Cat (Chr "[") (Cat AnyStar (Chr "]"))).

Definition extractJson (text : string) : string :=
  match String_match jsonPattern text with
  | Some jsonMatch => jsonMatch
  | None => text
  end.

#[local] Set Warnings "-register-all".

(** *** [JSON.parse]

    The platform's parser, written out for texts of 8-bit characters: the
    grammar of ECMA-404.  A number keeps its lexeme.  An escape [\uXXXX] of
    a string may denote a code unit above 255, which a character of [string]
    cannot hold: the value of a string of the text is the list of its code
    units. *)
Definition units := list N.

(** The code units of a text of 8-bit characters. *)
Definition unitsOf (s : string) : units :=
  map N_of_ascii (list_ascii_of_string s).

Fixpoint unitsEqb (a b : units) : bool :=
  match a, b with
  | [], [] => true
  | x :: a', y :: b' => N.eqb x y && unitsEqb a' b'
  | _, _ => false
  end.

Inductive json :=
| JNull
| JBool (b : bool)
| JNumber (lexeme : string)
| JString (s : units)
| JArray (elements : list json)
| JObject (members : list (units * json)).

Definition isWs (c : ascii) : bool :=
  let n := nat_of_ascii c in
  Nat.eqb n 32 || Nat.eqb n 9 || Nat.eqb n 10 || Nat.eqb n 13.

Definition isDigit (c : ascii) : bool :=
  let n := nat_of_ascii c in Nat.leb 48 n && Nat.leb n 57.

Fixpoint skipWs (s : string) : string :=
  match s with
  | String c s' => if isWs c then skipWs s' else s
  | EmptyString => s
  end.

Definition hexValue (c : ascii) : option nat :=
  let n := nat_of_ascii c in
  if Nat.leb 48 n && Nat.leb n 57 then Some (n - 48)
  else if Nat.leb 65 n && Nat.leb n 70 then Some (n - 55)
  else if Nat.leb 97 n && Nat.leb n 102 then Some (n - 87)
  else None.

Definition simpleEscape (c : ascii) : option ascii :=
  if Ascii.eqb c dquote then Some dquote
  else if Ascii.eqb c "\" then Some "\"%char
  else if Ascii.eqb c "/" then Some "/"%char
  else if Ascii.eqb c "b" then Some "008"%char
  else if Ascii.eqb c "f" then Some "012"%char
  else if Ascii.eqb c "n" then Some "010"%char
  else if Ascii.eqb c "r" then Some "013"%char
  else if Ascii.eqb c "t" then Some "009"%char
  else None.

Definition consUnit (u : N) (r : option (units * string))
  : option (units * string) :=
  match r with
  | Some (s, rest) => Some (u :: s, rest)
  | None => None
  end.

(** The code unit that the four hexadecimal digits of an escape denote. *)
Definition escapedUnit (v1 v2 v3 v4 : nat) : N :=
  (4096 * N.of_nat v1 + 256 * N.of_nat v2 + 16 * N.of_nat v3 + N.of_nat v4)%N.

(** The characters of a string literal, after its opening quote. *)
Fixpoint parseChars (s : string) : option (units * string) :=
  match s with
  | EmptyString => None
  | String c rest =>
      if Ascii.eqb c dquote then Some ([], rest)
      else if Ascii.eqb c "\" then
        match rest with
        | EmptyString => None
        | String e rest' =>
            match simpleEscape e with
            | Some d => consUnit (N_of_ascii d) (parseChars rest')
            | None =>
                if Ascii.eqb e "u" then
                  match rest' with
                  | String h1 (String h2 (String h3 (String h4 rest''))) =>
                      match hexValue h1, hexValue h2, hexValue h3, hexValue h4 with
                      | Some v1, Some v2, Some v3, Some v4 =>
                          consUnit (escapedUnit v1 v2 v3 v4)
                            (parseChars rest'')
                      | _, _, _, _ => None
                      end
                  | _ => None
                  end
                else None
            end
        end
      else if Nat.ltb (nat_of_ascii c) 32 then None
      else consUnit (N_of_ascii c) (parseChars rest)
  end.

Fixpoint digits (s : string) : string * string :=
  match s with
  | String c s' =>
      if isDigit c then let (ds, rest) := digits s' in (String c ds, rest)
      else (EmptyString, s)
  | EmptyString => (EmptyString, s)
  end.

(** A number: an optional minus sign, then 0 or a digit 1-9 followed by
    digits, then an optional fraction (a dot and at least one digit) and an
    optional exponent (e or E, an optional sign, at least one digit). *)
Definition parseNumber (s : string) : option (string * string) :=
  let (sign, s1) :=
    match s with
    | String c r => if Ascii.eqb c "-" then ("-", r) else (EmptyString, s)
    | EmptyString => (EmptyString, s)
    end in
  let int :=
    match s1 with
    | String c r =>
        if Ascii.eqb c "0" then Some ("0", r)
        else if isDigit c then
          let (ds, r') := digits r in Some (String c ds, r')
        else None
    | EmptyString => None
    end in
  match int with
  | None => None
  | Some (ip, s2) =>
      let frac :=
        match s2 with
        | String c r =>
            if Ascii.eqb c "." then
              let (ds, r') := digits r in
              if String.eqb ds EmptyString then None
              else Some ("." ++ ds, r')
            else Some (EmptyString, s2)
        | EmptyString => Some (EmptyString, s2)
        end in
      match frac with
      | None => None
      | Some (fp, s3) =>
          let expo :=
            match s3 with
            | String c r =>
                if Ascii.eqb c "e" || Ascii.eqb c "E" then
                  let (sg, r1) :=
                    match r with
                    | String c' r' =>
                        if Ascii.eqb c' "+" || Ascii.eqb c' "-"
                        then (String c' EmptyString, r') else (EmptyString, r)
                    | EmptyString => (EmptyString, r)
                    end in
                  let (ds, r2) := digits r1 in
                  if String.eqb ds EmptyString then None
                  else Some (String c (sg ++ ds), r2)
                else Some (EmptyString, s3)
            | EmptyString => Some (EmptyString, s3)
            end in
          match expo with
          | None => None
          | Some (ep, s4) => Some (sign ++ ip ++ fp ++ ep, s4)
          end
      end
  end.

(** A keyword ([true], [false], [null]) after its first letter. *)
Definition keyword (tail : string) (v : json) (s : string)
  : option (json * string) :=
  if String.eqb (substring 0 (length tail) s) tail
  then Some (v, substring (length tail) (length s - length tail) s)
  else None.

(** Recursive descent.  Of two calls nested directly in one another at
    least one reads a character before it calls, so the nesting is never
    deeper than [2 * length text + 1]; [JSON_parse] gives one unit more. *)
Fixpoint parseValue (fuel : nat) (s : string) : option (json * string) :=
  match fuel with
  | O => None
  | S fuel' =>
      match skipWs s with
      | EmptyString => None
      | String c rest =>
          if Ascii.eqb c "{" then
            match skipWs rest with
            | String c' rest' =>
                if Ascii.eqb c' "}" then Some (JObject [], rest')
                else
                  match parseMembers fuel' rest with
                  | Some (ms, r) => Some (JObject ms, r)
                  | None => None
                  end
            | EmptyString => None
            end
          else if Ascii.eqb c "[" then
            match skipWs rest with
            | String c' rest' =>
                if Ascii.eqb c' "]" then Some (JArray [], rest')
                else
                  match parseElements fuel' rest with
                  | Some (vs, r) => Some (JArray vs, r)
                  | None => None
                  end
            | EmptyString => None
            end
          else if Ascii.eqb c dquote then
            match parseChars rest with
            | Some (str, r) => Some (JString str, r)
            | None => None
            end
          else if Ascii.eqb c "t" then keyword "rue" (JBool true) rest
          else if Ascii.eqb c "f" then keyword "alse" (JBool false) rest
          else if Ascii.eqb c "n" then keyword "ull" JNull rest
          else
            match parseNumber (String c rest) with
            | Some (lexeme, r) => Some (JNumber lexeme, r)
            | None => None
            end
      end
  end
with parseElements (fuel : nat) (s : string) : option (list json * string) :=
  match fuel with
  | O => None
  | S fuel' =>
      match parseValue fuel' s with
      | None => None
      | Some (v, rest) =>
          match skipWs rest with
          | EmptyString => None
          | String c rest' =>
              if Ascii.eqb c "," then
                match parseElements fuel' rest' with
                | Some (vs, r) => Some (v :: vs, r)
                | None => None
                end
              else if Ascii.eqb c "]" then Some ([v], rest')
              else None
          end
      end
  end
with parseMembers (fuel : nat) (s : string)
  : option (list (units * json) * string) :=
  match fuel with
  | O => None
  | S fuel' =>
      match skipWs s with
      | EmptyString => None
      | String c0 afterQuote =>
          if negb (Ascii.eqb c0 dquote) then None
          else
            match parseChars afterQuote with
            | None => None
            | Some (key, afterKey) =>
                match skipWs afterKey with
                | EmptyString => None
                | String c1 afterColon =>
                    if negb (Ascii.eqb c1 ":") then None
                    else
                      match parseValue fuel' afterColon with
                      | None => None
                      | Some (v, rest) =>
                          match skipWs rest with
                          | EmptyString => None
                          | String c rest' =>
                              if Ascii.eqb c "," then
                                match parseMembers fuel' rest' with
                                | Some (ms, r) => Some ((key, v) :: ms, r)
                                | None => None
                                end
                              else if Ascii.eqb c "}" then
                                Some ([(key, v)], rest')
                              else None
                          end
                      end
                end
            end
      end
  end.

(** [JSON.parse(text)]: [None] stands for the [SyntaxError] it throws. *)
Definition JSON_parse (text : string) : option json :=
  match parseValue (2 * length text + 2) text with
  | Some (v, rest) =>
      if String.eqb (skipWs rest) EmptyString then Some v else None
  | None => None
  end.

(** [value[key]] for a parsed value: of an object, the member of that name
    (the last one when the text repeats it), of anything else here,
    [undefined]. *)
Fixpoint lookupMember (key : units) (members : list (units * json))
  : option json :=
  match members with
  | [] => None
  | (k, v) :: rest =>
      match lookupMember key rest with
      | Some later => Some later
      | None => if unitsEqb k key then Some v else None
      end
  end.

Definition property (key : string) (value : json) : option json :=
  match value with
  | JObject members => lookupMember (unitsOf key) members
  | _ => None
  end.

(** *** [generateDiversePrompts]

    [API_KEY] is [process.env.API_KEY] and [response] is how the call
    [ai.models.generateContent(...)] settles, as the value of
    [response.text].  The result is the parsed object [result]; the caller
    reads [result.prompts] and [result.aspectRatio]. *)

(** Two errors that the source does not word itself: the engine words
    them, the first one by the text that it fails on.  A fixed text stands
    for the first, and for the second the wording of one engine: reading
    [property] of [value], which is [null] or [undefined]. *)
Definition SyntaxError_message : string := "SyntaxError: JSON.parse".
Definition TypeError_message (value property : string) : string :=
  "Cannot read properties of " ++ value ++ " (reading '" ++ property ++ "')".

(** The [contents] of the request; [referenceImagesCount] is not used. *)
Definition expansionContents (basePrompt : string) (count : nat) : string :=
  "Input: " ++ q ++ basePrompt ++ q ++ ". Generate " ++ show count
  ++ " variations in JSON format.".

Definition generateDiversePrompts (API_KEY : option string)
  (response : Outcome (option string)) : Outcome json :=
  if negb (truthy API_KEY)
  then Rejected "Google GenAI API Key not found in environment."
  else
    match response with
    | Rejected message => Rejected message
    | Resolved text =>
        match text with
        | None => Rejected "Empty response from AI"
        | Some text =>
            if String.eqb text EmptyString
            then Rejected "Empty response from AI"
            else
              let jsonStr := extractJson text in
              match JSON_parse jsonStr with
              | None => Rejected SyntaxError_message
              | Some JNull => Rejected (TypeError_message "null" "prompts")
              | Some result =>
                  match property "prompts" result with
                  | Some (JArray _) => Resolved result
                  | _ => Rejected "Invalid prompt array in response"
                  end
              end
        end
    end.

(** *** [generateImageWithGemini] *)

Module InlineData.
Record t := { mimeType : option string; data : option string }.
End InlineData.

Module Part.
Record t := { inlineData : option InlineData.t; text : option string }.
End Part.

Module GeminiRequest.
Record t := {
  model : string;
  parts : list Part.t;
  aspectRatio : string;
  imageSize : string
}.
End GeminiRequest.

(** [candidate.content] and its [parts]; a candidate may come without
    content (an answer that was blocked), and a content without parts. *)
Module Content.
Record t := { parts : option (list Part.t) }.
End Content.

Module Candidate.
Record t := { content : option Content.t }.
End Candidate.

(** [response.candidates] *)
Module GeminiResponse.
Record t := { candidates : option (list Candidate.t) }.
End GeminiResponse.

(** [base64.split(',')[1]]: the text between the first comma and the next
    one, [undefined] without a comma. *)
Fixpoint untilComma (s : string) : string :=
  match s with
  | EmptyString => EmptyString
  | String c s' =>
      if Ascii.eqb c "," then EmptyString else String c (untilComma s')
  end.

Fixpoint secondField (s : string) : option string :=
  match s with
  | EmptyString => None
  | String c s' =>
      if Ascii.eqb c "," then Some (untilComma s') else secondField s'
  end.

Definition cleanBase64 (base64 : string) : string :=
  if truthy (secondField base64)
  then match secondField base64 with Some f => f | None => base64 end
  else base64.

Definition geminiParts (prompt : string) (referenceImagesBase64 : list string)
  : list Part.t :=
  map (fun base64 =>
         {| Part.inlineData :=
              Some {| InlineData.mimeType := Some "image/png";
                      InlineData.data := Some (cleanBase64 base64) |};
            Part.text := None |}) referenceImagesBase64
  ++ [ {| Part.inlineData := None; Part.text := Some prompt |} ].

(** The [for] loop over the parts of the first candidate. *)
Fixpoint firstInlineImage (parts : list Part.t) : option string :=
  match parts with
  | [] => None
  | part :: rest =>
      match Part.inlineData part with
      | Some d =>
          match InlineData.data d with
          | Some data =>
              if String.eqb data EmptyString then firstInlineImage rest
              else
                let mime :=
                  if truthy (InlineData.mimeType d)
                  then match InlineData.mimeType d with
                       | Some m => m
                       | None => "image/png"
                       end
                  else "image/png" in
                Some ("data:" ++ mime ++ ";base64," ++ data)
          | None => firstInlineImage rest
          end
      | None => firstInlineImage rest
      end
  end.

(** The outcome is the payload handed to [onImageFound] (called once, just
    before the function returns) or the error thrown. *)
Definition generateImageWithGemini (API_KEY : option string)
  (prompt : string) (referenceImagesBase64 : list string)
  (aspectRatio : string)
  (generateContent : GeminiRequest.t -> Outcome GeminiResponse.t)
  : Outcome string :=
  if negb (truthy API_KEY)
  then Rejected "Google GenAI API Key not found in environment."
  else
    let request :=
      {| GeminiRequest.model := "gemini-3-pro-image-preview";
         GeminiRequest.parts := geminiParts prompt referenceImagesBase64;
         GeminiRequest.aspectRatio := aspectRatio;
         GeminiRequest.imageSize := "1K" |} in
    match generateContent request with
    | Rejected message => Rejected message
    | Resolved response =>
        match GeminiResponse.candidates response with
        | None => Rejected "No image data found in response"
        | Some [] => Rejected (TypeError_message "undefined" "content")
        | Some (candidate :: _) =>
            match Candidate.content candidate with
            | None => Rejected (TypeError_message "undefined" "parts")
            | Some content =>
                match Content.parts content with
                | None => Rejected "No image data found in response"
                | Some parts =>
                    match firstInlineImage parts with
                    | Some fullBase64 => Resolved fullBase64
                    | None => Rejected "No image data found in response"
                    end
                end
            end
        end
    end.

(** *** [generateImageCustom] *)

Module ImagesBody.
Record t := {
  model : string;
  prompt : string;
  n : nat;
  size : string;
  response_format : string
}.
End ImagesBody.

Module HttpRequest.
Record t := {
  url : string;
  method : string;
  headers : list (string * string);
  body : ImagesBody.t
}.
End HttpRequest.

Module ImageDatum.
Record t := { b64_json : option string; url : option string }.
End ImageDatum.

(** [response.ok], [await response.text()] and [await response.json()],
    the latter given by its member [data]. *)
Module HttpResponse.
Record t := {
  ok : bool;
  text : Outcome string;
  json : Outcome (option (list ImageDatum.t))
}.
End HttpResponse.

Definition sizeFor (aspectRatio : string) : string :=
  let size := "1024x1024" in
  let size := if String.eqb aspectRatio "16:9" then "1792x1024" else size in
  let size := if String.eqb aspectRatio "9:16" then "1024x1792" else size in
  size.

Definition imagesRequest (config : ModelConfig.t) (prompt : string)
  (aspectRatio : string) : HttpRequest.t :=
  let endpoint :=
    match ModelConfig.endpoint config with Some e => e | None => "undefined" end in
  let apiKey :=
    match ModelConfig.apiKey config with Some k => k | None => "undefined" end in
  {| HttpRequest.url := endpoint ++ "/v1/images/generations";
     HttpRequest.method := "POST";
     HttpRequest.headers :=
       [("Content-Type", "application/json");
        ("Authorization", "Bearer " ++ apiKey)];
     HttpRequest.body :=
       {| ImagesBody.model := ModelConfig.modelId config;
          ImagesBody.prompt := prompt;
          ImagesBody.n := 1;
          ImagesBody.size := sizeFor aspectRatio;
          ImagesBody.response_format := "b64_json" |} |}.

(** [data.data?.[0]?.field] *)
Definition firstDatum (field : ImageDatum.t -> option string)
  (data : option (list ImageDatum.t)) : option string :=
  match data with
  | Some (d :: _) => field d
  | _ => None
  end.

(** The first component lists the calls of [fetch] that the function made,
    in order; the second is the payload handed to [onImageFound] or the
    error thrown. *)
Definition generateImageCustom (config : ModelConfig.t) (prompt : string)
  (aspectRatio : string) (fetch : HttpRequest.t -> Outcome HttpResponse.t)
  : list HttpRequest.t * Outcome string :=
  if negb (truthy (ModelConfig.endpoint config))
     || negb (truthy (ModelConfig.apiKey config))
  then ([], Rejected "Missing endpoint or API key for custom model")
  else
    let request := imagesRequest config prompt aspectRatio in
    ([request],
     match fetch request with
     | Rejected message => Rejected message
     | Resolved response =>
         if negb (HttpResponse.ok response) then
           match HttpResponse.text response with
           | Resolved err => Rejected ("Custom API Error: " ++ err)
           | Rejected message => Rejected message
           end
         else
           match HttpResponse.json response with
           | Rejected message => Rejected message
           | Resolved data =>
               let b64 := firstDatum ImageDatum.b64_json data in
               if truthy b64 then
                 match b64 with
                 | Some b => Resolved ("data:image/png;base64," ++ b)
                 | None => Rejected "No image found in custom API response"
                 end
               else
                 let url := firstDatum ImageDatum.url data in
                 if truthy url then
                   match url with
                   | Some u => Resolved u
                   | None => Rejected "No image found in custom API response"
                   end
                 else Rejected "No image found in custom API response"
           end
     end).

End Api.

(** ** App.tsx: the session store *)

Module App.

Definition DEFAULT_MODEL : ModelConfig.t :=
  {| ModelConfig.id := "default-gemini";
     ModelConfig.name := "Nanobanana Pro (Default)";
     ModelConfig.type := GEMINI;
     ModelConfig.endpoint := None;
     ModelConfig.apiKey := None;
     ModelConfig.modelId := "gemini-3-pro-image-preview" |}.

Definition COUNT_OPTIONS : list nat := [1; 2; 4; 8; 10; 20; 50].

(** The state that the orchestrator works on: the [sessions] array (the
    state of [useState], which [sessionsRef.current] mirrors) and the one
    [abortControllerRef] of the component. *)
Record World := {
  sessions : list Session.t;
  abortControllerRef : bool
}.

(** [sessions.find(s => s.id === sessionId)] *)
Definition findSession (sessionId : string) (ss : list Session.t)
  : option Session.t :=
  find (fun s => String.eqb (Session.id s) sessionId) ss.

(** [createSession]: the new session is put in front. *)
Definition newSession (clk : Clock) (promptInput : string)
  (refImages : list string) (genCount : nat) : Session.t :=
  {| Session.id := show (now clk);
     Session.name :=
       (if String.eqb (substring 0 30 promptInput) EmptyString
        then "Untitled Task" else substring 0 30 promptInput);
     Session.basePrompt := promptInput;
     Session.referenceImages := refImages;
     Session.generatedImages := [];
     Session.generatedPrompts := [];
     Session.createdAt := now clk;
     Session.status := idle;
     Session.totalTarget := genCount;
     Session.progress := 0;
     Session.logs := ["Session initialized. Waiting to start..."] |}.

Definition createSession (clk : Clock) (promptInput : string)
  (refImages : list string) (genCount : nat) (prev : list Session.t)
  : list Session.t :=
  newSession clk promptInput refImages genCount :: prev.

(** [updateSession(id, updates)]; the partial object [updates] is the
    function that spreads it over a session. *)
Definition updateSession (id : string) (updates : Session.t -> Session.t)
  (prev : list Session.t) : list Session.t :=
  map (fun s => if String.eqb (Session.id s) id then updates s else s) prev.

Definition logLine (clk : Clock) (message : string) : string :=
  "[" ++ localeTime clk ++ "] " ++ message.

Definition addLog (clk : Clock) (sessionId : string) (message : string)
  (prev : list Session.t) : list Session.t :=
  map (fun s =>
         if String.eqb (Session.id s) sessionId
         then Session.with_logs (Session.logs s ++ [logLine clk message]) s
         else s) prev.

Definition stopGeneration (clk : Clock) (sessionId : string) (w : World)
  : World :=
  {| sessions :=
       addLog clk sessionId "User interrupted the generation process."
         (updateSession sessionId (Session.with_status stopped) (sessions w));
     abortControllerRef := true |}.

(** ** App.tsx: progress *)

(** A small non-negative integer as a JavaScript number. *)
Definition toNumber (n : nat) : float :=
  PrimFloat.of_uint63 (Uint63.of_Z (Z.of_nat n)).

(** [Math.floor] of a finite number, as an integer ([0] for the values that
    are not finite, which a division by a [totalTarget] of [0] would give;
    the counts that the application offers are positive). *)
Definition Math_floor (x : float) : Z :=
  match Prim2SF x with
  | S754_finite negative m e =>
      let magnitude :=
        match e with
        | Z0 => Zpos m
        | Zpos p => Z.shiftl (Zpos m) (Zpos p)
        | Zneg p => Z.shiftr (Zpos m) (Zpos p)
        end in
      if negative then
        if Z.ltb e 0 && negb (Z.eqb (Z.shiftl magnitude (- e)) (Zpos m))
        then (- magnitude - 1)%Z else (- magnitude)%Z
      else magnitude
  | _ => 0%Z
  end.

(** [15 + Math.floor((length / totalTarget) * 85)], in binary64. *)
Definition newProgress (length totalTarget : nat) : nat :=
  15 + Z.to_nat
         (Math_floor
            (PrimFloat.mul
               (PrimFloat.div (toNumber length) (toNumber totalTarget))
               (toNumber 85))).

(** ** App.tsx: the orchestrator

    Whatever is thrown is an [Error] with a [message] ([Rejected message]),
    as every [throw] of services/api.ts is.  Under that reading each
    statement between the outer [try] and its [catch] either completes or is
    caught by one of the two inner handlers, so the outer handler, the only
    place that writes the status [failed], is never entered; it has no
    counterpart below. *)

(** The value that [generateDiversePrompts] resolves to, at the type the
    orchestrator reads it. *)
Record Expansion := {
  prompts : list string;
  aspectRatio : string
}.

(** What a synthesizer call meets outside the program. *)
Record Env := {
  API_KEY : option string;
  generateContent : Api.GeminiRequest.t -> Outcome Api.GeminiResponse.t;
  fetch : Api.HttpRequest.t -> Outcome Api.HttpResponse.t
}.

(** Where a run of [startGeneration] is suspended: at the [await] of the
    expansion, at the [await] of the synthesis of item [i] (with the locals
    [diversePrompts] and [aspectRatio]; [completedCount] is written and never
    read, and is left out), or not at all any more. *)
Inductive Pc :=
| AwaitExpansion
| AwaitSynthesis (i : nat) (diversePrompts : list string)
    (aspectRatio : string)
| Returned.

(** A call of [startGeneration]: its argument, the [session] found at the
    start, the [activeModel] of the closure, and where it stands. *)
Record Run := {
  sessionId : string;
  session : Session.t;
  activeModel : ModelConfig.t;
  pc : Pc
}.

Definition withSessions (ss : list Session.t) (w : World) : World :=
  {| sessions := ss; abortControllerRef := abortControllerRef w |}.

(** From the call to the first [await]. *)
Definition startGeneration (clk : Clock) (sessionId : string)
  (activeModel : ModelConfig.t) (w : World) : World * option Run :=
  match findSession sessionId (sessions w) with
  | None => (w, None)
  | Some session =>
      let ss :=
        updateSession sessionId
          (fun s => Session.with_logs []
                      (Session.with_progress 5
                         (Session.with_status generating s)))
          (sessions w) in
      let ss :=
        addLog clk sessionId
          ("Starting generation task for "
           ++ show (Session.totalTarget session) ++ " images.") ss in
      let ss :=
        addLog clk sessionId
          "Synthesizing diverse prompts & analyzing constraints..." ss in
      ({| sessions := ss; abortControllerRef := false |},
       Some {| sessionId := sessionId; session := session;
               activeModel := activeModel; pc := AwaitExpansion |})
  end.

(** The [if]/[else] after the loop. *)
Definition afterLoop (clk : Clock) (sessionId : string) (w : World) : World :=
  if negb (abortControllerRef w) then
    withSessions
      (addLog clk sessionId "Task completed successfully."
         (updateSession sessionId
            (fun s => Session.with_progress 100
                        (Session.with_status completed s))
            (sessions w))) w
  else
    withSessions
      (updateSession sessionId (Session.with_status stopped) (sessions w)) w.

(** The head of the [for] loop at index [i], up to the next [await]. *)
Definition loopHead (clk : Clock) (sessionId : string) (i : nat)
  (diversePrompts : list string) (aspectRatio : string) (w : World)
  : World * Pc :=
  if Nat.ltb i (List.length diversePrompts) then
    if abortControllerRef w then (afterLoop clk sessionId w, Returned)
    else
      (withSessions
         (addLog clk sessionId
            ("Generating image " ++ show (i + 1) ++ "/"
             ++ show (List.length diversePrompts) ++ "...")
            (sessions w)) w,
       AwaitSynthesis i diversePrompts aspectRatio)
  else (afterLoop clk sessionId w, Returned).

(** The [try]/[catch] around the expansion: the prompts and the aspect
    ratio that the run goes on with, and the log entry of the fallback. *)
Definition expansionOrFallback (run : Run) (result : Outcome Expansion)
  : list string * string :=
  match result with
  | Resolved r => (prompts r, aspectRatio r)
  | Rejected _ =>
      (repeat (Session.basePrompt (session run))
         (Session.totalTarget (session run)),
       "16:9")
  end.

Definition logFallback (clk : Clock) (run : Run) (result : Outcome Expansion)
  (ss : list Session.t) : list Session.t :=
  match result with
  | Resolved _ => ss
  | Rejected message =>
      addLog clk (sessionId run)
        ("Warning: Prompt expansion failed: " ++ message
         ++ ". Using original prompt as fallback.") ss
  end.

(** The three statements that adopt the prompt list. *)
Definition adoptPrompts (clk : Clock) (sessionId : string)
  (diversePrompts : list string) (aspectRatio : string)
  (ss : list Session.t) : list Session.t :=
  addLog clk sessionId ("Target Aspect Ratio: " ++ aspectRatio)
    (addLog clk sessionId
       ("Generated " ++ show (List.length diversePrompts)
        ++ " unique variations.")
       (updateSession sessionId
          (fun s => Session.with_progress 15
                      (Session.with_generatedPrompts diversePrompts s))
          ss)).

(** From the settlement of the expansion to the next [await]. *)
Definition resumeExpansion (clk : Clock) (run : Run)
  (result : Outcome Expansion) (w : World) : World * Pc :=
  let (diversePrompts, aspectRatio) := expansionOrFallback run result in
  let w := withSessions (logFallback clk run result (sessions w)) w in
  if abortControllerRef w then (w, Returned)
  else
    loopHead clk (sessionId run) 0 diversePrompts aspectRatio
      (withSessions
         (adoptPrompts clk (sessionId run) diversePrompts aspectRatio
            (sessions w)) w).

Definition handleImageResult (clk : Clock) (sessionId : string) (i : nat)
  (prompt : string) (base64OrUrl : string) (prev : list Session.t)
  : list Session.t :=
  let newImage :=
    {| GeneratedImage.id :=
         sessionId ++ "_" ++ show (now clk) ++ "_" ++ show i;
       GeneratedImage.url := base64OrUrl;
       GeneratedImage.prompt := prompt;
       GeneratedImage.timestamp := now clk;
       GeneratedImage.tags := [] |} in
  match findSession sessionId prev with
  | None => prev
  | Some current =>
      let updatedImages :=
        (Session.generatedImages current ++ [newImage])%list in
      let newProgress :=
        newProgress (List.length updatedImages)
          (Session.totalTarget current) in
      updateSession sessionId
        (fun s => Session.with_progress newProgress
                    (Session.with_generatedImages updatedImages s))
        prev
  end.

(** The choice of the synthesizer by [activeModel.type]. *)
Definition synthesize (env : Env) (run : Run) (prompt : string)
  (aspectRatio : string) : Outcome string :=
  match ModelConfig.type (activeModel run) with
  | GEMINI =>
      Api.generateImageWithGemini (API_KEY env) prompt
        (Session.referenceImages (session run)) aspectRatio
        (generateContent env)
  | OPENAI_COMPATIBLE =>
      snd (Api.generateImageCustom (activeModel run) prompt aspectRatio
             (fetch env))
  end.

(** From the settlement of the synthesis of item [i] to the next [await].
    The loop condition has made sure that [i] is an index of
    [diversePrompts]. *)
Definition resumeSynthesis (clk : Clock) (env : Env) (run : Run) (i : nat)
  (diversePrompts : list string) (aspectRatio : string) (w : World)
  : World * Pc :=
  let prompt := nth i diversePrompts "undefined" in
  let ss :=
    match synthesize env run prompt aspectRatio with
    | Resolved base64OrUrl =>
        handleImageResult clk (sessionId run) i prompt base64OrUrl
          (sessions w)
    | Rejected message =>
        addLog clk (sessionId run)
          ("Error generating image " ++ show (i + 1) ++ ": " ++ message)
          (sessions w)
    end in
  loopHead clk (sessionId run) (i + 1) diversePrompts aspectRatio
    (withSessions ss w).

(** ** The application as a transition system

    What can happen, one event at a time: a click on Synthesize
    ([createSession]), the timer of [createSession] firing
    ([startGeneration], with the model of the render that set the timer), a
    click on Kill Task ([stopGeneration]), and the settlement of the promise
    that a run awaits.  Editing and deleting sessions are left out. *)
Inductive Event :=
| Synthesize (promptInput : string) (refImages : list string)
    (genCount : nat)
| TimerFired (sessionId : string) (activeModel : ModelConfig.t)
| KillTask (sessionId : string)
| ExpansionSettled (sessionId : string) (result : Outcome Expansion)
| SynthesisSettled (sessionId : string) (env : Env).

Record Config := {
  world : World;
  runs : list Run
}.

Definition initial : Config :=
  {| world := {| sessions := []; abortControllerRef := false |};
     runs := [] |}.

Definition findRun (sid : string) (rs : list Run) : option Run :=
  find (fun r => String.eqb (sessionId r) sid) rs.

(** The run moves on to [p]. *)
Definition withPc (p : Pc) (r : Run) : Run :=
  {| sessionId := sessionId r; session := session r;
     activeModel := activeModel r; pc := p |}.

Definition setPc (sid : string) (p : Pc) (rs : list Run) : list Run :=
  map (fun r => if String.eqb (sessionId r) sid then withPc p r else r) rs.

(** One event.  [None] when the event cannot happen in [c]:
    - the count of a new session is one of [COUNT_OPTIONS] (the only values
      that [genCount] takes) and its id, [Date.now()], is new;
    - [startGeneration] is called once for a session (by the timer of its
      creation);
    - a promise settles only for the run that awaits it. *)
Definition step (clk : Clock) (e : Event) (c : Config) : option Config :=
  match e with
  | Synthesize promptInput refImages genCount =>
      if existsb (Nat.eqb genCount) COUNT_OPTIONS then
        match findSession (show (now clk)) (sessions (world c)) with
        | Some _ => None
        | None =>
            Some {| world :=
                      withSessions
                        (createSession clk promptInput refImages genCount
                           (sessions (world c))) (world c);
                    runs := runs c |}
        end
      else None
  | TimerFired sid model =>
      match findRun sid (runs c) with
      | Some _ => None
      | None =>
          match startGeneration clk sid model (world c) with
          | (w, Some run) => Some {| world := w; runs := run :: runs c |}
          | (w, None) => Some {| world := w; runs := runs c |}
          end
      end
  | KillTask sid =>
      Some {| world := stopGeneration clk sid (world c); runs := runs c |}
  | ExpansionSettled sid result =>
      match findRun sid (runs c) with
      | Some run =>
          match pc run with
          | AwaitExpansion =>
              let (w, p) := resumeExpansion clk run result (world c) in
              Some {| world := w; runs := setPc sid p (runs c) |}
          | _ => None
          end
      | None => None
      end
  | SynthesisSettled sid env =>
      match findRun sid (runs c) with
      | Some run =>
          match pc run with
          | AwaitSynthesis i diversePrompts aspectRatio =>
              let (w, p) :=
                resumeSynthesis clk env run i diversePrompts aspectRatio
                  (world c) in
              Some {| world := w; runs := setPc sid p (runs c) |}
          | _ => None
          end
      | None => None
      end
  end.

(** A sequence of events, each with the clock reading of its segment. *)
Fixpoint exec (trace : list (Clock * Event)) (c : Config) : option Config :=
  match trace with
  | [] => Some c
  | (clk, e) :: rest =>
      match step clk e c with
      | Some c' => exec rest c'
      | None => None
      end
  end.

(** ** What a segment does to the session it works on

    Every write of the orchestrator is a [map] over [sessions] that changes
    the sessions of one id.  The functions below give the change itself; the
    lemmas of the next part show that looking a session up after a segment
    gives the session before it, changed in this way. *)

Definition appendLog (clk : Clock) (message : string) (s : Session.t)
  : Session.t :=
  Session.with_logs (Session.logs s ++ [logLine clk message]) s.

Definition stopOn (clk : Clock) (s : Session.t) : Session.t :=
  appendLog clk "User interrupted the generation process."
    (Session.with_status stopped s).

Definition startOn (clk : Clock) (s : Session.t) : Session.t :=
  appendLog clk "Synthesizing diverse prompts & analyzing constraints..."
    (appendLog clk
       ("Starting generation task for " ++ show (Session.totalTarget s)
        ++ " images.")
       (Session.with_logs []
          (Session.with_progress 5 (Session.with_status generating s)))).

Definition afterLoopOn (clk : Clock) (abort : bool) (s : Session.t)
  : Session.t :=
  if negb abort then
    appendLog clk "Task completed successfully."
      (Session.with_progress 100 (Session.with_status completed s))
  else Session.with_status stopped s.

Definition loopHeadOn (clk : Clock) (i : nat) (diversePrompts : list string)
  (abort : bool) (s : Session.t) : Session.t :=
  if Nat.ltb i (List.length diversePrompts) then
    if abort then afterLoopOn clk abort s
    else
      appendLog clk
        ("Generating image " ++ show (i + 1) ++ "/"
         ++ show (List.length diversePrompts) ++ "...") s
  else afterLoopOn clk abort s.

Definition fallbackOn (clk : Clock) (result : Outcome Expansion)
  (s : Session.t) : Session.t :=
  match result with
  | Resolved _ => s
  | Rejected message =>
      appendLog clk
        ("Warning: Prompt expansion failed: " ++ message
         ++ ". Using original prompt as fallback.") s
  end.

Definition adoptOn (clk : Clock) (diversePrompts : list string)
  (aspectRatio : string) (s : Session.t) : Session.t :=
  appendLog clk ("Target Aspect Ratio: " ++ aspectRatio)
    (appendLog clk
       ("Generated " ++ show (List.length diversePrompts)
        ++ " unique variations.")
       (Session.with_progress 15
          (Session.with_generatedPrompts diversePrompts s))).

Definition resumeExpansionOn (clk : Clock) (run : Run)
  (result : Outcome Expansion) (abort : bool) (s : Session.t) : Session.t :=
  if abort then fallbackOn clk result s
  else
    loopHeadOn clk 0 (fst (expansionOrFallback run result)) abort
      (adoptOn clk (fst (expansionOrFallback run result))
         (snd (expansionOrFallback run result)) (fallbackOn clk result s)).

Definition imageFor (clk : Clock) (sessionId : string) (i : nat)
  (prompt : string) (base64OrUrl : string) : GeneratedImage.t :=
  {| GeneratedImage.id := sessionId ++ "_" ++ show (now clk) ++ "_" ++ show i;
     GeneratedImage.url := base64OrUrl;
     GeneratedImage.prompt := prompt;
     GeneratedImage.timestamp := now clk;
     GeneratedImage.tags := [] |}.

Definition imageOn (clk : Clock) (sessionId : string) (i : nat)
  (prompt : string) (base64OrUrl : string) (s : Session.t) : Session.t :=
  Session.with_progress
    (newProgress
       (List.length
          (Session.generatedImages s
           ++ [imageFor clk sessionId i prompt base64OrUrl]))
       (Session.totalTarget s))
    (Session.with_generatedImages
       (Session.generatedImages s
        ++ [imageFor clk sessionId i prompt base64OrUrl]) s).

Definition settleOn (clk : Clock) (sessionId : string) (i : nat)
  (prompt : string) (outcome : Outcome string) (s : Session.t) : Session.t :=
  match outcome with
  | Resolved base64OrUrl => imageOn clk sessionId i prompt base64OrUrl s
  | Rejected message =>
      appendLog clk
        ("Error generating image " ++ show (i + 1) ++ ": " ++ message) s
  end.

Definition resumeSynthesisOn (clk : Clock) (env : Env) (run : Run) (i : nat)
  (diversePrompts : list string) (aspectRatio : string) (abort : bool)
  (s : Session.t) : Session.t :=
  loopHeadOn clk (i + 1) diversePrompts abort
    (settleOn clk (sessionId run) i (nth i diversePrompts "undefined")
       (synthesize env run (nth i diversePrompts "undefined") aspectRatio)
       s).

(** The change that event [e], happening in [c], makes to a session that
    is in the store and has the id [sid]. *)
Definition effect (clk : Clock) (e : Event) (c : Config) (sid : string)
  (s : Session.t) : Session.t :=
  match e with
  | Synthesize _ _ _ => s
  | TimerFired sid' _ => if String.eqb sid sid' then startOn clk s else s
  | KillTask sid' => if String.eqb sid sid' then stopOn clk s else s
  | ExpansionSettled sid' result =>
      if String.eqb sid sid' then
        match findRun sid' (runs c) with
        | Some run =>
            resumeExpansionOn clk run result
              (abortControllerRef (world c)) s
        | None => s
        end
      else s
  | SynthesisSettled sid' env =>
      if String.eqb sid sid' then
        match findRun sid' (runs c) with
        | Some run =>
            match pc run with
            | AwaitSynthesis i diversePrompts aspectRatio =>
                resumeSynthesisOn clk env run i diversePrompts aspectRatio
                  (abortControllerRef (world c)) s
            | _ => s
            end
        | None => s
        end
      else s
  end.

(** The run of the session [sid] after event [e] has happened in [c]. *)
Definition nextRun (clk : Clock) (e : Event) (c : Config) (sid : string)
  : option Run :=
  match e with
  | Synthesize _ _ _ => findRun sid (runs c)
  | KillTask _ => findRun sid (runs c)
  | TimerFired sid' model =>
      if String.eqb sid sid' then
        match findSession sid' (sessions (world c)) with
        | Some s =>
            Some {| sessionId := sid'; session := s; activeModel := model;
                    pc := AwaitExpansion |}
        | None => None
        end
      else findRun sid (runs c)
  | ExpansionSettled sid' result =>
      if String.eqb sid sid' then
        option_map
          (fun run =>
             withPc (snd (resumeExpansion clk run result (world c))) run)
          (findRun sid (runs c))
      else findRun sid (runs c)
  | SynthesisSettled sid' env =>
      if String.eqb sid sid' then
        option_map
          (fun run =>
             match pc run with
             | AwaitSynthesis i diversePrompts aspectRatio =>
                 withPc
                   (snd (resumeSynthesis clk env run i diversePrompts
                           aspectRatio (world c))) run
             | _ => run
             end)
          (findRun sid (runs c))
      else findRun sid (runs c)
  end.

(** ** The invariant of the application

    [progressAfter k n] is the progress of a session of target [n] to which
    a run has added [k] images so far. *)
Definition progressAfter (images totalTarget : nat) : nat :=
  match images with
  | O => 15
  | S _ => newProgress images totalTarget
  end.

(** What holds of a session [s] of the store and of the run [r] started
    for it, if any. *)
Definition Good (s : Session.t) (r : option Run) : Prop :=
  In (Session.totalTarget s) COUNT_OPTIONS /\
  Session.status s <> failed /\
  (Session.status s = completed -> Session.progress s = 100) /\
  List.length (Session.generatedImages s)
    <= List.length (Session.generatedPrompts s) /\
  match r with
  | None =>
      Session.generatedImages s = [] /\
      Session.generatedPrompts s = [] /\
      Session.progress s = 0 /\
      Session.status s <> completed
  | Some run =>
      Session.basePrompt (session run) = Session.basePrompt s /\
      Session.totalTarget (session run) = Session.totalTarget s /\
      match pc run with
      | AwaitExpansion =>
          Session.generatedImages s = [] /\
          Session.generatedPrompts s = [] /\
          Session.progress s = 5 /\
          Session.status s <> completed
      | AwaitSynthesis i diversePrompts _ =>
          Session.generatedPrompts s = diversePrompts /\
          i < List.length diversePrompts /\
          List.length (Session.generatedImages s) <= i /\
          Session.progress s =
            progressAfter (List.length (Session.generatedImages s))
              (Session.totalTarget s) /\
          Session.status s <> completed
      | Returned =>
          Session.progress s = 100 \/
          (Session.generatedImages s = [] /\ Session.progress s = 5) \/
          Session.progress s =
            progressAfter (List.length (Session.generatedImages s))
              (Session.totalTarget s)
      end
  end.

Definition Inv (c : Config) : Prop :=
  (forall sid s,
     findSession sid (sessions (world c)) = Some s ->
     Good s (findRun sid (runs c))) /\
  (forall sid r,
     findRun sid (runs c) = Some r ->
     findSession sid (sessions (world c)) <> None).

End App.

Import App.

(** * components/SettingsModal.tsx: the form for a custom model *)

Module SettingsModal.

(** [Partial<ModelConfig>], the state [newConfig] of the form. *)
Record NewConfig := {
  name : option string;
  type : option ModelType;
  endpoint : option string;
  apiKey : option string;
  modelId : option string
}.

(** The initial state of the form, and its state after a save. *)
Definition blank : NewConfig :=
  {| name := Some EmptyString; type := Some OPENAI_COMPATIBLE;
     endpoint := Some EmptyString; apiKey := Some EmptyString;
     modelId := Some EmptyString |}.

(** The four inputs of the form. *)
Inductive Field := Name | ModelId | Endpoint | ApiKey.

(** [setNewConfig({...newConfig, field: value})] *)
Definition onChange (field : Field) (value : string) (newConfig : NewConfig)
  : NewConfig :=
  match field with
  | Name =>
      {| name := Some value; type := type newConfig;
         endpoint := endpoint newConfig; apiKey := apiKey newConfig;
         modelId := modelId newConfig |}
  | ModelId =>
      {| name := name newConfig; type := type newConfig;
         endpoint := endpoint newConfig; apiKey := apiKey newConfig;
         modelId := Some value |}
  | Endpoint =>
      {| name := name newConfig; type := type newConfig;
         endpoint := Some value; apiKey := apiKey newConfig;
         modelId := modelId newConfig |}
  | ApiKey =>
      {| name := name newConfig; type := type newConfig;
         endpoint := endpoint newConfig; apiKey := Some value;
         modelId := modelId newConfig |}
  end.

(** [handleSave]: the configuration handed to [onSaveConfig], if any, and
    the state of the form afterwards. *)
Definition handleSave (clk : Clock) (newConfig : NewConfig)
  : option ModelConfig.t * NewConfig :=
  match name newConfig, modelId newConfig with
  | Some n, Some m =>
      if truthy (Some n) && truthy (Some m) then
        (Some {| ModelConfig.id := show (now clk);
                 ModelConfig.name := n;
                 ModelConfig.type :=
                   match type newConfig with
                   | Some t => t
                   | None => OPENAI_COMPATIBLE
                   end;
                 ModelConfig.endpoint := endpoint newConfig;
                 ModelConfig.apiKey := apiKey newConfig;
                 ModelConfig.modelId := m |},
         blank)
      else (None, newConfig)
  | _, _ => (None, newConfig)
  end.

End SettingsModal.

(** * components/ImageEditorModal.tsx: the tags of an image *)

Module ImageEditorModal.

(** The characters below 256 that [String.prototype.trim] strips: the
    white space and line terminators tab, line feed, vertical tab, form
    feed, carriage return, space and no-break space. *)
Definition isWhiteSpace (c : ascii) : bool :=
  (Nat.leb 9 (nat_of_ascii c) && Nat.leb (nat_of_ascii c) 13)
  || Nat.eqb (nat_of_ascii c) 32 || Nat.eqb (nat_of_ascii c) 160.

Fixpoint trimStart (s : string) : string :=
  match s with
  | EmptyString => EmptyString
  | String c rest => if isWhiteSpace c then trimStart rest else s
  end.

Fixpoint trimEnd (s : string) : string :=
  match s with
  | EmptyString => EmptyString
  | String c rest =>
      match trimEnd rest with
      | EmptyString =>
          if isWhiteSpace c then EmptyString else String c EmptyString
      | String d rest' => String c (String d rest')
      end
  end.

(** [s.trim()] *)
Definition trim (s : string) : string := trimEnd (trimStart s).

(** [tags.includes(tag)] *)
Definition includes (tag : string) (tags : list string) : bool :=
  existsb (String.eqb tag) tags.

(** [handleAddTag]: the states [tags] and [newTag] afterwards. *)
Definition handleAddTag (tags : list string) (newTag : string)
  : list string * string :=
  if truthy (Some (trim newTag)) && negb (includes (trim newTag) tags)
  then ((tags ++ [trim newTag])%list, EmptyString)
  else (tags, newTag).

(** [handleRemoveTag] *)
Definition handleRemoveTag (tag : string) (tags : list string) : list string :=
  filter (fun t => negb (String.eqb t tag)) tags.

End ImageEditorModal.

(** * App.tsx: the workbench around the pipeline

    The state of the component besides the session store and the
    cancellation flag, and the handlers that work on it.  A handler reads
    the state of the render in which it was created; every action below
    runs on the state that the action before it has left, and the click on
    Save Changes is one action with the loading of the image that it waits
    for. *)

Module Workbench.

Record Ui := {
  activeSessionId : option string;
  activeModelId : string;
  modelConfigs : list ModelConfig.t;
  activeFilterTag : option string;
  promptInput : string;
  refImages : list string;
  genCount : nat
}.

Definition initialUi : Ui :=
  {| activeSessionId := None;
     activeModelId := ModelConfig.id DEFAULT_MODEL;
     modelConfigs := [DEFAULT_MODEL];
     activeFilterTag := None;
     promptInput := EmptyString;
     refImages := [];
     genCount := 4 |}.

(** The setters of [useState]. *)
Definition setActiveSessionId (v : option string) (ui : Ui) : Ui :=
  {| activeSessionId := v; activeModelId := activeModelId ui;
     modelConfigs := modelConfigs ui; activeFilterTag := activeFilterTag ui;
     promptInput := promptInput ui; refImages := refImages ui;
     genCount := genCount ui |}.

Definition setActiveModelId (v : string) (ui : Ui) : Ui :=
  {| activeSessionId := activeSessionId ui; activeModelId := v;
     modelConfigs := modelConfigs ui; activeFilterTag := activeFilterTag ui;
     promptInput := promptInput ui; refImages := refImages ui;
     genCount := genCount ui |}.

Definition setModelConfigs (v : list ModelConfig.t) (ui : Ui) : Ui :=
  {| activeSessionId := activeSessionId ui; activeModelId := activeModelId ui;
     modelConfigs := v; activeFilterTag := activeFilterTag ui;
     promptInput := promptInput ui; refImages := refImages ui;
     genCount := genCount ui |}.

Definition setActiveFilterTag (v : option string) (ui : Ui) : Ui :=
  {| activeSessionId := activeSessionId ui; activeModelId := activeModelId ui;
     modelConfigs := modelConfigs ui; activeFilterTag := v;
     promptInput := promptInput ui; refImages := refImages ui;
     genCount := genCount ui |}.

Definition setPromptInput (v : string) (ui : Ui) : Ui :=
  {| activeSessionId := activeSessionId ui; activeModelId := activeModelId ui;
     modelConfigs := modelConfigs ui; activeFilterTag := activeFilterTag ui;
     promptInput := v; refImages := refImages ui; genCount := genCount ui |}.

Definition setRefImages (v : list string) (ui : Ui) : Ui :=
  {| activeSessionId := activeSessionId ui; activeModelId := activeModelId ui;
     modelConfigs := modelConfigs ui; activeFilterTag := activeFilterTag ui;
     promptInput := promptInput ui; refImages := v; genCount := genCount ui |}.

Definition setGenCount (v : nat) (ui : Ui) : Ui :=
  {| activeSessionId := activeSessionId ui; activeModelId := activeModelId ui;
     modelConfigs := modelConfigs ui; activeFilterTag := activeFilterTag ui;
     promptInput := promptInput ui; refImages := refImages ui;
     genCount := v |}.

(** [sessions.find(s => s.id === activeSessionId) || null] *)
Definition activeSession (ss : list Session.t) (ui : Ui) : option Session.t :=
  match activeSessionId ui with
  | Some id => findSession id ss
  | None => None
  end.

(** [modelConfigs.find(m => m.id === activeModelId) || DEFAULT_MODEL] *)
Definition activeModel (ui : Ui) : ModelConfig.t :=
  match
    find (fun m => String.eqb (ModelConfig.id m) (activeModelId ui))
      (modelConfigs ui)
  with
  | Some m => m
  | None => DEFAULT_MODEL
  end.

Definition handleNewSession (ui : Ui) : Ui :=
  setActiveFilterTag None
    (setGenCount 4
       (setRefImages []
          (setPromptInput EmptyString (setActiveSessionId None ui)))).

Definition handleSelectSession (id : string) (ss : list Session.t) (ui : Ui)
  : Ui :=
  match findSession id ss with
  | Some session =>
      setActiveFilterTag None
        (setGenCount (Session.totalTarget session)
           (setRefImages (Session.referenceImages session)
              (setPromptInput (Session.basePrompt session)
                 (setActiveSessionId (Some id) ui))))
  | None => ui
  end.

(** [createSession], with what it does besides adding the session: the
    new session becomes the active one, and a timer is set that will call
    [startGeneration] of this render, whose [activeModel] is the one of
    now. *)
Definition createSession (clk : Clock) (ss : list Session.t) (ui : Ui)
  : list Session.t * Ui * (string * ModelConfig.t) :=
  (App.createSession clk (promptInput ui) (refImages ui) (genCount ui) ss,
   setActiveFilterTag None (setActiveSessionId (Some (show (now clk))) ui),
   (show (now clk), activeModel ui)).

(** The handler given to the sidebar as [onDeleteSession]. *)
Definition onDeleteSession (id : string) (ss : list Session.t) (ui : Ui)
  : list Session.t * Ui :=
  (filter (fun s => negb (String.eqb (Session.id s) id)) ss,
   match activeSessionId ui with
   | Some active =>
       if String.eqb active id then setActiveSessionId None ui else ui
   | None => ui
   end).

(** A file of a selection or a drop: its MIME type, and what
    [FileReader.readAsDataURL] will report for it.  (A reader that fails
    reports [null]; that case is not covered.) *)
Module File.
Record t := { type : string; result : string }.
End File.

(** [handleFileSelection]: [None] for the alert, otherwise the results of
    the readers that it starts, each to be appended when its reader has
    finished. *)
Definition handleFileSelection (files : list File.t) (ui : Ui)
  : option (list string) :=
  let validFiles :=
    filter (fun file => String.prefix "image/" (File.type file)) files in
  if Nat.ltb 4 (List.length (refImages ui) + List.length validFiles)
  then None
  else Some (map File.result validFiles).

(** [reader.onloadend] *)
Definition onloadend (result : string) (ui : Ui) : Ui :=
  setRefImages (refImages ui ++ [result]) ui.

(** [prev.filter((_, i) => i !== idx)] *)
Fixpoint removeAt {A : Type} (idx : nat) (prev : list A) : list A :=
  match prev, idx with
  | [], _ => []
  | _ :: rest, O => rest
  | x :: rest, S idx' => x :: removeAt idx' rest
  end.

(** [handleImageSave]: the change to an image, to the active session, and
    to the store. *)
Definition editImage (id newUrl : string) (newTags : list string)
  (img : GeneratedImage.t) : GeneratedImage.t :=
  if String.eqb (GeneratedImage.id img) id then
    {| GeneratedImage.id := GeneratedImage.id img;
       GeneratedImage.url := newUrl;
       GeneratedImage.prompt := GeneratedImage.prompt img;
       GeneratedImage.timestamp := GeneratedImage.timestamp img;
       GeneratedImage.tags := newTags |}
  else img.

(** What [handleImageSave] does to the active session. *)
Definition saveOn (id newUrl : string) (newTags : list string)
  (s : Session.t) : Session.t :=
  Session.with_generatedImages
    (map (editImage id newUrl newTags) (Session.generatedImages s)) s.

Definition handleImageSave (id newUrl : string) (newTags : list string)
  (ss : list Session.t) (ui : Ui) : list Session.t :=
  match activeSessionId ui with
  | Some active =>
      if truthy (Some active) then
        map (fun s =>
               if String.eqb (Session.id s) active
               then saveOn id newUrl newTags s else s) ss
      else ss
  | None => ss
  end.

(** [filteredImages] *)
Definition filteredImages (ss : list Session.t) (ui : Ui)
  : list GeneratedImage.t :=
  match activeSession ss ui with
  | Some s =>
      filter
        (fun img =>
           negb (truthy (activeFilterTag ui))
           || match activeFilterTag ui with
              | Some tag =>
                  ImageEditorModal.includes tag (GeneratedImage.tags img)
              | None => false
              end)
        (Session.generatedImages s)
  | None => []
  end.

(** [Array.from(new Set(values))]: the values in the order of their first
    occurrence. *)
Fixpoint fromSet (seen values : list string) : list string :=
  match values with
  | [] => []
  | v :: rest =>
      if ImageEditorModal.includes v seen then fromSet seen rest
      else v :: fromSet (v :: seen) rest
  end.

(** [uniqueTags] *)
Definition uniqueTags (ss : list Session.t) (ui : Ui) : list string :=
  match activeSession ss ui with
  | Some s => fromSet [] (flat_map GeneratedImage.tags (Session.generatedImages s))
  | None => []
  end.

(** [array.forEach((x, idx) => ...)], as the list of the results. *)
Fixpoint forEach {A B : Type} (f : A -> nat -> B) (idx : nat) (xs : list A)
  : list B :=
  match xs with
  | [] => []
  | x :: rest => f x idx :: forEach f (S idx) rest
  end.

(** [downloadVisible]: the links that are clicked, each with its [href]
    and its [download] name. *)
Definition downloadVisible (ss : list Session.t) (ui : Ui)
  : list (string * string) :=
  match activeSession ss ui with
  | None => []
  | Some s =>
      forEach
        (fun img idx =>
           (GeneratedImage.url img,
            "synth_" ++ Session.id s ++ "_" ++ show idx ++ "_"
            ++ (match activeFilterTag ui with
                | Some tag => if truthy (Some tag) then tag else "all"
                | None => "all"
                end)
            ++ ".png"))
        0 (filteredImages ss ui)
  end.

(** ** The workbench as a transition system

    Besides the state of the pipeline ([app]): the form of the settings
    dialog, the image that the editor is open on with the states [tags] and
    [newTag] of the editor, the timers set by [createSession] that have not
    fired, and the file readers that have not finished. *)
Record State := {
  ui : Ui;
  form : SettingsModal.NewConfig;
  editingImage : option GeneratedImage.t;
  tags : list string;
  newTag : string;
  app : Config;
  timers : list (string * ModelConfig.t);
  readers : list string
}.

Definition initialState : State :=
  {| ui := initialUi; form := SettingsModal.blank; editingImage := None;
     tags := []; newTag := EmptyString; app := initial; timers := [];
     readers := [] |}.

Inductive Action :=
| NewSession                          (* New Session, in the sidebar *)
| SelectSession (id : string)         (* a session of the sidebar *)
| DeleteSession (id : string)         (* its delete button *)
| TypePrompt (text : string)          (* the text area *)
| PickCount (opt : nat)               (* a count button *)
| SelectFiles (files : list File.t)   (* the file input, or a drop *)
| FileLoaded (k : nat)                (* a reader finishes *)
| RemoveRef (idx : nat)               (* the remove button of a reference *)
| ClickSynthesize                     (* Synthesize *)
| TimerFires (k : nat)                (* a timer of createSession *)
| KillTask                            (* Kill Task *)
| Settled (e : Event)                 (* a promise of a run settles *)
| EditForm (field : SettingsModal.Field) (value : string)
| SaveModel                           (* Save Model *)
| SelectModel (id : string)           (* a model of the dialog *)
| PickTag (tag : option string)       (* ALL, or a tag button *)
| OpenEditor (k : nat)                (* an image of the gallery *)
| TypeTag (text : string)             (* the tag input of the editor *)
| AddTag                              (* its + button, or Enter *)
| RemoveTag (tag : string)            (* the remove button of a tag *)
| SaveChanges (newUrl : string)       (* Save Changes, once the image is drawn *)
| CloseEditor.                        (* Cancel *)

Definition withUi (v : Ui) (st : State) : State :=
  {| ui := v; form := form st; editingImage := editingImage st;
     tags := tags st; newTag := newTag st; app := app st;
     timers := timers st; readers := readers st |}.

Definition withForm (v : SettingsModal.NewConfig) (st : State) : State :=
  {| ui := ui st; form := v; editingImage := editingImage st;
     tags := tags st; newTag := newTag st; app := app st;
     timers := timers st; readers := readers st |}.

Definition withEditor (image : option GeneratedImage.t) (ts : list string)
  (text : string) (st : State) : State :=
  {| ui := ui st; form := form st; editingImage := image; tags := ts;
     newTag := text; app := app st; timers := timers st;
     readers := readers st |}.

Definition withApp (v : Config) (st : State) : State :=
  {| ui := ui st; form := form st; editingImage := editingImage st;
     tags := tags st; newTag := newTag st; app := v; timers := timers st;
     readers := readers st |}.

Definition withTimers (v : list (string * ModelConfig.t)) (st : State)
  : State :=
  {| ui := ui st; form := form st; editingImage := editingImage st;
     tags := tags st; newTag := newTag st; app := app st; timers := v;
     readers := readers st |}.

Definition withReaders (v : list string) (st : State) : State :=
  {| ui := ui st; form := form st; editingImage := editingImage st;
     tags := tags st; newTag := newTag st; app := app st;
     timers := timers st; readers := v |}.

(** [setSessions] *)
Definition setSessions (ss : list Session.t) (st : State) : State :=
  withApp {| world := withSessions ss (world (app st)); runs := runs (app st) |}
    st.

(** The id [Date.now().toString()] is new: no session, no run and no timer
    has it. *)
Definition unused (id : string) (st : State) : bool :=
  match findSession id (sessions (world (app st))),
        findRun id (runs (app st)) with
  | None, None => negb (existsb (fun t => String.eqb (fst t) id) (timers st))
  | _, _ => false
  end.

(** One action.  [None] when the action is not on offer in [st]: a button
    that is disabled or not rendered, a timer or a reader that does not
    exist, a promise that no run awaits. *)
Definition act (clk : Clock) (a : Action) (st : State) : option State :=
  match a with
  | NewSession => Some (withUi (handleNewSession (ui st)) st)
  | SelectSession id =>
      Some (withUi
              (handleSelectSession id (sessions (world (app st))) (ui st)) st)
  | DeleteSession id =>
      let (ss, v) := onDeleteSession id (sessions (world (app st))) (ui st) in
      Some (withUi v (setSessions ss st))
  | TypePrompt text => Some (withUi (setPromptInput text (ui st)) st)
  | PickCount opt =>
      if existsb (Nat.eqb opt) COUNT_OPTIONS
      then Some (withUi (setGenCount opt (ui st)) st)
      else None
  | SelectFiles files =>
      match handleFileSelection files (ui st) with
      | None => Some st
      | Some results => Some (withReaders (readers st ++ results) st)
      end
  | FileLoaded k =>
      match nth_error (readers st) k with
      | Some result =>
          Some (withUi (onloadend result (ui st))
                  (withReaders (removeAt k (readers st)) st))
      | None => None
      end
  | RemoveRef idx =>
      if Nat.ltb idx (List.length (refImages (ui st)))
      then Some (withUi
                   (setRefImages (removeAt idx (refImages (ui st))) (ui st))
                   st)
      else None
  | ClickSynthesize =>
      if truthy (Some (ImageEditorModal.trim (promptInput (ui st))))
         && unused (show (now clk)) st
      then
        match createSession clk (sessions (world (app st))) (ui st) with
        | (ss, v, timer) =>
            Some (withUi v
                    (withTimers (timers st ++ [timer]) (setSessions ss st)))
        end
      else None
  | TimerFires k =>
      match nth_error (timers st) k with
      | Some (sid, model) =>
          option_map
            (fun c => withApp c (withTimers (removeAt k (timers st)) st))
            (step clk (TimerFired sid model) (app st))
      | None => None
      end
  | KillTask =>
      match activeSession (sessions (world (app st))) (ui st) with
      | Some s =>
          match Session.status s with
          | generating =>
              option_map (fun c => withApp c st)
                (step clk (App.KillTask (Session.id s)) (app st))
          | _ => None
          end
      | None => None
      end
  | Settled e =>
      match e with
      | ExpansionSettled _ _ | SynthesisSettled _ _ =>
          option_map (fun c => withApp c st) (step clk e (app st))
      | _ => None
      end
  | EditForm field value =>
      Some (withForm (SettingsModal.onChange field value (form st)) st)
  | SaveModel =>
      match SettingsModal.handleSave clk (form st) with
      | (Some config, newConfig) =>
          Some (withUi
                  (setModelConfigs (modelConfigs (ui st) ++ [config]) (ui st))
                  (withForm newConfig st))
      | (None, newConfig) => Some (withForm newConfig st)
      end
  | SelectModel id =>
      if existsb (fun m => String.eqb (ModelConfig.id m) id)
           (modelConfigs (ui st))
      then Some (withUi (setActiveModelId id (ui st)) st)
      else None
  | PickTag tag =>
      match uniqueTags (sessions (world (app st))) (ui st), tag with
      | [], _ => None
      | _ :: _, None => Some (withUi (setActiveFilterTag None (ui st)) st)
      | all, Some t =>
          if ImageEditorModal.includes t all
          then Some (withUi (setActiveFilterTag (Some t) (ui st)) st)
          else None
      end
  | OpenEditor k =>
      match
        nth_error (filteredImages (sessions (world (app st))) (ui st)) k
      with
      | Some image =>
          Some (withEditor (Some image) (GeneratedImage.tags image)
                  (newTag st) st)
      | None => None
      end
  | TypeTag text =>
      match editingImage st with
      | Some image => Some (withEditor (Some image) (tags st) text st)
      | None => None
      end
  | AddTag =>
      match editingImage st with
      | Some image =>
          let (ts, text) :=
            ImageEditorModal.handleAddTag (tags st) (newTag st) in
          Some (withEditor (Some image) ts text st)
      | None => None
      end
  | RemoveTag tag =>
      match editingImage st with
      | Some image =>
          if ImageEditorModal.includes tag (tags st)
          then Some (withEditor (Some image)
                       (ImageEditorModal.handleRemoveTag tag (tags st))
                       (newTag st) st)
          else None
      | None => None
      end
  | SaveChanges newUrl =>
      match editingImage st with
      | Some image =>
          Some (withEditor None (tags st) (newTag st)
                  (setSessions
                     (handleImageSave (GeneratedImage.id image) newUrl
                        (tags st) (sessions (world (app st))) (ui st))
                     st))
      | None => None
      end
  | CloseEditor =>
      match editingImage st with
      | Some _ => Some (withEditor None (tags st) (newTag st) st)
      | None => None
      end
  end.

Fixpoint play (script : list (Clock * Action)) (st : State) : option State :=
  match script with
  | [] => Some st
  | (clk, a) :: rest =>
      match act clk a st with
      | Some st' => play rest st'
      | None => None
      end
  end.

End Workbench.

(** * Scenarios and statements

    Concrete clocks, environments and event sequences, and the statements
    of the specification that the properties below are compared with. *)

Definition clockAt (n : nat) : Clock := {| now := n; localeTime := show n |}.

(** A model answer with one inline image, and an outage. *)
Definition imagePart : Api.Part.t :=
  {| Api.Part.inlineData :=
       Some {| Api.InlineData.mimeType := None;
               Api.InlineData.data := Some "AAAA" |};
     Api.Part.text := None |}.

(** A candidate that has content with these parts. *)
Definition candidateWith (parts : list Api.Part.t) : Api.Candidate.t :=
  {| Api.Candidate.content := Some {| Api.Content.parts := Some parts |} |}.

Definition envOk : Env :=
  {| API_KEY := Some "key";
     generateContent := fun _ =>
       Resolved
         {| Api.GeminiResponse.candidates := Some [candidateWith [imagePart]] |};
     fetch := fun _ => Rejected "offline" |}.

Definition envDown : Env :=
  {| API_KEY := Some "key";
     generateContent := fun _ => Rejected "503";
     fetch := fun _ => Rejected "offline" |}.

Definition stateAfter (trace : list (Clock * Event)) : Config :=
  match exec trace initial with
  | Some c => c
  | None => initial
  end.

Definition sessionAfter (trace : list (Clock * Event)) (sid : string)
  : Session.t :=
  match findSession sid (sessions (world (stateAfter trace))) with
  | Some s => s
  | None => newSession (clockAt 0) EmptyString [] 0
  end.

(** One image is asked for and the expansion answers with three prompts;
    the first two syntheses have succeeded. *)
Definition threeForOne : list (Clock * Event) :=
  [ (clockAt 1, Synthesize "a cat" [] 1);
    (clockAt 2, TimerFired "1" DEFAULT_MODEL);
    (clockAt 3,
     ExpansionSettled "1"
       (Resolved {| prompts := ["p1"; "p2"; "p3"]; aspectRatio := "16:9" |}));
    (clockAt 4, SynthesisSettled "1" envOk);
    (clockAt 5, SynthesisSettled "1" envOk) ].

(** The statement that a run never adds more images than [totalTarget].
    A session is created without images and only its run adds any, so the
    images of a session in a reachable state are those that its run has
    added. *)
Definition images_within_target : Prop :=
  forall trace c sid s,
    exec trace initial = Some c ->
    findSession sid (sessions (world c)) = Some s ->
    0 < Session.totalTarget s ->
    List.length (Session.generatedImages s) <= Session.totalTarget s.

(** The statement that progress never decreases and stays within 0-100. *)
Definition progress_monotone_within_100 : Prop :=
  forall trace clk e c c' sid s s',
    exec trace initial = Some c ->
    step clk e c = Some c' ->
    findSession sid (sessions (world c)) = Some s ->
    findSession sid (sessions (world c')) = Some s' ->
    Session.progress s <= Session.progress s' /\ Session.progress s' <= 100.

(** The progress after one event, for the session [s] that becomes [s']:
    the value of the progress by the place where the run stands, the value
    at completion, and, when the adopted prompt list has at most
    [totalTarget] prompts, that the progress has not decreased, is at most
    100, and that the formula evaluated in binary64 is the integer
    [15 + floor (85 * images / totalTarget)]. *)
Definition progress_facts (c' : Config) (sid : string) (s s' : Session.t)
  : Prop :=
  match findRun sid (runs c') with
  | None => Session.progress s' = 0
  | Some run =>
      match pc run with
      | AwaitExpansion => Session.progress s' = 5
      | AwaitSynthesis _ _ _ =>
          Session.progress s' =
          progressAfter (List.length (Session.generatedImages s'))
            (Session.totalTarget s')
      | Returned =>
          Session.progress s' = 100 \/
          (Session.generatedImages s' = [] /\ Session.progress s' = 5) \/
          Session.progress s' =
          progressAfter (List.length (Session.generatedImages s'))
            (Session.totalTarget s')
      end
  end /\
  (Session.status s' = completed -> Session.progress s' = 100) /\
  (List.length (Session.generatedPrompts s') <= Session.totalTarget s' ->
   Session.progress s <= Session.progress s' /\
   Session.progress s' <= 100 /\
   newProgress (List.length (Session.generatedImages s'))
     (Session.totalTarget s') =
   15 + 85 * List.length (Session.generatedImages s')
        / Session.totalTarget s').

(** Two images are asked for, the expansion answers with two prompts, and
    the first synthesis succeeds. *)
Definition twoForTwo : list (Clock * Event) :=
  [ (clockAt 1, Synthesize "a cat" [] 2);
    (clockAt 2, TimerFired "1" DEFAULT_MODEL);
    (clockAt 3,
     ExpansionSettled "1"
       (Resolved {| prompts := ["p1"; "p2"]; aspectRatio := "16:9" |})) ].

Definition runAfter (trace : list (Clock * Event)) (sid : string) : Run :=
  match findRun sid (runs (stateAfter trace)) with
  | Some r => r
  | None =>
      {| sessionId := sid; session := sessionAfter trace sid;
         activeModel := DEFAULT_MODEL; pc := Returned |}
  end.

(** Entries written during the segment of clock reading [clk]. *)
Definition stamped (clk : Clock) (entries : list string) : Prop :=
  Forall
    (fun entry => exists message, entry = "[" ++ localeTime clk ++ "] " ++ message)
    entries.

(** The log of [s'] is the log of [s] with stamped entries added. *)
Definition Extends (clk : Clock) (s s' : Session.t) : Prop :=
  exists suffix,
    Session.logs s' = (Session.logs s ++ suffix)%list /\ stamped clk suffix.

(** Event [e] is the start command of the session [sid]. *)
Definition startsRun (sid : string) (e : Event) : bool :=
  match e with
  | TimerFired sid' _ => String.eqb sid sid'
  | _ => false
  end.

(** What the start command leaves in the log. *)
Definition startLog (clk : Clock) (s : Session.t) : list string :=
  [ "[" ++ localeTime clk ++ "] Starting generation task for "
    ++ show (Session.totalTarget s) ++ " images.";
    "[" ++ localeTime clk
    ++ "] Synthesizing diverse prompts & analyzing constraints..." ].

(** The statement that no event of the pipeline ever does anything to a
    log but append to it. *)
Definition logs_append_only : Prop :=
  forall trace clk e c c' sid s s',
    exec trace initial = Some c ->
    step clk e c = Some c' ->
    findSession sid (sessions (world c)) = Some s ->
    findSession sid (sessions (world c')) = Some s' ->
    exists suffix, Session.logs s' = (Session.logs s ++ suffix)%list.

(** What C2 says of the settlement, with the error [message], of the
    synthesis of item [i] (0-based) of [dp], for the session [s] and the
    state [c'] that follows. *)
Definition failure_skipped (clk : Clock) (c c' : Config) (sid : string)
  (i : nat) (dp : list string) (ar : string) (s : Session.t)
  (message : string) : Prop :=
  exists s' run',
    findSession sid (sessions (world c')) = Some s' /\
    findRun sid (runs c') = Some run' /\
    Session.generatedImages s' = Session.generatedImages s /\
    (exists rest,
       Session.logs s' =
       (Session.logs s
        ++ ("[" ++ localeTime clk ++ "] Error generating image "
            ++ show (i + 1) ++ ": " ++ message)%string
           :: rest)%list) /\
    (Session.status s <> failed -> Session.status s' <> failed) /\
    (abortControllerRef (world c) = false ->
     (i + 1 < List.length dp ->
      pc run' = AwaitSynthesis (i + 1) dp ar /\
      Session.status s' = Session.status s) /\
     (List.length dp <= i + 1 ->
      pc run' = Returned /\
      Session.status s' = completed /\
      Session.progress s' = 100)).

(** The statement of C3 on the continuation: whenever the expansion of a
    run fails, the session adopts [totalTarget] copies of its base prompt
    and the run goes on with the first of them at 16:9. *)
Definition fallback_always_continues : Prop :=
  forall trace clk c c' sid run s message,
    exec trace initial = Some c ->
    findRun sid (runs c) = Some run ->
    findSession sid (sessions (world c)) = Some s ->
    step clk (ExpansionSettled sid (Rejected message)) c = Some c' ->
    exists s' run',
      findSession sid (sessions (world c')) = Some s' /\
      findRun sid (runs c') = Some run' /\
      Session.generatedPrompts s' =
        repeat (Session.basePrompt s) (Session.totalTarget s) /\
      pc run' =
        AwaitSynthesis 0
          (repeat (Session.basePrompt s) (Session.totalTarget s)) "16:9".

(** Session 1 is cancelled while its expansion is in flight. *)
Definition stoppedWhileExpanding : list (Clock * Event) :=
  [ (clockAt 1, Synthesize "a cat" [] 2);
    (clockAt 2, TimerFired "1" DEFAULT_MODEL);
    (clockAt 3, KillTask "1") ].

(** What the amended C3 says of the settlement of the expansion with the
    error [message]: the fallback list, the log entry, the status, and what
    follows by the cancellation flag at that moment. *)
Definition fell_back (clk : Clock) (c c' : Config) (sid : string)
  (run : Run) (s : Session.t) (message : string) : Prop :=
  expansionOrFallback run (Rejected message) =
    (repeat (Session.basePrompt s) (Session.totalTarget s), "16:9") /\
  exists s' run',
    findSession sid (sessions (world c')) = Some s' /\
    findRun sid (runs c') = Some run' /\
    (exists rest,
       Session.logs s' =
       (Session.logs s
        ++ ("[" ++ localeTime clk ++ "] Warning: Prompt expansion failed: "
            ++ message ++ ". Using original prompt as fallback.")%string
           :: rest)%list) /\
    Session.status s' <> failed /\
    Session.generatedImages s' = Session.generatedImages s /\
    (abortControllerRef (world c) = false ->
     Session.generatedPrompts s' =
       repeat (Session.basePrompt s) (Session.totalTarget s) /\
     List.length (Session.generatedPrompts s') = Session.totalTarget s /\
     pc run' =
       AwaitSynthesis 0
         (repeat (Session.basePrompt s) (Session.totalTarget s)) "16:9" /\
     Session.status s' = Session.status s) /\
    (abortControllerRef (world c) = true ->
     Session.generatedPrompts s' = Session.generatedPrompts s /\
     pc run' = Returned /\
     Session.status s' = Session.status s).

(** Session 1 is cancelled while its first synthesis is in flight; before
    that synthesis settles, session 5 is created and started. *)
Definition cancelThenOtherStart : list (Clock * Event) :=
  [ (clockAt 1, Synthesize "a cat" [] 2);
    (clockAt 2, TimerFired "1" DEFAULT_MODEL);
    (clockAt 3,
     ExpansionSettled "1"
       (Resolved {| prompts := ["p1"; "p2"]; aspectRatio := "16:9" |}));
    (clockAt 4, KillTask "1");
    (clockAt 5, Synthesize "a dog" [] 2);
    (clockAt 6, TimerFired "5" DEFAULT_MODEL);
    (clockAt 7, SynthesisSettled "1" envOk);
    (clockAt 8, SynthesisSettled "1" envOk) ].

(** Sessions 1 and 3 both await their first synthesis. *)
Definition twoSessions : list (Clock * Event) :=
  [ (clockAt 1, Synthesize "a cat" [] 2);
    (clockAt 2, TimerFired "1" DEFAULT_MODEL);
    (clockAt 3, Synthesize "a dog" [] 2);
    (clockAt 4, TimerFired "3" DEFAULT_MODEL);
    (clockAt 5,
     ExpansionSettled "1"
       (Resolved {| prompts := ["p1"; "p2"]; aspectRatio := "16:9" |}));
    (clockAt 6,
     ExpansionSettled "3"
       (Resolved {| prompts := ["q1"; "q2"]; aspectRatio := "1:1" |})) ].

(** The session that event [e], at clock reading [clk], is about. *)
Definition eventSession (clk : Clock) (e : Event) : string :=
  match e with
  | Synthesize _ _ _ => show (now clk)
  | TimerFired sid _ => sid
  | KillTask sid => sid
  | ExpansionSettled sid _ => sid
  | SynthesisSettled sid _ => sid
  end.

(** An event that starts no run and is about another session than
    [sid]. *)
Definition bystander (sid : string) (ce : Clock * Event) : bool :=
  match snd ce with
  | TimerFired _ _ => false
  | e => negb (String.eqb (eventSession (fst ce) e) sid)
  end.

(** [c] occurs in [s]. *)
Fixpoint occurs (c : ascii) (s : string) : bool :=
  match s with
  | EmptyString => false
  | String d s' => Ascii.eqb c d || occurs c s'
  end.

(** The answer of the model in the example of the specification. *)
Definition exampleResponse : string :=
  "Here you go: {" ++ q ++ "prompts" ++ q ++ ":[" ++ q ++ "a" ++ q ++ ","
  ++ q ++ "b" ++ q ++ "]," ++ q ++ "aspectRatio" ++ q ++ ":" ++ q ++ "16:9"
  ++ q ++ "}".

Definition exampleResult : Api.json :=
  Api.JObject
    [ (Api.unitsOf "prompts",
       Api.JArray [Api.JString (Api.unitsOf "a");
                   Api.JString (Api.unitsOf "b")]);
      (Api.unitsOf "aspectRatio", Api.JString (Api.unitsOf "16:9")) ].

(** The text of 8-bit characters that has these code units, when none of
    them lies above 255. *)
Fixpoint textOf (u : Api.units) : option string :=
  match u with
  | [] => Some EmptyString
  | x :: rest =>
      if N.ltb x 256 then
        match textOf rest with
        | Some s => Some (String (ascii_of_N x) s)
        | None => None
        end
      else None
  end.

(** The cast of the parsed [result] to
    [{ prompts: string[], aspectRatio: string }], where the value has that
    shape and its strings are texts of 8-bit characters, as the strings of
    the orchestrator are. *)
Fixpoint strings (values : list Api.json) : option (list string) :=
  match values with
  | [] => Some []
  | Api.JString s :: rest =>
      match textOf s, strings rest with
      | Some x, Some ss => Some (x :: ss)
      | _, _ => None
      end
  | _ :: _ => None
  end.

Definition asExpansion (result : Api.json) : option Expansion :=
  match Api.property "prompts" result, Api.property "aspectRatio" result with
  | Some (Api.JArray elements), Some (Api.JString ar) =>
      match strings elements, textOf ar with
      | Some ps, Some ratio => Some {| prompts := ps; aspectRatio := ratio |}
      | _, _ => None
      end
  | _, _ => None
  end.

(** A JSON object between prose, where the prose after it has a closing
    brace of its own. *)
Definition wrappedObject : string :=
  "{" ++ q ++ "prompts" ++ q ++ ":[" ++ q ++ "a" ++ q ++ "]}".

Definition proseWithBrace : string := "Sure: " ++ wrappedObject ++ " Enjoy :}".

(** The words of the specification: the first well-formed JSON object or
    array of [text], that is, at the leftmost position where an object or an
    array can be read, the text of that value. *)
Fixpoint firstWellFormedJson (text : string) : option string :=
  match text with
  | EmptyString => None
  | String c rest =>
      if Ascii.eqb c "{" || Ascii.eqb c "[" then
        match Api.parseValue (2 * String.length text + 2) text with
        | Some (_, after) =>
            Some (substring 0 (String.length text - String.length after) text)
        | None => firstWellFormedJson rest
        end
      else firstWellFormedJson rest
  end.

(** The statement that the expansion parses the first well-formed JSON
    object or array of the answer. *)
Definition extracts_first_json : Prop :=
  forall text j,
    firstWellFormedJson text = Some j -> Api.extractJson text = j.

(** A configuration of the compatible variant without credentials, and one
    with them. *)
Definition customWithoutKey : ModelConfig.t :=
  {| ModelConfig.id := "1700000000000";
     ModelConfig.name := "local";
     ModelConfig.type := OPENAI_COMPATIBLE;
     ModelConfig.endpoint := Some "http://localhost:8080";
     ModelConfig.apiKey := None;
     ModelConfig.modelId := "sd" |}.

Definition customWithKey : ModelConfig.t :=
  {| ModelConfig.id := "1700000000001";
     ModelConfig.name := "local";
     ModelConfig.type := OPENAI_COMPATIBLE;
     ModelConfig.endpoint := Some "http://localhost:8080";
     ModelConfig.apiKey := Some "sk";
     ModelConfig.modelId := "sd" |}.

(** A run with the configuration that lacks the key. *)
Definition runWithoutKey : Run :=
  {| sessionId := "1";
     session := newSession (clockAt 1) "a cat" [] 2;
     activeModel := customWithoutKey;
     pc := AwaitSynthesis 0 ["p1"; "p2"] "16:9" |}.

(** The continuation of [[\s\S]*] in both branches of the pattern of
    [extractJson]: the closing character, then the end of the match. *)
Definition closes (d : ascii) (s : string) : option string :=
  Api.matchAt (Api.Chr d) s Some.

(** The words of the amended C7.  [throughLast d s] is the text of [s] up
    to and including its last [d], when [d] occurs in [s]. *)
Fixpoint throughLast (d : ascii) (s : string) : option string :=
  match s with
  | EmptyString => None
  | String c s' =>
      match throughLast d s' with
      | Some piece => Some (String c piece)
      | None => if Ascii.eqb c d then Some (String c EmptyString) else None
      end
  end.

(** The closing character of an opening brace or bracket. *)
Definition closerOf (c : ascii) : option ascii :=
  if Ascii.eqb c "{" then Some "}"%char
  else if Ascii.eqb c "[" then Some "]"%char
  else None.

(** The text from the first opening brace or bracket of [text] that has a
    closing character of its kind after it, through the last such closing
    character of [text]. *)
Fixpoint fromFirstOpener (text : string) : option string :=
  match text with
  | EmptyString => None
  | String c rest =>
      match
        match closerOf c with
        | Some d => throughLast d rest
        | None => None
        end
      with
      | Some piece => Some (String c piece)
      | None => fromFirstOpener rest
      end
  end.

(** An answer with an opening bracket that is never closed before the
    object. *)
Definition unclosedBracket : string := "a [ {b} c".

(** The three sizes of C9. *)
Definition size_mapped (aspectRatio size : string) : Prop :=
  (aspectRatio = "16:9" -> size = "1792x1024") /\
  (aspectRatio = "9:16" -> size = "1024x1792") /\
  (aspectRatio <> "16:9" -> aspectRatio <> "9:16" -> size = "1024x1024").

(** The settlements of consecutive syntheses of the run of [sid]. *)
Definition settleAll (sid : string) (envs : list (Clock * Env))
  : list (Clock * Event) :=
  map (fun ce => (fst ce, SynthesisSettled sid (snd ce))) envs.

(** In [env] every synthesis that [run] asks for fails. *)
Definition alwaysFails (run : Run) (ar : string) (env : Env) : Prop :=
  forall prompt, exists message,
    synthesize env run prompt ar = Rejected message.

(** A part carries an inline image: [part.inlineData && part.inlineData.data]. *)
Definition hasInlineImage (part : Api.Part.t) : bool :=
  match Api.Part.inlineData part with
  | Some d => truthy (Api.InlineData.data d)
  | None => false
  end.

(** The data URL that [generateImageWithGemini] builds from such a part. *)
Definition dataUrlOf (part : Api.Part.t) : string :=
  match Api.Part.inlineData part with
  | Some d =>
      "data:"
      ++ (if truthy (Api.InlineData.mimeType d)
          then match Api.InlineData.mimeType d with
               | Some m => m
               | None => "image/png"
               end
          else "image/png")
      ++ ";base64,"
      ++ match Api.InlineData.data d with Some x => x | None => EmptyString end
  | None => EmptyString
  end.

(** A successful answer of the compatible endpoint. *)
Definition okResponse (data : list Api.ImageDatum.t) : Api.HttpResponse.t :=
  {| Api.HttpResponse.ok := true;
     Api.HttpResponse.text := Resolved EmptyString;
     Api.HttpResponse.json := Resolved (Some data) |}.

(** ** Statements about the sessions that the application reaches *)

(** [P] holds of every session of the store, taken with the run that was
    started for it, if any. *)
Definition Everywhere (P : Session.t -> option Run -> Prop) (c : Config)
  : Prop :=
  forall sid s,
    findSession sid (sessions (world c)) = Some s ->
    P s (findRun sid (runs c)).

(** [l1] is [l2] with some elements left out. *)
Inductive Subseq {A : Type} : list A -> list A -> Prop :=
| Subseq_nil : forall l, Subseq [] l
| Subseq_skip : forall x l1 l2, Subseq l1 l2 -> Subseq l1 (x :: l2)
| Subseq_take : forall x l1 l2, Subseq l1 l2 -> Subseq (x :: l1) (x :: l2).

(** The prompts whose synthesis has settled: those before the item that
    the run awaits. *)
Definition servedPrompts (s : Session.t) (r : option Run) : list string :=
  match r with
  | Some run =>
      match pc run with
      | AwaitSynthesis i diversePrompts _ => firstn i diversePrompts
      | _ => Session.generatedPrompts s
      end
  | None => Session.generatedPrompts s
  end.

(** An image as [handleImageResult] stores it: a payload, no tag. *)
Definition fresh (image : GeneratedImage.t) : Prop :=
  GeneratedImage.url image <> EmptyString /\ GeneratedImage.tags image = [].

Definition Ordered (s : Session.t) (r : option Run) : Prop :=
  Subseq (map GeneratedImage.prompt (Session.generatedImages s))
    (servedPrompts s r) /\
  Forall fresh (Session.generatedImages s).

(** The id that [handleImageResult] gives to the image of item [i], at the
    time [t], in the session [sessionId]. *)
Definition imageId (sessionId : string) (t i : nat) : string :=
  sessionId ++ "_" ++ show t ++ "_" ++ show i.

(** The index of the item that the run awaits; when it awaits none, the
    number of adopted prompts. *)
Definition nextIndex (s : Session.t) (r : option Run) : nat :=
  match r with
  | Some run =>
      match pc run with
      | AwaitSynthesis i _ _ => i
      | _ => List.length (Session.generatedPrompts s)
      end
  | None => List.length (Session.generatedPrompts s)
  end.

Definition Identified (s : Session.t) (r : option Run) : Prop :=
  Forall
    (fun image =>
       exists t j,
         GeneratedImage.id image = imageId (Session.id s) t j /\
         j < nextIndex s r)
    (Session.generatedImages s) /\
  NoDup (map GeneratedImage.id (Session.generatedImages s)).

(** The status of a session by the place where its run stands. *)
Definition Tracked (s : Session.t) (r : option Run) : Prop :=
  match r with
  | None => Session.status s = idle \/ Session.status s = stopped
  | Some run =>
      match pc run with
      | Returned =>
          Session.status s = completed \/
          Session.status s = stopped \/
          (Session.status s = generating /\
           Session.generatedPrompts s = [] /\
           Session.generatedImages s = [] /\
           Session.progress s = 5)
      | _ => Session.status s = generating \/ Session.status s = stopped
      end
  end.

(** Session 1 awaits its expansion when session 3 is started and then
    cancelled; the expansion of session 1 settles after that. *)
Definition strandedByStop : list (Clock * Event) :=
  [ (clockAt 1, Synthesize "a cat" [] 2);
    (clockAt 2, TimerFired "1" DEFAULT_MODEL);
    (clockAt 3, Synthesize "a dog" [] 2);
    (clockAt 4, TimerFired "3" DEFAULT_MODEL);
    (clockAt 5, KillTask "3");
    (clockAt 6,
     ExpansionSettled "1"
       (Resolved {| prompts := ["p1"; "p2"]; aspectRatio := "16:9" |})) ].

(** ** Statements about the states that the workbench reaches *)

(** A list of tags without repetition, each tag trimmed and not empty. *)
Definition tidy (ts : list string) : Prop :=
  NoDup ts /\
  Forall (fun t => t <> EmptyString /\ ImageEditorModal.trim t = t) ts.

(** What holds of every session of the store. *)
Definition Kept (s : Session.t) : Prop :=
  In (Session.totalTarget s) COUNT_OPTIONS /\
  ImageEditorModal.trim (Session.basePrompt s) <> EmptyString /\
  Session.name s = substring 0 30 (Session.basePrompt s) /\
  Session.name s <> EmptyString /\
  Forall (fun img => tidy (GeneratedImage.tags img))
    (Session.generatedImages s).

(** A configuration of the settings list: the built-in one, or one that
    the form has saved. *)
Definition listed (m : ModelConfig.t) : Prop :=
  m = DEFAULT_MODEL \/
  (ModelConfig.type m = OPENAI_COMPATIBLE /\
   ModelConfig.name m <> EmptyString /\
   ModelConfig.modelId m <> EmptyString /\
   ModelConfig.endpoint m <> None /\
   ModelConfig.apiKey m <> None).

(** The form holds a text in each of its fields, and the type of the
    compatible variant. *)
Definition filled (f : SettingsModal.NewConfig) : Prop :=
  SettingsModal.type f = Some OPENAI_COMPATIBLE /\
  SettingsModal.name f <> None /\
  SettingsModal.modelId f <> None /\
  SettingsModal.endpoint f <> None /\
  SettingsModal.apiKey f <> None.

Definition Sound (st : Workbench.State) : Prop :=
  In (Workbench.genCount (Workbench.ui st)) COUNT_OPTIONS /\
  tidy (Workbench.tags st) /\
  (forall sid s,
     findSession sid (sessions (world (Workbench.app st))) = Some s ->
     Kept s) /\
  (forall id,
     Workbench.activeSessionId (Workbench.ui st) = Some id ->
     findSession id (sessions (world (Workbench.app st))) <> None) /\
  hd_error (Workbench.modelConfigs (Workbench.ui st)) = Some DEFAULT_MODEL /\
  existsb
    (fun m =>
       String.eqb (ModelConfig.id m)
         (Workbench.activeModelId (Workbench.ui st)))
    (Workbench.modelConfigs (Workbench.ui st)) = true /\
  Forall listed (Workbench.modelConfigs (Workbench.ui st)) /\
  filled (Workbench.form st) /\
  Forall (fun t => In (snd t) (Workbench.modelConfigs (Workbench.ui st)))
    (Workbench.timers st) /\
  Forall
    (fun r => In (activeModel r) (Workbench.modelConfigs (Workbench.ui st)))
    (runs (Workbench.app st)).

(** The action leaves the session store to the pipeline: it neither
    deletes a session nor saves an edited image. *)
Definition leavesStore (a : Workbench.Action) : bool :=
  match a with
  | Workbench.DeleteSession _ | Workbench.SaveChanges _ => false
  | _ => true
  end.

(** The images of the active session. *)
Definition gallery (ss : list Session.t) (ui : Workbench.Ui)
  : list GeneratedImage.t :=
  match Workbench.activeSession ss ui with
  | Some s => Session.generatedImages s
  | None => []
  end.

(** A visit to the workbench: a custom model is saved, two images are
    asked for with the built-in model, the first one arrives, is tagged in
    the editor and saved, and the gallery is filtered by the tag. *)
Definition visit : list (Clock * Workbench.Action) :=
  [ (clockAt 1, Workbench.EditForm SettingsModal.Name "local");
    (clockAt 2, Workbench.EditForm SettingsModal.ModelId "sd");
    (clockAt 3, Workbench.SaveModel);
    (clockAt 4, Workbench.TypePrompt "a cat");
    (clockAt 5, Workbench.PickCount 2);
    (clockAt 6, Workbench.ClickSynthesize);
    (clockAt 7, Workbench.TimerFires 0);
    (clockAt 8,
     Workbench.Settled
       (ExpansionSettled "6"
          (Resolved {| prompts := ["p1"; "p2"]; aspectRatio := "16:9" |})));
    (clockAt 9, Workbench.Settled (SynthesisSettled "6" envOk));
    (clockAt 10, Workbench.OpenEditor 0);
    (clockAt 11, Workbench.TypeTag " night ");
    (clockAt 12, Workbench.AddTag);
    (clockAt 13, Workbench.SaveChanges "data:image/png;base64,BBBB");
    (clockAt 14, Workbench.PickTag (Some "night")) ].

Definition visited (script : list (Clock * Workbench.Action))
  : Workbench.State :=
  match Workbench.play script Workbench.initialState with
  | Some st => st
  | None => Workbench.initialState
  end.

(** * Properties *)

(** ** Looking up sessions and runs *)

Lemma findSession_id sid ss s :
  findSession sid ss = Some s -> Session.id s = sid.
Proof.
  unfold findSession. intros H. apply find_some in H.
  apply String.eqb_eq, H.
Qed.

Lemma findSession_In sid ss s : findSession sid ss = Some s -> In s ss.
Proof. unfold findSession. intros H. apply find_some in H. apply H. Qed.

Lemma findRun_sessionId sid rs r : findRun sid rs = Some r -> sessionId r = sid.
Proof.
  unfold findRun. intros H. apply find_some in H.
  apply String.eqb_eq, H.
Qed.

Lemma findSession_updateSession sid sid' f ss :
  (forall s, Session.id (f s) = Session.id s) ->
  findSession sid' (updateSession sid f ss) =
  if String.eqb sid' sid then option_map f (findSession sid' ss)
  else findSession sid' ss.
Proof.
  intros Hid. unfold findSession, updateSession.
  induction ss as [|a ss IH]; cbn [map find].
  - destruct (String.eqb sid' sid); reflexivity.
  - destruct (String.eqb (Session.id a) sid) eqn:Ea.
    + rewrite Hid.
      destruct (String.eqb (Session.id a) sid') eqn:Eb.
      * apply String.eqb_eq in Ea, Eb.
        assert (E : String.eqb sid' sid = true)
          by (apply String.eqb_eq; congruence).
        rewrite E. reflexivity.
      * exact IH.
    + destruct (String.eqb (Session.id a) sid') eqn:Eb.
      * apply String.eqb_eq in Eb. apply String.eqb_neq in Ea.
        assert (E : String.eqb sid' sid = false)
          by (apply String.eqb_neq; congruence).
        rewrite E. reflexivity.
      * exact IH.
Qed.

Lemma addLog_updateSession clk sid message ss :
  addLog clk sid message ss = updateSession sid (appendLog clk message) ss.
Proof. reflexivity. Qed.

Lemma findSession_addLog clk sid sid' message ss :
  findSession sid' (addLog clk sid message ss) =
  if String.eqb sid' sid
  then option_map (appendLog clk message) (findSession sid' ss)
  else findSession sid' ss.
Proof.
  rewrite addLog_updateSession.
  apply findSession_updateSession. reflexivity.
Qed.

Lemma findSession_handleImageResult clk sid sid' i prompt payload ss :
  findSession sid' (handleImageResult clk sid i prompt payload ss) =
  if String.eqb sid' sid
  then option_map (imageOn clk sid i prompt payload) (findSession sid' ss)
  else findSession sid' ss.
Proof.
  unfold handleImageResult.
  destruct (findSession sid ss) as [current|] eqn:E.
  - rewrite findSession_updateSession by reflexivity.
    destruct (String.eqb sid' sid) eqn:Es; [|reflexivity].
    apply String.eqb_eq in Es. subst sid'. rewrite E. reflexivity.
  - destruct (String.eqb sid' sid) eqn:Es; [|reflexivity].
    apply String.eqb_eq in Es. subst sid'. rewrite E. reflexivity.
Qed.

Lemma findRun_setPc sid sid' p rs :
  findRun sid' (setPc sid p rs) =
  if String.eqb sid' sid
  then option_map (withPc p) (findRun sid' rs)
  else findRun sid' rs.
Proof.
  unfold findRun, setPc.
  induction rs as [|a rs IH]; cbn [map find].
  - destruct (String.eqb sid' sid); reflexivity.
  - destruct (String.eqb (sessionId a) sid) eqn:Ea.
    + cbn [sessionId withPc].
      destruct (String.eqb (sessionId a) sid') eqn:Eb.
      * apply String.eqb_eq in Ea, Eb.
        assert (E : String.eqb sid' sid = true)
          by (apply String.eqb_eq; congruence).
        rewrite E. reflexivity.
      * exact IH.
    + destruct (String.eqb (sessionId a) sid') eqn:Eb.
      * apply String.eqb_eq in Eb. apply String.eqb_neq in Ea.
        assert (E : String.eqb sid' sid = false)
          by (apply String.eqb_neq; congruence).
        rewrite E. reflexivity.
      * exact IH.
Qed.

(** ** Segments, seen from one session *)

Lemma option_map_id {A} (o : option A) : option_map (fun x => x) o = o.
Proof. destruct o; reflexivity. Qed.

Lemma option_map_compose {A B C} (f : A -> B) (g : B -> C) (o : option A) :
  option_map g (option_map f o) = option_map (fun x => g (f x)) o.
Proof. destruct o; reflexivity. Qed.

Lemma findSession_stopGeneration clk sid sid' w :
  findSession sid' (sessions (stopGeneration clk sid w)) =
  if String.eqb sid' sid
  then option_map (stopOn clk) (findSession sid' (sessions w))
  else findSession sid' (sessions w).
Proof.
  unfold stopGeneration; cbn [sessions].
  rewrite findSession_addLog, findSession_updateSession by reflexivity.
  destruct (String.eqb sid' sid); [|reflexivity].
  rewrite option_map_compose. reflexivity.
Qed.

Lemma findSession_afterLoop clk sid sid' w :
  findSession sid' (sessions (afterLoop clk sid w)) =
  if String.eqb sid' sid
  then option_map (afterLoopOn clk (abortControllerRef w))
         (findSession sid' (sessions w))
  else findSession sid' (sessions w).
Proof.
  unfold afterLoop, afterLoopOn.
  destruct (abortControllerRef w); cbn [negb withSessions sessions].
  - apply findSession_updateSession. reflexivity.
  - rewrite findSession_addLog, findSession_updateSession by reflexivity.
    destruct (String.eqb sid' sid); [|reflexivity].
    rewrite option_map_compose. reflexivity.
Qed.

Lemma abort_afterLoop clk sid w :
  abortControllerRef (afterLoop clk sid w) = abortControllerRef w.
Proof.
  unfold afterLoop.
  destruct (abortControllerRef w) eqn:E;
    cbn [negb withSessions abortControllerRef]; exact E.
Qed.

Lemma findSession_loopHead clk sid sid' i dp ar w :
  findSession sid' (sessions (fst (loopHead clk sid i dp ar w))) =
  if String.eqb sid' sid
  then option_map (loopHeadOn clk i dp (abortControllerRef w))
         (findSession sid' (sessions w))
  else findSession sid' (sessions w).
Proof.
  unfold loopHead, loopHeadOn.
  destruct (Nat.ltb i (List.length dp)); cbn [fst].
  - destruct (abortControllerRef w) eqn:Ea; cbn [fst].
    + rewrite findSession_afterLoop, Ea. reflexivity.
    + cbn [withSessions sessions]. apply findSession_addLog.
  - apply findSession_afterLoop.
Qed.

Lemma abort_loopHead clk sid i dp ar w :
  abortControllerRef (fst (loopHead clk sid i dp ar w)) = abortControllerRef w.
Proof.
  unfold loopHead.
  destruct (Nat.ltb i (List.length dp)); cbn [fst].
  - destruct (abortControllerRef w) eqn:Ea; cbn [fst].
    + rewrite abort_afterLoop. exact Ea.
    + exact Ea.
  - apply abort_afterLoop.
Qed.

(** Where the loop head leaves the run. *)
Lemma pc_loopHead clk sid i dp ar w :
  snd (loopHead clk sid i dp ar w) =
  if Nat.ltb i (List.length dp) && negb (abortControllerRef w)
  then AwaitSynthesis i dp ar else Returned.
Proof.
  unfold loopHead.
  destruct (Nat.ltb i (List.length dp)), (abortControllerRef w); reflexivity.
Qed.

Lemma findSession_resumeExpansion clk run result sid' w :
  findSession sid' (sessions (fst (resumeExpansion clk run result w))) =
  if String.eqb sid' (sessionId run)
  then option_map
         (resumeExpansionOn clk run result (abortControllerRef w))
         (findSession sid' (sessions w))
  else findSession sid' (sessions w).
Proof.
  unfold resumeExpansion, resumeExpansionOn.
  destruct (expansionOrFallback run result) as [dp ar]; cbn [fst snd].
  assert (Hfb : forall ss,
    findSession sid' (logFallback clk run result ss) =
    if String.eqb sid' (sessionId run)
    then option_map (fallbackOn clk result) (findSession sid' ss)
    else findSession sid' ss).
  { intros ss. unfold logFallback, fallbackOn. destruct result.
    - destruct (String.eqb sid' (sessionId run)); [|reflexivity].
      symmetry. apply option_map_id.
    - apply findSession_addLog. }
  cbn [withSessions abortControllerRef].
  destruct (abortControllerRef w) eqn:Ea; cbn [fst sessions].
  - apply Hfb.
  - rewrite findSession_loopHead.
    cbn [withSessions sessions abortControllerRef]. rewrite Ea.
    unfold adoptPrompts, adoptOn.
    rewrite !findSession_addLog, findSession_updateSession by reflexivity.
    rewrite Hfb.
    destruct (String.eqb sid' (sessionId run)); [|reflexivity].
    rewrite !option_map_compose. reflexivity.
Qed.

Lemma abort_resumeExpansion clk run result w :
  abortControllerRef (fst (resumeExpansion clk run result w)) =
  abortControllerRef w.
Proof.
  unfold resumeExpansion.
  destruct (expansionOrFallback run result) as [dp ar].
  cbn [withSessions abortControllerRef].
  destruct (abortControllerRef w) eqn:Ea; cbn [fst abortControllerRef].
  - exact Ea.
  - rewrite abort_loopHead. cbn [withSessions abortControllerRef]. exact Ea.
Qed.

Lemma pc_resumeExpansion clk run result w :
  snd (resumeExpansion clk run result w) =
  if abortControllerRef w then Returned
  else
    if Nat.ltb 0 (List.length (fst (expansionOrFallback run result)))
    then AwaitSynthesis 0 (fst (expansionOrFallback run result))
           (snd (expansionOrFallback run result))
    else Returned.
Proof.
  unfold resumeExpansion.
  destruct (expansionOrFallback run result) as [dp ar]; cbn [fst snd].
  cbn [withSessions abortControllerRef].
  destruct (abortControllerRef w) eqn:Ea; cbn [snd].
  - reflexivity.
  - rewrite pc_loopHead. cbn [withSessions abortControllerRef]. rewrite Ea.
    rewrite andb_true_r. reflexivity.
Qed.

Lemma findSession_resumeSynthesis clk env run i dp ar sid' w :
  findSession sid' (sessions (fst (resumeSynthesis clk env run i dp ar w))) =
  if String.eqb sid' (sessionId run)
  then option_map
         (resumeSynthesisOn clk env run i dp ar (abortControllerRef w))
         (findSession sid' (sessions w))
  else findSession sid' (sessions w).
Proof.
  unfold resumeSynthesis, resumeSynthesisOn.
  rewrite findSession_loopHead. cbn [withSessions sessions abortControllerRef].
  unfold settleOn.
  destruct (synthesize env run (nth i dp "undefined") ar).
  - rewrite findSession_handleImageResult.
    destruct (String.eqb sid' (sessionId run)); [|reflexivity].
    rewrite option_map_compose. reflexivity.
  - rewrite findSession_addLog.
    destruct (String.eqb sid' (sessionId run)); [|reflexivity].
    rewrite option_map_compose. reflexivity.
Qed.

Lemma abort_resumeSynthesis clk env run i dp ar w :
  abortControllerRef (fst (resumeSynthesis clk env run i dp ar w)) =
  abortControllerRef w.
Proof. unfold resumeSynthesis. rewrite abort_loopHead. reflexivity. Qed.

Lemma pc_resumeSynthesis clk env run i dp ar w :
  snd (resumeSynthesis clk env run i dp ar w) =
  if Nat.ltb (i + 1) (List.length dp) && negb (abortControllerRef w)
  then AwaitSynthesis (i + 1) dp ar else Returned.
Proof. unfold resumeSynthesis. rewrite pc_loopHead. reflexivity. Qed.

Lemma findSession_startGeneration clk sid model sid' w :
  findSession sid' (sessions (fst (startGeneration clk sid model w))) =
  if String.eqb sid' sid
  then option_map (startOn clk) (findSession sid' (sessions w))
  else findSession sid' (sessions w).
Proof.
  unfold startGeneration.
  destruct (findSession sid (sessions w)) as [session|] eqn:E; cbn [fst sessions].
  - rewrite !findSession_addLog, findSession_updateSession by reflexivity.
    destruct (String.eqb sid' sid) eqn:Es; [|reflexivity].
    apply String.eqb_eq in Es. subst sid'. rewrite E. reflexivity.
  - destruct (String.eqb sid' sid) eqn:Es; [|reflexivity].
    apply String.eqb_eq in Es. subst sid'. rewrite E. reflexivity.
Qed.

(** ** One event, seen from one session *)

Lemma step_session clk e c c' sid :
  step clk e c = Some c' ->
  findSession sid (sessions (world c')) =
  match e with
  | Synthesize promptInput refImages genCount =>
      if String.eqb (show (now clk)) sid
      then Some (newSession clk promptInput refImages genCount)
      else findSession sid (sessions (world c))
  | _ => option_map (effect clk e c sid) (findSession sid (sessions (world c)))
  end.
Proof.
  destruct e as [p r g|sid0 model|sid0|sid0 result|sid0 env];
    cbn [step]; intros H.
  - destruct (existsb (Nat.eqb g) COUNT_OPTIONS); [|discriminate].
    destruct (findSession (show (now clk)) (sessions (world c))); [discriminate|].
    injection H as <-. reflexivity.
  - destruct (findRun sid0 (runs c)); [discriminate|].
    pose proof (findSession_startGeneration clk sid0 model sid (world c)) as L.
    destruct (startGeneration clk sid0 model (world c)) as [w [run|]];
      injection H as <-; cbn [world fst] in *; rewrite L;
      destruct (findSession sid (sessions (world c))) as [s|];
      cbn [option_map effect]; destruct (String.eqb sid sid0); reflexivity.
  - injection H as <-. cbn [world].
    rewrite findSession_stopGeneration.
    destruct (findSession sid (sessions (world c))) as [s|];
      cbn [option_map effect]; destruct (String.eqb sid sid0); reflexivity.
  - destruct (findRun sid0 (runs c)) as [run|] eqn:Er; [|discriminate].
    destruct (pc run); try discriminate.
    pose proof (findSession_resumeExpansion clk run result sid (world c)) as L.
    destruct (resumeExpansion clk run result (world c)) as [w p].
    injection H as <-. cbn [world fst] in *. rewrite L.
    rewrite (findRun_sessionId _ _ _ Er).
    destruct (findSession sid (sessions (world c))) as [s|];
      cbn [option_map effect]; destruct (String.eqb sid sid0);
      rewrite ?Er; reflexivity.
  - destruct (findRun sid0 (runs c)) as [run|] eqn:Er; [|discriminate].
    destruct (pc run) as [|i dp ar|] eqn:Ep; try discriminate.
    pose proof (findSession_resumeSynthesis clk env run i dp ar sid (world c))
      as L.
    destruct (resumeSynthesis clk env run i dp ar (world c)) as [w p].
    injection H as <-. cbn [world fst] in *. rewrite L.
    rewrite (findRun_sessionId _ _ _ Er).
    destruct (findSession sid (sessions (world c))) as [s|];
      cbn [option_map effect]; destruct (String.eqb sid sid0);
      rewrite ?Er, ?Ep; reflexivity.
Qed.

Lemma step_run clk e c c' sid :
  step clk e c = Some c' ->
  findRun sid (runs c') = nextRun clk e c sid.
Proof.
  destruct e as [p r g|sid0 model|sid0|sid0 result|sid0 env];
    cbn [step nextRun]; intros H.
  - destruct (existsb (Nat.eqb g) COUNT_OPTIONS); [|discriminate].
    destruct (findSession (show (now clk)) (sessions (world c))); [discriminate|].
    injection H as <-. reflexivity.
  - destruct (findRun sid0 (runs c)) eqn:Er; [discriminate|].
    unfold startGeneration in H.
    destruct (findSession sid0 (sessions (world c))) as [s|] eqn:Es;
      injection H as <-; cbn [runs findRun find sessionId].
    + rewrite (String.eqb_sym sid0 sid).
      destruct (String.eqb sid sid0); reflexivity.
    + destruct (String.eqb sid sid0) eqn:E; [|reflexivity].
      apply String.eqb_eq in E. subst. exact Er.
  - injection H as <-. reflexivity.
  - destruct (findRun sid0 (runs c)) as [run|] eqn:Er; [|discriminate].
    destruct (pc run); try discriminate.
    destruct (resumeExpansion clk run result (world c)) as [w p] eqn:Ew.
    injection H as <-. cbn [runs snd]. rewrite findRun_setPc.
    destruct (String.eqb sid sid0) eqn:E; [|reflexivity].
    apply String.eqb_eq in E. subst. rewrite Er. cbn [option_map].
    rewrite Ew. reflexivity.
  - destruct (findRun sid0 (runs c)) as [run|] eqn:Er; [|discriminate].
    destruct (pc run) as [|i dp ar|] eqn:Ep; try discriminate.
    destruct (resumeSynthesis clk env run i dp ar (world c)) as [w p] eqn:Ew.
    injection H as <-. cbn [runs snd]. rewrite findRun_setPc.
    destruct (String.eqb sid sid0) eqn:E; [|reflexivity].
    apply String.eqb_eq in E. subst. rewrite Er. cbn [option_map].
    rewrite Ep, Ew. reflexivity.
Qed.

Lemma step_abort clk e c c' :
  step clk e c = Some c' ->
  abortControllerRef (world c') =
  match e with
  | TimerFired sid _ =>
      match findSession sid (sessions (world c)) with
      | Some _ => false
      | None => abortControllerRef (world c)
      end
  | KillTask _ => true
  | _ => abortControllerRef (world c)
  end.
Proof.
  destruct e as [p r g|sid0 model|sid0|sid0 result|sid0 env];
    cbn [step]; intros H.
  - destruct (existsb (Nat.eqb g) COUNT_OPTIONS); [|discriminate].
    destruct (findSession (show (now clk)) (sessions (world c))); [discriminate|].
    injection H as <-. reflexivity.
  - destruct (findRun sid0 (runs c)); [discriminate|].
    unfold startGeneration in H.
    destruct (findSession sid0 (sessions (world c)));
      injection H as <-; reflexivity.
  - injection H as <-. reflexivity.
  - destruct (findRun sid0 (runs c)) as [run|]; [|discriminate].
    destruct (pc run); try discriminate.
    pose proof (abort_resumeExpansion clk run result (world c)) as L.
    destruct (resumeExpansion clk run result (world c)) as [w p].
    injection H as <-. exact L.
  - destruct (findRun sid0 (runs c)) as [run|]; [|discriminate].
    destruct (pc run) as [|i dp ar|]; try discriminate.
    pose proof (abort_resumeSynthesis clk env run i dp ar (world c)) as L.
    destruct (resumeSynthesis clk env run i dp ar (world c)) as [w p].
    injection H as <-. exact L.
Qed.

(** ** The invariant holds in every state that the application reaches *)

Ltac session_unfold :=
  unfold resumeSynthesisOn, resumeExpansionOn, loopHeadOn, afterLoopOn,
    settleOn, imageOn, adoptOn, fallbackOn, startOn, stopOn, appendLog in *.

Ltac session_cbn :=
  cbn [Session.id Session.name Session.basePrompt Session.referenceImages
       Session.generatedImages Session.generatedPrompts Session.createdAt
       Session.status Session.totalTarget Session.progress Session.logs
       Session.with_status Session.with_progress Session.with_logs
       Session.with_generatedPrompts Session.with_generatedImages
       negb andb fst snd pc session sessionId withPc] in *.

Lemma Inv_initial : Inv initial.
Proof. split; intros sid x H; discriminate H. Qed.

Lemma Good_stopOn clk s r : Good s r -> Good (stopOn clk s) r.
Proof.
  unfold Good. intros (HT & HF & HC & HL & HP).
  session_unfold; session_cbn.
  repeat split; try discriminate; auto.
  destruct r as [run|].
  - destruct HP as (HB & HN & HP). repeat split; auto.
    destruct (pc run); session_cbn; intuition discriminate.
  - intuition discriminate.
Qed.

Lemma length_snoc {A} (l : list A) (x : A) :
  List.length (l ++ [x]) = S (List.length l).
Proof. induction l as [|a l IH]; cbn [app List.length]; congruence. Qed.

Lemma Good_startOn clk s sid model :
  Good s None ->
  Good (startOn clk s)
    (Some {| sessionId := sid; session := s; activeModel := model;
             pc := AwaitExpansion |}).
Proof.
  unfold Good. intros (HT & HF & HC & HL & HI & HP & HZ & HS).
  session_unfold; session_cbn.
  repeat split; auto; discriminate.
Qed.

Lemma Good_resumeExpansion clk run result w s :
  Good s (Some run) ->
  pc run = AwaitExpansion ->
  Good (resumeExpansionOn clk run result (abortControllerRef w) s)
    (Some (withPc (snd (resumeExpansion clk run result w)) run)).
Proof.
  unfold Good. intros (HT & HF & HC & HL & HB & HN & HP) Hpc.
  rewrite Hpc in HP. destruct HP as (HI & HG & HR & HS).
  rewrite pc_resumeExpansion. unfold resumeExpansionOn.
  destruct (abortControllerRef w).
  - destruct result; session_unfold; session_cbn;
      repeat split; auto.
  - set (dp := fst (expansionOrFallback run result)).
    set (ar := snd (expansionOrFallback run result)).
    unfold loopHeadOn.
    destruct (Nat.ltb_spec 0 (List.length dp)) as [El|El].
    + destruct result; session_unfold; session_cbn; rewrite ?HI;
        cbn [List.length progressAfter];
        repeat split; auto; try lia; intros; contradiction.
    + destruct result; session_unfold; session_cbn; rewrite ?HI;
        cbn [List.length];
        repeat split; auto; try lia; discriminate.
Qed.

Lemma Good_resumeSynthesis clk env run i dp ar w s :
  Good s (Some run) ->
  pc run = AwaitSynthesis i dp ar ->
  Good (resumeSynthesisOn clk env run i dp ar (abortControllerRef w) s)
    (Some (withPc (snd (resumeSynthesis clk env run i dp ar w)) run)).
Proof.
  unfold Good. intros (HT & HF & HC & HL & HB & HN & HP) Hpc.
  rewrite Hpc in HP. destruct HP as (HG & Hi & HI & HR & HS).
  rewrite pc_resumeSynthesis. unfold resumeSynthesisOn, loopHeadOn.
  assert (Hfresh : forall x n,
    progressAfter (List.length (Session.generatedImages s ++ [x])) n =
    newProgress (List.length (Session.generatedImages s ++ [x])) n).
  { intros x n. rewrite length_snoc. reflexivity. }
  destruct (synthesize env run (nth i dp "undefined") ar) as [payload|message];
    destruct (Nat.ltb_spec (i + 1) (List.length dp)) as [El|El];
    destruct (abortControllerRef w);
    session_unfold; session_cbn; rewrite ?length_snoc, ?Hfresh;
    repeat split; auto; try lia; try discriminate;
    try (rewrite HG; lia);
    try (intros; contradiction);
    try (rewrite <- length_snoc with (x := imageFor clk (sessionId run) i
           (nth i dp "undefined") payload); rewrite Hfresh; auto).
Qed.

Lemma Inv_step clk e c c' : Inv c -> step clk e c = Some c' -> Inv c'.
Proof.
  intros [HG HR] Hstep. split.
  - intros sid s' Hs'.
    rewrite (step_run _ _ _ _ sid Hstep).
    rewrite (step_session _ _ _ _ sid Hstep) in Hs'.
    destruct e as [p r g|sid0 model|sid0|sid0 result|sid0 env];
      cbn [nextRun].
    + cbn [step] in Hstep.
      destruct (existsb (Nat.eqb g) COUNT_OPTIONS) eqn:Ex; [|discriminate].
      destruct (findSession (show (now clk)) (sessions (world c))) eqn:Ef;
        [discriminate|].
      destruct (String.eqb (show (now clk)) sid) eqn:E.
      * injection Hs' as <-. apply String.eqb_eq in E. subst sid.
        destruct (findRun (show (now clk)) (runs c)) as [run|] eqn:Er.
        { exfalso. exact (HR _ _ Er Ef). }
        apply existsb_exists in Ex. destruct Ex as (x & Hx & Hgx).
        apply Nat.eqb_eq in Hgx. subst x.
        unfold Good, newSession; session_cbn.
        repeat split; auto; try discriminate.
      * apply HG. exact Hs'.
    + destruct (findSession sid (sessions (world c))) as [s|] eqn:Es;
        [|discriminate].
      cbn [option_map effect] in Hs'. injection Hs' as <-.
      specialize (HG _ _ Es).
      destruct (String.eqb sid sid0) eqn:E; [|exact HG].
      apply String.eqb_eq in E. subst sid0. rewrite Es.
      cbn [step] in Hstep.
      destruct (findRun sid (runs c)); [discriminate|].
      apply Good_startOn. exact HG.
    + destruct (findSession sid (sessions (world c))) as [s|] eqn:Es;
        [|discriminate].
      cbn [option_map effect] in Hs'. injection Hs' as <-.
      specialize (HG _ _ Es).
      destruct (String.eqb sid sid0); [|exact HG].
      apply Good_stopOn. exact HG.
    + destruct (findSession sid (sessions (world c))) as [s|] eqn:Es;
        [|discriminate].
      cbn [option_map effect] in Hs'. injection Hs' as <-.
      specialize (HG _ _ Es).
      destruct (String.eqb sid sid0) eqn:E; [|exact HG].
      apply String.eqb_eq in E. subst sid0.
      cbn [step] in Hstep.
      destruct (findRun sid (runs c)) as [run|]; [|discriminate].
      destruct (pc run) eqn:Ep; try discriminate.
      cbn [option_map]. apply Good_resumeExpansion; assumption.
    + destruct (findSession sid (sessions (world c))) as [s|] eqn:Es;
        [|discriminate].
      cbn [option_map effect] in Hs'. injection Hs' as <-.
      specialize (HG _ _ Es).
      destruct (String.eqb sid sid0) eqn:E; [|exact HG].
      apply String.eqb_eq in E. subst sid0.
      cbn [step] in Hstep.
      destruct (findRun sid (runs c)) as [run|]; [|discriminate].
      destruct (pc run) as [|i dp ar|] eqn:Ep; try discriminate.
      cbn [option_map]. rewrite Ep. apply Good_resumeSynthesis; assumption.
  - intros sid r Hr.
    rewrite (step_run _ _ _ _ sid Hstep) in Hr.
    rewrite (step_session _ _ _ _ sid Hstep).
    assert (Hold : forall x, findRun sid (runs c) = Some x ->
              exists s, findSession sid (sessions (world c)) = Some s).
    { intros x Hx. specialize (HR _ _ Hx).
      destruct (findSession sid (sessions (world c))) as [s|];
        [exists s; reflexivity|contradiction]. }
    destruct e as [p r0 g|sid0 model|sid0|sid0 result|sid0 env];
      cbn [nextRun] in Hr.
    + destruct (String.eqb (show (now clk)) sid); [discriminate|].
      destruct (Hold _ Hr) as [s ->]. discriminate.
    + destruct (String.eqb sid sid0) eqn:E.
      * apply String.eqb_eq in E. subst sid0.
        destruct (findSession sid (sessions (world c))); discriminate.
      * destruct (Hold _ Hr) as [s ->]. discriminate.
    + destruct (Hold _ Hr) as [s ->]. discriminate.
    + destruct (findRun sid (runs c)) as [x|] eqn:Ex.
      * destruct (Hold _ eq_refl) as [s ->]. discriminate.
      * destruct (String.eqb sid sid0); discriminate.
    + destruct (findRun sid (runs c)) as [x|] eqn:Ex.
      * destruct (Hold _ eq_refl) as [s ->]. discriminate.
      * destruct (String.eqb sid sid0); discriminate.
Qed.

Lemma Inv_exec trace : forall c c', Inv c -> exec trace c = Some c' -> Inv c'.
Proof.
  induction trace as [|[clk e] rest IH]; cbn [exec]; intros c c' HI H.
  - injection H as <-. exact HI.
  - destruct (step clk e c) as [c1|] eqn:Es; [|discriminate].
    eapply IH; [|exact H]. eapply Inv_step; eassumption.
Qed.

Lemma Inv_reachable trace c : exec trace initial = Some c -> Inv c.
Proof. apply Inv_exec, Inv_initial. Qed.

(** ** C1: images and the adopted prompt list *)

(** C1: the bound fails on the code.  Asked for one image
    ([totalTarget] 1), the run whose expansion answered with three prompts
    has stored two images after two syntheses and awaits the third: the
    number of prompts that the expansion returns is never compared with
    [totalTarget]. *)
Theorem images_exceed_target :
  exec threeForOne initial = Some (stateAfter threeForOne) /\
  findSession "1" (sessions (world (stateAfter threeForOne)))
    = Some (sessionAfter threeForOne "1") /\
  Session.totalTarget (sessionAfter threeForOne "1") = 1 /\
  List.length (Session.generatedImages (sessionAfter threeForOne "1")) = 2 /\
  pc (runAfter threeForOne "1") = AwaitSynthesis 2 ["p1"; "p2"; "p3"] "16:9" /\
  ~ images_within_target.
Proof.
  split; [vm_compute; reflexivity|].
  split; [vm_compute; reflexivity|].
  split; [vm_compute; reflexivity|].
  split; [vm_compute; reflexivity|].
  split; [vm_compute; reflexivity|].
  intros H.
  specialize (H threeForOne (stateAfter threeForOne) "1"
                (sessionAfter threeForOne "1")).
  assert (H1 : exec threeForOne initial = Some (stateAfter threeForOne))
    by (vm_compute; reflexivity).
  assert (H2 : findSession "1" (sessions (world (stateAfter threeForOne))) =
               Some (sessionAfter threeForOne "1"))
    by (vm_compute; reflexivity).
  specialize (H H1 H2). vm_compute in H.
  specialize (H (le_n 1)). repeat apply le_S_n in H. inversion H.
Qed.

(** X27: what bounds the images on the code: in every state that the
    pipeline reaches, a session holds at most as many generated images as
    the prompt list that its run adopted ([generatedPrompts]) has prompts;
    while the run awaits the synthesis of item [i] of its list, the session
    holds at most [i] images and [i] is an index of that list; and until
    the expansion has settled the session holds none.  Hence at most
    [totalTarget] images whenever the adopted list has at most
    [totalTarget] prompts. *)
Theorem images_within_adopted_prompts trace c sid s :
  exec trace initial = Some c ->
  findSession sid (sessions (world c)) = Some s ->
  List.length (Session.generatedImages s)
    <= List.length (Session.generatedPrompts s) /\
  (List.length (Session.generatedPrompts s) <= Session.totalTarget s ->
   List.length (Session.generatedImages s) <= Session.totalTarget s) /\
  match findRun sid (runs c) with
  | Some run =>
      match pc run with
      | AwaitExpansion => Session.generatedImages s = []
      | AwaitSynthesis i diversePrompts _ =>
          Session.generatedPrompts s = diversePrompts /\
          List.length (Session.generatedImages s) <= i /\
          i < List.length diversePrompts
      | Returned => True
      end
  | None => Session.generatedImages s = []
  end.
Proof.
  intros Hexec Hs.
  destruct (Inv_reachable _ _ Hexec) as [HG _].
  specialize (HG _ _ Hs). destruct HG as (_ & _ & _ & HL & HP).
  split; [exact HL|]. split; [lia|].
  destruct (findRun sid (runs c)) as [run|].
  - destruct HP as (_ & _ & HP).
    destruct (pc run); [apply HP| |exact I].
    destruct HP as (HG & Hi & HI & _). auto.
  - apply HP.
Qed.

Lemma images_within_adopted_prompts_witness :
  List.length (Session.generatedImages (sessionAfter threeForOne "1"))
    <= List.length (Session.generatedPrompts (sessionAfter threeForOne "1")) /\
  (List.length (Session.generatedPrompts (sessionAfter threeForOne "1"))
     <= Session.totalTarget (sessionAfter threeForOne "1") ->
   List.length (Session.generatedImages (sessionAfter threeForOne "1"))
     <= Session.totalTarget (sessionAfter threeForOne "1")) /\
  match findRun "1" (runs (stateAfter threeForOne)) with
  | Some run =>
      match pc run with
      | AwaitExpansion =>
          Session.generatedImages (sessionAfter threeForOne "1") = []
      | AwaitSynthesis i diversePrompts _ =>
          Session.generatedPrompts (sessionAfter threeForOne "1")
            = diversePrompts /\
          List.length (Session.generatedImages (sessionAfter threeForOne "1"))
            <= i /\
          i < List.length diversePrompts
      | Returned => True
      end
  | None => Session.generatedImages (sessionAfter threeForOne "1") = []
  end.
Proof.
  apply (images_within_adopted_prompts threeForOne (stateAfter threeForOne)
           "1" (sessionAfter threeForOne "1")); vm_compute; reflexivity.
Defined.

(** ** C4: progress *)

Lemma COUNT_OPTIONS_pos n : In n COUNT_OPTIONS -> 0 < n.
Proof. cbn [COUNT_OPTIONS In]. intuition lia. Qed.

(** On the counts that the application offers, the binary64 evaluation of
    the progress formula is the integer formula (by evaluation of both). *)
Lemma newProgress_table :
  forallb
    (fun n =>
       forallb (fun k => Nat.eqb (newProgress k n) (15 + 85 * k / n))
         (seq 0 (S n)))
    COUNT_OPTIONS = true.
Proof. vm_compute. reflexivity. Qed.

Lemma newProgress_exact k n :
  In n COUNT_OPTIONS -> k <= n -> newProgress k n = 15 + 85 * k / n.
Proof.
  intros Hn Hk. pose proof newProgress_table as T.
  rewrite forallb_forall in T. specialize (T n Hn).
  rewrite forallb_forall in T.
  apply Nat.eqb_eq, T, in_seq. lia.
Qed.

Lemma progressAfter_exact k n :
  In n COUNT_OPTIONS -> k <= n -> progressAfter k n = 15 + 85 * k / n.
Proof.
  intros Hn Hk. destruct k as [|k]; cbn [progressAfter].
  - rewrite Nat.mul_0_r, Nat.Div0.div_0_l. reflexivity.
  - apply newProgress_exact; assumption.
Qed.

Lemma progressAfter_mono k k' n :
  In n COUNT_OPTIONS -> k <= k' -> k' <= n ->
  progressAfter k n <= progressAfter k' n.
Proof.
  intros Hn Hk Hk'.
  rewrite !progressAfter_exact by (assumption || lia).
  apply Nat.add_le_mono_l, Nat.Div0.div_le_mono. lia.
Qed.

Lemma progressAfter_le_100 k n :
  In n COUNT_OPTIONS -> k <= n -> progressAfter k n <= 100.
Proof.
  intros Hn Hk. rewrite progressAfter_exact by assumption.
  pose proof (COUNT_OPTIONS_pos _ Hn) as Hpos.
  assert (85 * k / n <= 85); [|lia].
  apply Nat.Div0.div_le_upper_bound. nia.
Qed.

Lemma progressAfter_ge_15 k n :
  In n COUNT_OPTIONS -> k <= n -> 15 <= progressAfter k n.
Proof. intros Hn Hk. rewrite progressAfter_exact by assumption. lia. Qed.

Lemma Good_bounded s r :
  Good s r ->
  List.length (Session.generatedPrompts s) <= Session.totalTarget s ->
  Session.progress s <= 100.
Proof.
  intros (HT & _ & _ & HL & HP) Hb.
  destruct r as [run|].
  - destruct HP as (_ & _ & HP). destruct (pc run).
    + destruct HP as (_ & _ & -> & _). lia.
    + destruct HP as (HG & Hi & HI & -> & _).
      apply progressAfter_le_100; [assumption|]. subst. lia.
    + destruct HP as [->|[[_ ->]| ->]]; try lia.
      apply progressAfter_le_100; [assumption|lia].
  - destruct HP as (_ & _ & -> & _). lia.
Qed.

Lemma progress_resumeExpansionOn clk run result abort s :
  Good s (Some run) ->
  pc run = AwaitExpansion ->
  Session.progress s
    <= Session.progress (resumeExpansionOn clk run result abort s).
Proof.
  intros (_ & _ & _ & _ & _ & _ & HP) Ep. rewrite Ep in HP.
  destruct HP as (_ & _ & HR & _).
  unfold resumeExpansionOn, loopHeadOn.
  destruct abort;
    [|destruct (Nat.ltb 0
         (List.length (fst (expansionOrFallback run result))))];
    destruct result; session_unfold; session_cbn; lia.
Qed.

Lemma progress_resumeSynthesisOn clk env run i dp ar abort s :
  Good s (Some run) ->
  pc run = AwaitSynthesis i dp ar ->
  List.length dp <= Session.totalTarget s ->
  Session.progress s
    <= Session.progress (resumeSynthesisOn clk env run i dp ar abort s).
Proof.
  intros (HT & _ & _ & _ & _ & _ & HP) Ep Hn. rewrite Ep in HP.
  destruct HP as (HGp & Hi & HI & HR & _).
  assert (H100 : Session.progress s <= 100).
  { rewrite HR. apply progressAfter_le_100; [assumption|lia]. }
  assert (Hnext : forall x,
    Session.progress s <=
    newProgress (List.length (Session.generatedImages s ++ [x]))
      (Session.totalTarget s)).
  { intros x. rewrite length_snoc, HR.
    apply (progressAfter_mono _ (S (List.length (Session.generatedImages s))));
      [assumption|lia|lia]. }
  unfold resumeSynthesisOn, loopHeadOn.
  destruct (synthesize env run (nth i dp "undefined") ar);
    destruct (Nat.ltb (i + 1) (List.length dp));
    destruct abort;
    unfold afterLoopOn, settleOn, imageOn, appendLog;
    cbn [negb Session.progress Session.with_progress Session.with_status
         Session.with_logs Session.with_generatedImages
         Session.generatedImages Session.totalTarget];
    auto.
Qed.

Lemma prompts_resumeSynthesisOn clk env run i dp ar abort s :
  Session.generatedPrompts (resumeSynthesisOn clk env run i dp ar abort s)
    = Session.generatedPrompts s /\
  Session.totalTarget (resumeSynthesisOn clk env run i dp ar abort s)
    = Session.totalTarget s.
Proof.
  unfold resumeSynthesisOn, loopHeadOn.
  destruct (synthesize env run (nth i dp "undefined") ar);
    destruct (Nat.ltb (i + 1) (List.length dp));
    destruct abort; split; reflexivity.
Qed.

Lemma progress_step clk e c c' sid s s' :
  Inv c ->
  step clk e c = Some c' ->
  findSession sid (sessions (world c)) = Some s ->
  findSession sid (sessions (world c')) = Some s' ->
  List.length (Session.generatedPrompts s') <= Session.totalTarget s' ->
  Session.progress s <= Session.progress s'.
Proof.
  intros [HG _] Hstep Hs Hs' Hb.
  rewrite (step_session _ _ _ _ sid Hstep), Hs in Hs'.
  specialize (HG _ _ Hs).
  destruct e as [p r g|sid0 model|sid0|sid0 result|sid0 env];
    cbn [step] in Hstep; cbn [option_map effect] in Hs'.
  - destruct (existsb (Nat.eqb g) COUNT_OPTIONS); [|discriminate].
    destruct (findSession (show (now clk)) (sessions (world c))) eqn:Ef;
      [discriminate|].
    destruct (String.eqb (show (now clk)) sid) eqn:E.
    + apply String.eqb_eq in E. subst sid. congruence.
    + injection Hs' as <-. apply le_n.
  - injection Hs' as <-.
    destruct (String.eqb sid sid0) eqn:E; [|apply le_n].
    apply String.eqb_eq in E. subst sid0.
    destruct (findRun sid (runs c)); [discriminate|].
    destruct HG as (_ & _ & _ & _ & _ & _ & HZ & _).
    rewrite HZ. apply Nat.le_0_l.
  - injection Hs' as <-.
    destruct (String.eqb sid sid0); apply le_n.
  - injection Hs' as <-.
    destruct (String.eqb sid sid0) eqn:E; [|apply le_n].
    apply String.eqb_eq in E. subst sid0.
    destruct (findRun sid (runs c)) as [run|]; [|discriminate].
    destruct (pc run) eqn:Ep; try discriminate.
    apply progress_resumeExpansionOn; assumption.
  - injection Hs' as <-.
    destruct (String.eqb sid sid0) eqn:E; [|apply le_n].
    apply String.eqb_eq in E. subst sid0.
    destruct (findRun sid (runs c)) as [run|]; [|discriminate].
    destruct (pc run) as [|i dp ar|] eqn:Ep; try discriminate.
    destruct (prompts_resumeSynthesisOn clk env run i dp ar
                (abortControllerRef (world c)) s) as [Ep1 Ep2].
    rewrite Ep1, Ep2 in Hb.
    apply progress_resumeSynthesisOn; try assumption.
    destruct HG as (_ & _ & _ & _ & _ & _ & HP). rewrite Ep in HP.
    destruct HP as (HGp & _). rewrite <- HGp. exact Hb.
Qed.

(** C4: the bounds of the progress fail on the code, by the defect of C1.
    Asked for one image and given three prompts, the progress is 100 after
    the first image, 185 after the second, and 100 again when the third
    synthesis has settled and the session is completed: above 100, and then
    decreasing. *)
Theorem progress_exceeds_100 :
  exec (threeForOne ++ [(clockAt 6, SynthesisSettled "1" envOk)]) initial
    = Some (stateAfter
              (threeForOne ++ [(clockAt 6, SynthesisSettled "1" envOk)])) /\
  Session.totalTarget (sessionAfter threeForOne "1") = 1 /\
  Session.progress (sessionAfter (firstn 4 threeForOne) "1") = 100 /\
  Session.status (sessionAfter (firstn 4 threeForOne) "1") = generating /\
  Session.progress (sessionAfter threeForOne "1") = 185 /\
  Session.progress
    (sessionAfter (threeForOne ++ [(clockAt 6, SynthesisSettled "1" envOk)])
       "1") = 100 /\
  Session.status
    (sessionAfter (threeForOne ++ [(clockAt 6, SynthesisSettled "1" envOk)])
       "1") = completed /\
  ~ progress_monotone_within_100.
Proof.
  do 7 (split; [vm_compute; reflexivity|]).
  intros H.
  specialize (H (firstn 4 threeForOne) (clockAt 5)
                (SynthesisSettled "1" envOk)
                (stateAfter (firstn 4 threeForOne)) (stateAfter threeForOne)
                "1" (sessionAfter (firstn 4 threeForOne) "1")
                (sessionAfter threeForOne "1")).
  assert (H1 : exec (firstn 4 threeForOne) initial =
               Some (stateAfter (firstn 4 threeForOne)))
    by (vm_compute; reflexivity).
  assert (H2 : step (clockAt 5) (SynthesisSettled "1" envOk)
                 (stateAfter (firstn 4 threeForOne)) =
               Some (stateAfter threeForOne))
    by (vm_compute; reflexivity).
  assert (H3 : findSession "1"
                 (sessions (world (stateAfter (firstn 4 threeForOne)))) =
               Some (sessionAfter (firstn 4 threeForOne) "1"))
    by (vm_compute; reflexivity).
  assert (H4 : findSession "1" (sessions (world (stateAfter threeForOne))) =
               Some (sessionAfter threeForOne "1"))
    by (vm_compute; reflexivity).
  specialize (H H1 H2 H3 H4). vm_compute in H.
  destruct H as [_ H]. repeat apply le_S_n in H. inversion H.
Qed.

(** X28: the progress by the place where the run stands, after every
    event of the pipeline: 0 for a session that was never started; 5 while
    its run awaits the expansion; while the run awaits a synthesis, 15 if
    the session holds no image and otherwise
    [15 + floor((images / totalTarget) * 85)] (in binary64) for the number
    of images that it holds; when the run has returned, 100, or 5 with no
    image (the expansion was cancelled), or the value by the number of
    images (the loop was cancelled).  Whenever the status is completed the
    progress is 100.  And when the adopted prompt list has at most
    [totalTarget] prompts, the event has not decreased the progress, the
    progress is at most 100, and the binary64 formula is the integer
    [15 + 85 * images / totalTarget] rounded down. *)
Theorem progress_accounting trace clk e c c' sid s s' :
  exec trace initial = Some c ->
  step clk e c = Some c' ->
  findSession sid (sessions (world c)) = Some s ->
  findSession sid (sessions (world c')) = Some s' ->
  progress_facts c' sid s s'.
Proof.
  intros Hexec Hstep Hs Hs'.
  pose proof (Inv_reachable _ _ Hexec) as HI.
  pose proof (Inv_step _ _ _ _ HI Hstep) as HI'.
  pose proof (proj1 HI' _ _ Hs') as HG'.
  unfold progress_facts. split; [|split].
  - destruct HG' as (_ & _ & _ & _ & HP).
    destruct (findRun sid (runs c')) as [run|].
    + destruct HP as (_ & _ & HP). destruct (pc run).
      * apply HP.
      * destruct HP as (_ & _ & _ & HR & _). exact HR.
      * exact HP.
    + apply HP.
  - apply HG'.
  - intros Hb. split; [|split].
    + exact (progress_step _ _ _ _ _ _ _ HI Hstep Hs Hs' Hb).
    + exact (Good_bounded _ _ HG' Hb).
    + destruct HG' as (HT & _ & _ & HL & _).
      apply newProgress_exact; [assumption|lia].
Qed.

Lemma progress_accounting_witness :
  progress_facts (stateAfter (twoForTwo ++ [(clockAt 4, SynthesisSettled "1" envOk)]))
    "1" (sessionAfter twoForTwo "1")
    (sessionAfter (twoForTwo ++ [(clockAt 4, SynthesisSettled "1" envOk)]) "1").
Proof.
  apply (progress_accounting twoForTwo (clockAt 4)
           (SynthesisSettled "1" envOk) (stateAfter twoForTwo));
    vm_compute; reflexivity.
Defined.

(** ** C10: the log *)

Lemma Extends_refl clk s : Extends clk s s.
Proof. exists []. split; [symmetry; apply app_nil_r|constructor]. Qed.

Lemma Extends_appendLog clk message s x :
  Extends clk s x -> Extends clk s (appendLog clk message x).
Proof.
  intros (suffix & E & H). exists (suffix ++ [logLine clk message])%list.
  split.
  - unfold appendLog; cbn [Session.logs Session.with_logs].
    rewrite E. symmetry. apply app_assoc.
  - apply Forall_app. split; [exact H|].
    constructor; [exists message; reflexivity|constructor].
Qed.

Lemma Extends_same_logs clk s x y :
  Session.logs y = Session.logs x -> Extends clk s x -> Extends clk s y.
Proof. intros E (suffix & E' & H). exists suffix. rewrite E. auto. Qed.

Lemma Extends_with_status clk v s x :
  Extends clk s x -> Extends clk s (Session.with_status v x).
Proof. apply Extends_same_logs. reflexivity. Qed.

Lemma Extends_with_progress clk v s x :
  Extends clk s x -> Extends clk s (Session.with_progress v x).
Proof. apply Extends_same_logs. reflexivity. Qed.

Lemma Extends_with_generatedPrompts clk v s x :
  Extends clk s x -> Extends clk s (Session.with_generatedPrompts v x).
Proof. apply Extends_same_logs. reflexivity. Qed.

Lemma Extends_with_generatedImages clk v s x :
  Extends clk s x -> Extends clk s (Session.with_generatedImages v x).
Proof. apply Extends_same_logs. reflexivity. Qed.

Ltac extends :=
  repeat first
    [ apply Extends_refl
    | apply Extends_appendLog
    | apply Extends_with_status
    | apply Extends_with_progress
    | apply Extends_with_generatedPrompts
    | apply Extends_with_generatedImages
    | assumption ].

Lemma Extends_afterLoopOn clk abort s x :
  Extends clk s x -> Extends clk s (afterLoopOn clk abort x).
Proof.
  intros H. unfold afterLoopOn. destruct abort; cbn [negb]; extends.
Qed.

Lemma Extends_loopHeadOn clk i dp abort s x :
  Extends clk s x -> Extends clk s (loopHeadOn clk i dp abort x).
Proof.
  intros H. unfold loopHeadOn.
  destruct (Nat.ltb i (List.length dp)); [destruct abort|];
    auto using Extends_afterLoopOn, Extends_appendLog.
Qed.

Lemma Extends_effect clk e c sid s :
  (forall model, e <> TimerFired sid model) ->
  Extends clk s (effect clk e c sid s).
Proof.
  intros Hne.
  destruct e as [p r g|sid0 model|sid0|sid0 result|sid0 env]; cbn [effect].
  - apply Extends_refl.
  - destruct (String.eqb sid sid0) eqn:E; [|apply Extends_refl].
    apply String.eqb_eq in E. subst. exfalso. apply (Hne model). reflexivity.
  - destruct (String.eqb sid sid0); [|apply Extends_refl].
    unfold stopOn. extends.
  - destruct (String.eqb sid sid0); [|apply Extends_refl].
    destruct (findRun sid0 (runs c)) as [run|]; [|apply Extends_refl].
    unfold resumeExpansionOn.
    assert (Hf : Extends clk s (fallbackOn clk result s)).
    { unfold fallbackOn. destruct result; extends. }
    destruct (abortControllerRef (world c)); [exact Hf|].
    apply Extends_loopHeadOn. unfold adoptOn. extends.
  - destruct (String.eqb sid sid0); [|apply Extends_refl].
    destruct (findRun sid0 (runs c)) as [run|]; [|apply Extends_refl].
    destruct (pc run) as [|i dp ar|]; try apply Extends_refl.
    unfold resumeSynthesisOn. apply Extends_loopHeadOn.
    unfold settleOn.
    destruct (synthesize env run (nth i dp "undefined") ar).
    + unfold imageOn. extends.
    + extends.
Qed.

(** C10 as stated does not hold: the start command drops the entry that
    [createSession] wrote. *)
Lemma start_clears_log : ~ logs_append_only.
Proof.
  intros H.
  specialize (H (firstn 1 twoForTwo) (clockAt 2) (TimerFired "1" DEFAULT_MODEL)
                (stateAfter (firstn 1 twoForTwo))
                (stateAfter (firstn 2 twoForTwo)) "1"
                (sessionAfter (firstn 1 twoForTwo) "1")
                (sessionAfter (firstn 2 twoForTwo) "1")).
  assert (H1 : exec (firstn 1 twoForTwo) initial =
               Some (stateAfter (firstn 1 twoForTwo)))
    by (vm_compute; reflexivity).
  assert (H2 : step (clockAt 2) (TimerFired "1" DEFAULT_MODEL)
                 (stateAfter (firstn 1 twoForTwo)) =
               Some (stateAfter (firstn 2 twoForTwo)))
    by (vm_compute; reflexivity).
  assert (H3 : findSession "1"
                 (sessions (world (stateAfter (firstn 1 twoForTwo)))) =
               Some (sessionAfter (firstn 1 twoForTwo) "1"))
    by (vm_compute; reflexivity).
  assert (H4 : findSession "1"
                 (sessions (world (stateAfter (firstn 2 twoForTwo)))) =
               Some (sessionAfter (firstn 2 twoForTwo) "1"))
    by (vm_compute; reflexivity).
  destruct (H H1 H2 H3 H4) as [suffix E].
  vm_compute in E. discriminate E.
Qed.

(** C10, amended: the start command replaces the log of its session by
    the two entries of the start; every other event of the pipeline
    (creation of another session, expansion settled, synthesis settled,
    cancellation, completion) leaves the log of every session as it was or
    appends entries stamped with the time to it. *)
Theorem logs_append_only_after_start clk e c c' sid s s' :
  step clk e c = Some c' ->
  findSession sid (sessions (world c)) = Some s ->
  findSession sid (sessions (world c')) = Some s' ->
  if startsRun sid e then Session.logs s' = startLog clk s
  else Extends clk s s'.
Proof.
  intros Hstep Hs Hs'.
  rewrite (step_session _ _ _ _ sid Hstep), Hs in Hs'.
  destruct (startsRun sid e) eqn:Est.
  - destruct e; try discriminate Est. cbn [startsRun] in Est.
    cbn [option_map effect] in Hs'. rewrite Est in Hs'.
    injection Hs' as <-. reflexivity.
  - assert (Hne : forall model, e <> TimerFired sid model).
    { intros model ->. cbn [startsRun] in Est.
      rewrite String.eqb_refl in Est. discriminate. }
    destruct e as [p r g|sid0 model|sid0|sid0 result|sid0 env];
      try (pose proof (Extends_effect clk _ c sid s Hne) as HE;
           cbn [option_map] in Hs'; injection Hs' as <-; exact HE).
    cbn [step] in Hstep.
    destruct (existsb (Nat.eqb g) COUNT_OPTIONS); [|discriminate].
    destruct (findSession (show (now clk)) (sessions (world c))) eqn:Ef;
      [discriminate|].
    destruct (String.eqb (show (now clk)) sid) eqn:E.
    + apply String.eqb_eq in E. subst sid. congruence.
    + injection Hs' as <-. apply Extends_refl.
Qed.

Lemma logs_append_only_after_start_witness :
  Extends (clockAt 4) (sessionAfter twoForTwo "1")
    (sessionAfter (twoForTwo ++ [(clockAt 4, KillTask "1")]) "1").
Proof.
  apply (logs_append_only_after_start (clockAt 4) (KillTask "1")
           (stateAfter twoForTwo)
           (stateAfter (twoForTwo ++ [(clockAt 4, KillTask "1")])) "1");
    vm_compute; reflexivity.
Defined.

(** ** C2: a synthesis that fails *)

(** C2: when the synthesis of item [i + 1] (counted from 1) fails with
    [message], the error is logged with that index and message, in the
    entry "[time] Error generating image (i + 1): message", the images
    of the session are unchanged (no entry, no gap), the status does not
    become failed, and, unless cancellation has been requested, the run goes
    on to await item [i + 2] if there is one and otherwise ends with the
    session completed at progress 100, whatever the number of images. *)
Theorem synthesis_failure_is_skipped clk env c c' sid run i dp ar s message :
  findRun sid (runs c) = Some run ->
  pc run = AwaitSynthesis i dp ar ->
  findSession sid (sessions (world c)) = Some s ->
  synthesize env run (nth i dp "undefined") ar = Rejected message ->
  step clk (SynthesisSettled sid env) c = Some c' ->
  failure_skipped clk c c' sid i dp ar s message.
Proof.
  intros Hr Hp Hs Hsyn Hstep. unfold failure_skipped.
  exists (resumeSynthesisOn clk env run i dp ar
            (abortControllerRef (world c)) s),
         (withPc (snd (resumeSynthesis clk env run i dp ar (world c))) run).
  split.
  { rewrite (step_session _ _ _ _ sid Hstep), Hs.
    cbn [option_map effect]. rewrite String.eqb_refl, Hr, Hp. reflexivity. }
  split.
  { rewrite (step_run _ _ _ _ sid Hstep).
    cbn [nextRun]. rewrite String.eqb_refl, Hr. cbn [option_map].
    rewrite Hp. reflexivity. }
  cbn [pc withPc]. rewrite pc_resumeSynthesis.
  unfold resumeSynthesisOn. rewrite Hsyn. unfold settleOn, loopHeadOn.
  destruct (Nat.ltb_spec (i + 1) (List.length dp)) as [Hlt|Hge];
    destruct (abortControllerRef (world c));
    unfold afterLoopOn, appendLog;
    cbn [negb andb Session.generatedImages Session.logs Session.status
         Session.progress Session.with_logs Session.with_status
         Session.with_progress];
    (split; [reflexivity|]);
    (split; [eexists; rewrite <- ?app_assoc; reflexivity|]);
    (split; [try (intros _; discriminate); auto|]);
    intros Ha; try discriminate Ha;
    (split; [intros H|intros H]; try lia; auto).
Qed.

Lemma synthesis_failure_is_skipped_witness :
  failure_skipped (clockAt 4) (stateAfter twoForTwo)
    (stateAfter (twoForTwo ++ [(clockAt 4, SynthesisSettled "1" envDown)]))
    "1" 0 ["p1"; "p2"] "16:9" (sessionAfter twoForTwo "1") "503".
Proof.
  apply (synthesis_failure_is_skipped (clockAt 4) envDown
           (stateAfter twoForTwo)
           (stateAfter (twoForTwo ++ [(clockAt 4, SynthesisSettled "1" envDown)]))
           "1" (runAfter twoForTwo "1"));
    vm_compute; reflexivity.
Defined.

(** ** A synthesis that succeeds *)

(** X29: when the synthesis of item [i] (0-based) succeeds with a payload,
    one image is added at the end of the images of the session: its url is
    the payload, its prompt is the prompt of item [i], its id is
    session_time_i and it has no tag.  The progress becomes
    [15 + floor((images / totalTarget) * 85)] (in binary64) for the new
    number of images, unless the loop is thereby exhausted without
    cancellation: then it is 100. *)
Theorem synthesis_success_is_stored clk env c c' sid run i dp ar s payload :
  findRun sid (runs c) = Some run ->
  pc run = AwaitSynthesis i dp ar ->
  findSession sid (sessions (world c)) = Some s ->
  synthesize env run (nth i dp "undefined") ar = Resolved payload ->
  step clk (SynthesisSettled sid env) c = Some c' ->
  exists s',
    findSession sid (sessions (world c')) = Some s' /\
    Session.generatedImages s' =
      (Session.generatedImages s
       ++ [ {| GeneratedImage.id :=
                 sid ++ "_" ++ show (now clk) ++ "_" ++ show i;
               GeneratedImage.url := payload;
               GeneratedImage.prompt := nth i dp "undefined";
               GeneratedImage.timestamp := now clk;
               GeneratedImage.tags := [] |} ])%list /\
    Session.progress s' =
      (if Nat.ltb (i + 1) (List.length dp) || abortControllerRef (world c)
       then newProgress (S (List.length (Session.generatedImages s)))
              (Session.totalTarget s)
       else 100).
Proof.
  intros Hr Hp Hs Hsyn Hstep.
  pose proof (findRun_sessionId _ _ _ Hr) as Hid.
  exists (resumeSynthesisOn clk env run i dp ar
            (abortControllerRef (world c)) s).
  split.
  { rewrite (step_session _ _ _ _ sid Hstep), Hs.
    cbn [option_map effect]. rewrite String.eqb_refl, Hr, Hp. reflexivity. }
  unfold resumeSynthesisOn. rewrite Hsyn, Hid.
  unfold settleOn, loopHeadOn, imageOn, imageFor.
  destruct (Nat.ltb (i + 1) (List.length dp));
    destruct (abortControllerRef (world c));
    unfold afterLoopOn, appendLog;
    cbn [negb orb Session.generatedImages Session.progress
         Session.totalTarget Session.with_logs Session.with_status
         Session.with_progress Session.with_generatedImages];
    rewrite ?length_app; cbn [List.length]; rewrite ?Nat.add_1_r;
    split; reflexivity.
Qed.

Lemma synthesis_success_is_stored_witness :
  exists s',
    findSession "1"
      (sessions
         (world
            (stateAfter
               (twoForTwo ++ [(clockAt 4, SynthesisSettled "1" envOk)]))))
    = Some s' /\
    Session.generatedImages s' =
      (Session.generatedImages (sessionAfter twoForTwo "1")
       ++ [ {| GeneratedImage.id := "1" ++ "_" ++ show 4 ++ "_" ++ show 0;
               GeneratedImage.url := "data:image/png;base64,AAAA";
               GeneratedImage.prompt := nth 0 ["p1"; "p2"] "undefined";
               GeneratedImage.timestamp := 4;
               GeneratedImage.tags := [] |} ])%list /\
    Session.progress s' =
      (if Nat.ltb (0 + 1) (List.length ["p1"; "p2"])
          || abortControllerRef (world (stateAfter twoForTwo))
       then newProgress
              (S (List.length
                    (Session.generatedImages (sessionAfter twoForTwo "1"))))
              (Session.totalTarget (sessionAfter twoForTwo "1"))
       else 100).
Proof.
  apply (synthesis_success_is_stored (clockAt 4) envOk
           (stateAfter twoForTwo)
           (stateAfter (twoForTwo ++ [(clockAt 4, SynthesisSettled "1" envOk)]))
           "1" (runAfter twoForTwo "1") 0 ["p1"; "p2"] "16:9"
           (sessionAfter twoForTwo "1") "data:image/png;base64,AAAA");
    vm_compute; reflexivity.
Defined.

(** ** C3: an expansion that fails *)

(** C3 as stated does not hold: when the session has been cancelled while
    its expansion was in flight and the expansion then fails, the run
    returns at the checkpoint that follows the expansion: no prompt list is
    adopted and no item is started. *)
Lemma cancelled_expansion_does_not_continue : ~ fallback_always_continues.
Proof.
  intros H.
  assert (H1 : exec stoppedWhileExpanding initial
               = Some (stateAfter stoppedWhileExpanding))
    by (vm_compute; reflexivity).
  assert (H2 : findRun "1" (runs (stateAfter stoppedWhileExpanding))
               = Some (runAfter stoppedWhileExpanding "1"))
    by (vm_compute; reflexivity).
  assert (H3 : findSession "1"
                 (sessions (world (stateAfter stoppedWhileExpanding)))
               = Some (sessionAfter stoppedWhileExpanding "1"))
    by (vm_compute; reflexivity).
  assert (H4 : step (clockAt 4) (ExpansionSettled "1" (Rejected "quota"))
                 (stateAfter stoppedWhileExpanding)
               = Some (stateAfter
                         (stoppedWhileExpanding
                          ++ [(clockAt 4,
                               ExpansionSettled "1" (Rejected "quota"))])))
    by (vm_compute; reflexivity).
  destruct (H _ _ _ _ _ _ _ _ H1 H2 H3 H4) as (s' & run' & Hs & Hr & _ & Hp).
  vm_compute in Hr. injection Hr as <-. vm_compute in Hp. discriminate Hp.
Qed.

(** C3, amended: when the expansion fails with [message], the prompts that
    the run goes on with are [totalTarget] copies of the base prompt of the
    session and the aspect ratio is 16:9; the fallback is logged with
    [message], in the entry "[time] Warning: Prompt expansion failed:
    message. Using original prompt as fallback."; the status does not
    become failed and no image is added.  When the cancellation flag is
    clear at that moment, the session adopts that list and the run awaits
    the synthesis of its first item; when the flag is set, the run returns
    at the checkpoint and the session keeps its prompt list and its
    status. *)
Theorem expansion_failure_falls_back trace clk c c' sid run s message :
  exec trace initial = Some c ->
  findRun sid (runs c) = Some run ->
  findSession sid (sessions (world c)) = Some s ->
  step clk (ExpansionSettled sid (Rejected message)) c = Some c' ->
  fell_back clk c c' sid run s message.
Proof.
  intros Hexec Hr Hs Hstep.
  destruct (Inv_reachable _ _ Hexec) as [HG _].
  specialize (HG _ _ Hs). rewrite Hr in HG.
  destruct HG as (HT & HF & _ & _ & HB & HN & _).
  pose proof (COUNT_OPTIONS_pos _ HT) as Hpos.
  assert (Hp : pc run = AwaitExpansion).
  { cbn [step] in Hstep. rewrite Hr in Hstep.
    destruct (pc run); try discriminate. reflexivity. }
  unfold fell_back.
  assert (Hfb : expansionOrFallback run (Rejected message) =
                (repeat (Session.basePrompt s) (Session.totalTarget s), "16:9")).
  { unfold expansionOrFallback. rewrite HB, HN. reflexivity. }
  split; [exact Hfb|].
  exists (resumeExpansionOn clk run (Rejected message)
            (abortControllerRef (world c)) s),
         (withPc (snd (resumeExpansion clk run (Rejected message) (world c)))
            run).
  split.
  { rewrite (step_session _ _ _ _ sid Hstep), Hs.
    cbn [option_map effect]. rewrite String.eqb_refl, Hr. reflexivity. }
  split.
  { rewrite (step_run _ _ _ _ sid Hstep).
    cbn [nextRun]. rewrite String.eqb_refl, Hr. reflexivity. }
  cbn [pc withPc]. rewrite pc_resumeExpansion.
  unfold resumeExpansionOn. rewrite Hfb. cbn [fst snd].
  unfold loopHeadOn. rewrite repeat_length.
  destruct (Nat.ltb_spec 0 (Session.totalTarget s)) as [_|Hz]; [|lia].
  destruct (abortControllerRef (world c));
    unfold fallbackOn, adoptOn, appendLog;
    cbn [negb Session.generatedPrompts Session.generatedImages Session.logs
         Session.status Session.with_logs Session.with_status
         Session.with_progress Session.with_generatedPrompts];
    (split; [eexists; rewrite <- ?app_assoc; reflexivity|]);
    (split; [exact HF|]);
    (split; [reflexivity|]);
    (split; intros Ha; try discriminate Ha);
    rewrite ?repeat_length; auto.
Qed.

Lemma expansion_failure_falls_back_witness :
  fell_back (clockAt 3) (stateAfter (firstn 2 twoForTwo))
    (stateAfter
       (firstn 2 twoForTwo
        ++ [(clockAt 3, ExpansionSettled "1" (Rejected "quota"))]))
    "1" (runAfter (firstn 2 twoForTwo) "1")
    (sessionAfter (firstn 2 twoForTwo) "1") "quota".
Proof.
  apply (expansion_failure_falls_back (firstn 2 twoForTwo) (clockAt 3));
    vm_compute; reflexivity.
Defined.

(** ** C5 and C6: one cancellation flag for all runs *)

(** X9: the part of the separation of runs that holds: an event about
    one session changes neither the record nor the run of any other
    session. *)
Lemma other_sessions_untouched clk e c c' sid :
  step clk e c = Some c' ->
  eventSession clk e <> sid ->
  findSession sid (sessions (world c')) = findSession sid (sessions (world c))
  /\ findRun sid (runs c') = findRun sid (runs c).
Proof.
  intros Hstep Hne.
  rewrite (step_session _ _ _ _ sid Hstep), (step_run _ _ _ _ sid Hstep).
  assert (Hs : forall x, String.eqb sid x = true -> eventSession clk e <> x).
  { intros x E. apply String.eqb_eq in E. congruence. }
  destruct e as [p r g|sid0 model|sid0|sid0 result|sid0 env];
    cbn [eventSession nextRun] in *.
  - apply String.eqb_neq in Hne. rewrite Hne. auto.
  - destruct (String.eqb sid sid0) eqn:E;
      [exfalso; apply (Hs _ E); reflexivity|].
    split; [|reflexivity].
    destruct (findSession sid (sessions (world c))); [|reflexivity].
    cbn [option_map effect]. rewrite E. reflexivity.
  - split; [|reflexivity].
    destruct (String.eqb sid sid0) eqn:E;
      [exfalso; apply (Hs _ E); reflexivity|].
    destruct (findSession sid (sessions (world c))); [|reflexivity].
    cbn [option_map effect]. rewrite E. reflexivity.
  - destruct (String.eqb sid sid0) eqn:E;
      [exfalso; apply (Hs _ E); reflexivity|].
    split; [|reflexivity].
    destruct (findSession sid (sessions (world c))); [|reflexivity].
    cbn [option_map effect]. rewrite E. reflexivity.
  - destruct (String.eqb sid sid0) eqn:E;
      [exfalso; apply (Hs _ E); reflexivity|].
    split; [|reflexivity].
    destruct (findSession sid (sessions (world c))); [|reflexivity].
    cbn [option_map effect]. rewrite E. reflexivity.
Qed.

(** X10: cancellation as designed, with no start command of another run
    in between: after [stopGeneration], the settlement of the synthesis in
    flight ends the run, leaves the session stopped, and adds at most the
    one image of that synthesis. *)
Lemma stop_then_settle clk0 clk env c c1 c2 sid run i dp ar s :
  findRun sid (runs c) = Some run ->
  pc run = AwaitSynthesis i dp ar ->
  findSession sid (sessions (world c)) = Some s ->
  step clk0 (KillTask sid) c = Some c1 ->
  step clk (SynthesisSettled sid env) c1 = Some c2 ->
  exists s2 run2,
    findSession sid (sessions (world c2)) = Some s2 /\
    findRun sid (runs c2) = Some run2 /\
    pc run2 = Returned /\
    Session.status s2 = stopped /\
    (Session.generatedImages s2 = Session.generatedImages s \/
     exists image,
       Session.generatedImages s2
       = (Session.generatedImages s ++ [image])%list).
Proof.
  intros Hr Hp Hs H1 H2.
  pose proof (step_session _ _ _ _ sid H1) as Es1.
  pose proof (step_run _ _ _ _ sid H1) as Er1.
  pose proof (step_abort _ _ _ _ H1) as Ea1.
  rewrite Hs in Es1. cbn [option_map effect nextRun] in Es1, Er1, Ea1.
  rewrite String.eqb_refl in Es1. rewrite Hr in Er1.
  exists (resumeSynthesisOn clk env run i dp ar true (stopOn clk0 s)),
         (withPc (snd (resumeSynthesis clk env run i dp ar (world c1))) run).
  split.
  { rewrite (step_session _ _ _ _ sid H2), Es1.
    cbn [option_map effect]. rewrite String.eqb_refl, Er1, Hp, Ea1.
    reflexivity. }
  split.
  { rewrite (step_run _ _ _ _ sid H2).
    cbn [nextRun]. rewrite String.eqb_refl, Er1. cbn [option_map].
    rewrite Hp. reflexivity. }
  cbn [pc withPc]. rewrite pc_resumeSynthesis, Ea1.
  rewrite andb_false_r. split; [reflexivity|].
  unfold resumeSynthesisOn, loopHeadOn, settleOn.
  destruct (synthesize env run (nth i dp "undefined") ar);
    destruct (Nat.ltb (i + 1) (List.length dp));
    unfold afterLoopOn, imageOn, stopOn, appendLog;
    cbn [negb Session.status Session.generatedImages Session.with_status
         Session.with_logs Session.with_progress
         Session.with_generatedImages];
    (split; [reflexivity|]); eauto.
Qed.

(** C5 fails on the code: session 1 is cancelled while its first synthesis
    is in flight, and the start of session 5 clears the one flag before that
    synthesis settles.  The run of session 1 then starts its second item,
    stores two images after the stop request, and ends completed. *)
Theorem cancel_undone_by_other_start :
  exec cancelThenOtherStart initial = Some (stateAfter cancelThenOtherStart) /\
  Session.status (sessionAfter (firstn 4 cancelThenOtherStart) "1") = stopped /\
  pc (runAfter (firstn 7 cancelThenOtherStart) "1")
    = AwaitSynthesis 1 ["p1"; "p2"] "16:9" /\
  pc (runAfter cancelThenOtherStart "1") = Returned /\
  Session.status (sessionAfter cancelThenOtherStart "1") = completed /\
  List.length (Session.generatedImages (sessionAfter cancelThenOtherStart "1"))
    = 2.
Proof. vm_compute. repeat split; reflexivity. Qed.

(** C6 fails on the code: with sessions 1 and 3 both running, cancelling
    session 1 makes the run of session 3 stop at its next checkpoint, and
    marks session 3 stopped; without that cancellation the same run goes on
    to its second item. *)
Theorem stop_of_one_session_stops_another :
  let settle := (clockAt 8, SynthesisSettled "3" envOk) in
  let cancelled := (twoSessions ++ [(clockAt 7, KillTask "1"); settle])%list in
  let undisturbed := (twoSessions ++ [settle])%list in
  exec cancelled initial = Some (stateAfter cancelled) /\
  exec undisturbed initial = Some (stateAfter undisturbed) /\
  pc (runAfter cancelled "3") = Returned /\
  Session.status (sessionAfter cancelled "3") = stopped /\
  pc (runAfter undisturbed "3") = AwaitSynthesis 1 ["q1"; "q2"] "1:1" /\
  Session.status (sessionAfter undisturbed "3") = generating.
Proof. vm_compute. repeat split; reflexivity. Qed.

(** ** C8 and C9: the OpenAI-compatible synthesizer *)

(** C8: for a model of the compatible type whose endpoint or API key is
    missing ([undefined], or the empty string that the settings form
    leaves), the synthesizer throws the configuration error and has called
    [fetch] zero times; the orchestrator's call of the synthesizer for that
    model fails with this error whatever the network would answer. *)
Theorem missing_credentials_no_request env run prompt aspectRatio :
  ModelConfig.type (activeModel run) = OPENAI_COMPATIBLE ->
  truthy (ModelConfig.endpoint (activeModel run)) = false \/
  truthy (ModelConfig.apiKey (activeModel run)) = false ->
  Api.generateImageCustom (activeModel run) prompt aspectRatio (fetch env) =
    ([], Rejected "Missing endpoint or API key for custom model") /\
  synthesize env run prompt aspectRatio =
    Rejected "Missing endpoint or API key for custom model".
Proof.
  intros Ht H.
  assert (E : Api.generateImageCustom (activeModel run) prompt aspectRatio
                (fetch env) =
              ([], Rejected "Missing endpoint or API key for custom model")).
  { unfold Api.generateImageCustom.
    destruct H as [-> | ->]; cbn [negb orb]; [reflexivity|].
    rewrite orb_true_r. reflexivity. }
  split; [exact E|].
  unfold synthesize. rewrite Ht, E. reflexivity.
Qed.

Lemma missing_credentials_no_request_witness :
  Api.generateImageCustom (activeModel runWithoutKey) "a cat" "16:9"
    (fetch envOk) =
    ([], Rejected "Missing endpoint or API key for custom model") /\
  synthesize envOk runWithoutKey "a cat" "16:9" =
    Rejected "Missing endpoint or API key for custom model".
Proof.
  apply (missing_credentials_no_request envOk runWithoutKey "a cat" "16:9").
  - reflexivity.
  - right. reflexivity.
Defined.

(** C9: with the credentials present the synthesizer calls [fetch] once,
    and the size in the body of that request is 1792x1024 for the aspect
    ratio 16:9, 1024x1792 for 9:16, and 1024x1024 for anything else. *)
Theorem size_by_aspect_ratio config prompt aspectRatio fetch :
  truthy (ModelConfig.endpoint config) = true ->
  truthy (ModelConfig.apiKey config) = true ->
  exists request,
    fst (Api.generateImageCustom config prompt aspectRatio fetch) = [request] /\
    size_mapped aspectRatio
      (Api.ImagesBody.size (Api.HttpRequest.body request)).
Proof.
  intros He Hk.
  exists (Api.imagesRequest config prompt aspectRatio). split.
  - unfold Api.generateImageCustom. rewrite He, Hk. reflexivity.
  - unfold Api.imagesRequest, Api.sizeFor, size_mapped.
    cbn [Api.HttpRequest.body Api.ImagesBody.size].
    destruct (String.eqb_spec aspectRatio "16:9") as [E1|N1];
      destruct (String.eqb_spec aspectRatio "9:16") as [E2|N2];
      repeat split; intros; subst; try reflexivity; try discriminate;
      try contradiction.
Qed.

Lemma size_by_aspect_ratio_witness :
  exists request,
    fst (Api.generateImageCustom customWithKey "a cat" "9:16" (fetch envOk))
      = [request] /\
    size_mapped "9:16" (Api.ImagesBody.size (Api.HttpRequest.body request)).
Proof.
  apply (size_by_aspect_ratio customWithKey "a cat" "9:16" (fetch envOk));
    reflexivity.
Defined.

(** ** C7: extracting and parsing the answer of the model *)

Lemma length_append (a b : string) :
  String.length (a ++ b) = String.length a + String.length b.
Proof.
  induction a as [|c a IH]; cbn [append String.length Nat.add]; congruence.
Qed.

Lemma append_assoc (a b c : string) : (a ++ b) ++ c = a ++ (b ++ c).
Proof. induction a as [|x a IH]; cbn [append]; congruence. Qed.

Lemma substring_prefix (a b : string) :
  substring 0 (String.length a) (a ++ b) = a.
Proof.
  induction a as [|c a IH]; cbn [append String.length substring].
  - destruct b; reflexivity.
  - rewrite IH. reflexivity.
Qed.

Lemma matchAt_AnyStar_cons c s k :
  Api.matchAt Api.AnyStar (String c s) k =
  match Api.matchAt Api.AnyStar s k with
  | Some rest => Some rest
  | None => k (String c s)
  end.
Proof. reflexivity. Qed.

Lemma String_match_cons r c s :
  Api.String_match r (String c s) =
  match Api.matchAt r (String c s) Some with
  | Some rest =>
      Some (substring 0 (String.length (String c s) - String.length rest)
              (String c s))
  | None => Api.String_match r s
  end.
Proof. reflexivity. Qed.

Lemma star_absent d s :
  occurs d s = false -> Api.matchAt Api.AnyStar s (closes d) = None.
Proof.
  induction s as [|c s IH]; intros H.
  - reflexivity.
  - cbn [occurs] in H. apply orb_false_elim in H. destruct H as [Hc Hs].
    rewrite matchAt_AnyStar_cons, (IH Hs).
    unfold closes. cbn [Api.matchAt]. rewrite Hc. reflexivity.
Qed.

(** The greedy star gives characters back until the last closer. *)
Lemma star_last d x post :
  occurs d post = false ->
  Api.matchAt Api.AnyStar (x ++ String d post) (closes d) = Some post.
Proof.
  intros H. induction x as [|c x IH]; cbn [append].
  - rewrite matchAt_AnyStar_cons, (star_absent _ _ H).
    unfold closes. cbn [Api.matchAt]. rewrite Ascii.eqb_refl. reflexivity.
  - rewrite matchAt_AnyStar_cons, IH. reflexivity.
Qed.

Lemma pattern_at_brace body post :
  occurs "}" post = false ->
  Api.matchAt Api.jsonPattern (String "{" (body ++ String "}" post)) Some
  = Some post.
Proof.
  intros H.
  change (Api.matchAt Api.jsonPattern
            (String "{" (body ++ String "}" post)) Some)
    with (match Api.matchAt Api.AnyStar (body ++ String "}" post)
                  (closes "}") with
          | Some rest => Some rest
          | None =>
              Api.matchAt
                (Api.Cat (Api.Chr "[") (Api.Cat Api.AnyStar (Api.Chr "]")))
                (String "{" (body ++ String "}" post)) Some
          end).
  rewrite (star_last _ _ _ H). reflexivity.
Qed.

Lemma pattern_at_bracket body post :
  occurs "]" post = false ->
  Api.matchAt Api.jsonPattern (String "[" (body ++ String "]" post)) Some
  = Some post.
Proof.
  intros H.
  change (Api.matchAt Api.jsonPattern
            (String "[" (body ++ String "]" post)) Some)
    with (Api.matchAt Api.AnyStar (body ++ String "]" post) (closes "]")).
  apply star_last, H.
Qed.

Lemma pattern_elsewhere c rest :
  Ascii.eqb "{" c = false -> Ascii.eqb "[" c = false ->
  Api.matchAt Api.jsonPattern (String c rest) Some = None.
Proof.
  intros H1 H2. unfold Api.jsonPattern. cbn [Api.matchAt].
  rewrite H1, H2. reflexivity.
Qed.

Lemma String_match_skip pre m :
  occurs "{" pre = false -> occurs "[" pre = false ->
  Api.String_match Api.jsonPattern (pre ++ m)
  = Api.String_match Api.jsonPattern m.
Proof.
  induction pre as [|c pre IH]; intros H1 H2; [reflexivity|].
  cbn [occurs] in H1, H2.
  apply orb_false_elim in H1. apply orb_false_elim in H2.
  cbn [append]. rewrite String_match_cons.
  rewrite pattern_elsewhere by tauto. apply IH; tauto.
Qed.

Lemma matched_text (a post : string) :
  substring 0 (String.length (a ++ post) - String.length post) (a ++ post) = a.
Proof.
  rewrite length_append, Nat.add_sub. apply substring_prefix.
Qed.

Lemma extractJson_object pre body post :
  occurs "{" pre = false -> occurs "[" pre = false ->
  occurs "}" post = false ->
  Api.extractJson (pre ++ "{" ++ body ++ "}" ++ post) = "{" ++ body ++ "}".
Proof.
  intros H1 H2 H3. unfold Api.extractJson.
  rewrite String_match_skip by assumption.
  change ("{" ++ body ++ "}" ++ post)
    with (String "{" (body ++ String "}" post)).
  rewrite String_match_cons, pattern_at_brace by assumption.
  replace (String "{" (body ++ String "}" post))
    with ((String "{" (body ++ "}")) ++ post).
  - rewrite matched_text. reflexivity.
  - cbn [append]. f_equal. rewrite append_assoc. reflexivity.
Qed.

Lemma extractJson_array pre body post :
  occurs "{" pre = false -> occurs "[" pre = false ->
  occurs "]" post = false ->
  Api.extractJson (pre ++ "[" ++ body ++ "]" ++ post) = "[" ++ body ++ "]".
Proof.
  intros H1 H2 H3. unfold Api.extractJson.
  rewrite String_match_skip by assumption.
  change ("[" ++ body ++ "]" ++ post)
    with (String "[" (body ++ String "]" post)).
  rewrite String_match_cons, pattern_at_bracket by assumption.
  replace (String "[" (body ++ String "]" post))
    with ((String "[" (body ++ "]")) ++ post).
  - rewrite matched_text. reflexivity.
  - cbn [append]. f_equal. rewrite append_assoc. reflexivity.
Qed.

(** C7 as stated does not hold: the answer [proseWithBrace] wraps a
    well-formed object in prose, and what is extracted runs on to the brace
    of the prose. *)
Lemma extraction_runs_to_last_brace : ~ extracts_first_json.
Proof.
  intros H.
  assert (E : firstWellFormedJson proseWithBrace = Some wrappedObject)
    by (vm_compute; reflexivity).
  apply H in E. vm_compute in E. discriminate E.
Qed.

(** The expansion fails on that answer. *)
Lemma wrapped_object_rejected :
  Api.generateDiversePrompts (Some "key") (Resolved (Some proseWithBrace))
  = Rejected Api.SyntaxError_message.
Proof. vm_compute. reflexivity. Qed.

(** The greedy star followed by the closer [d] ends the match after the
    last [d] of the text. *)
Lemma star_throughLast d s :
  match throughLast d s with
  | Some piece =>
      exists post,
        s = piece ++ post /\
        Api.matchAt Api.AnyStar s (closes d) = Some post
  | None => Api.matchAt Api.AnyStar s (closes d) = None
  end.
Proof.
  induction s as [|c s IH]; [reflexivity|].
  cbn [throughLast]. rewrite matchAt_AnyStar_cons.
  destruct (throughLast d s) as [piece|].
  - destruct IH as (post & -> & ->). exists post. split; reflexivity.
  - rewrite IH. unfold closes. cbn [Api.matchAt].
    rewrite (Ascii.eqb_sym d c).
    destruct (Ascii.eqb c d); [|reflexivity].
    exists s. split; reflexivity.
Qed.

(** The pattern at one position of the text: only an opener can start a
    match, and the match runs through the last closer of its kind. *)
Lemma pattern_at c rest :
  match
    match closerOf c with
    | Some d => throughLast d rest
    | None => None
    end
  with
  | Some piece =>
      exists post,
        rest = piece ++ post /\
        Api.matchAt Api.jsonPattern (String c rest) Some = Some post
  | None => Api.matchAt Api.jsonPattern (String c rest) Some = None
  end.
Proof.
  unfold closerOf.
  destruct (Ascii.eqb_spec c "{") as [->|Hb].
  - change (Api.matchAt Api.jsonPattern (String "{" rest) Some)
      with (match Api.matchAt Api.AnyStar rest (closes "}") with
            | Some post => Some post
            | None => None
            end).
    pose proof (star_throughLast "}" rest) as H.
    destruct (throughLast "}" rest) as [piece|].
    + destruct H as (post & E & ->). exists post. split; [exact E|reflexivity].
    + rewrite H. reflexivity.
  - destruct (Ascii.eqb_spec c "[") as [->|Hk].
    + change (Api.matchAt Api.jsonPattern (String "[" rest) Some)
        with (Api.matchAt Api.AnyStar rest (closes "]")).
      exact (star_throughLast "]" rest).
    + apply pattern_elsewhere; apply Ascii.eqb_neq; congruence.
Qed.

(** The match of the pattern in a text, in the words of the amended
    claim. *)
Lemma String_match_fromFirstOpener text :
  Api.String_match Api.jsonPattern text = fromFirstOpener text.
Proof.
  induction text as [|c rest IH]; [reflexivity|].
  rewrite String_match_cons. cbn [fromFirstOpener].
  pose proof (pattern_at c rest) as H.
  destruct (match closerOf c with
            | Some d => throughLast d rest
            | None => None
            end) as [piece|].
  - destruct H as (post & -> & ->).
    change (String c (piece ++ post)) with (String c piece ++ post).
    rewrite matched_text. reflexivity.
  - rewrite H. exact IH.
Qed.

Lemma extractJson_fromFirstOpener text :
  Api.extractJson text =
  match fromFirstOpener text with
  | Some piece => piece
  | None => text
  end.
Proof.
  unfold Api.extractJson. rewrite String_match_fromFirstOpener. reflexivity.
Qed.

(** When the expansion resolves, and to what. *)
Lemma generateDiversePrompts_resolves key response result :
  Api.generateDiversePrompts key response = Resolved result <->
  truthy key = true /\
  exists text,
    response = Resolved (Some text) /\
    text <> EmptyString /\
    Api.JSON_parse (Api.extractJson text) = Some result /\
    exists elements,
      Api.property "prompts" result = Some (Api.JArray elements).
Proof.
  unfold Api.generateDiversePrompts. split.
  - destruct (truthy key); cbn [negb]; [|discriminate].
    destruct response as [[text|]|message]; try discriminate.
    destruct (String.eqb_spec text EmptyString) as [->|Hne]; [discriminate|].
    destruct (Api.JSON_parse (Api.extractJson text)) as [value|] eqn:Ep;
      [|discriminate].
    destruct value; try discriminate.
    destruct (Api.property "prompts" (Api.JObject members)) as [v|] eqn:Ev;
      [|discriminate].
    destruct v; try discriminate.
    intros H. injection H as <-.
    split; [reflexivity|]. exists text.
    split; [reflexivity|]. split; [exact Hne|]. split; [exact Ep|].
    exists elements. exact Ev.
  - intros (Hk & text & -> & Hne & Hp & elements & He).
    rewrite Hk. cbn [negb].
    apply String.eqb_neq in Hne. rewrite Hne, Hp.
    destruct result; try discriminate He.
    rewrite He. reflexivity.
Qed.

(** C7, amended: the text that is parsed runs from the first opening brace
    or bracket of the answer that has a closing brace (bracket) after it to
    the last closing brace (bracket) of the whole answer, and is the whole
    answer when there is no such opener; so an object (array) is extracted
    whole when the text before it has no opening brace or bracket and the
    text after it has no closing brace (bracket).  On the answer of the
    example the expansion yields the prompts a, b and the aspect ratio
    16:9.  The call resolves, to the parsed value, exactly when the
    credentials are there, the answer is not empty, the extracted text
    parses and the parsed value has an array as its member [prompts]; when
    the extracted text does not parse, or the parsed value has no array as
    its member [prompts], the call fails with an error. *)
Theorem extraction_and_parsing :
  (forall text,
     Api.extractJson text =
     match fromFirstOpener text with
     | Some piece => piece
     | None => text
     end)
  /\
  (forall pre body post,
     occurs "{" pre = false -> occurs "[" pre = false ->
     occurs "}" post = false ->
     Api.extractJson (pre ++ "{" ++ body ++ "}" ++ post) = "{" ++ body ++ "}")
  /\
  (forall pre body post,
     occurs "{" pre = false -> occurs "[" pre = false ->
     occurs "]" post = false ->
     Api.extractJson (pre ++ "[" ++ body ++ "]" ++ post) = "[" ++ body ++ "]")
  /\
  (Api.generateDiversePrompts (Some "key") (Resolved (Some exampleResponse))
     = Resolved exampleResult /\
   Api.property "prompts" exampleResult
     = Some (Api.JArray [Api.JString (Api.unitsOf "a");
                         Api.JString (Api.unitsOf "b")]) /\
   Api.property "aspectRatio" exampleResult
     = Some (Api.JString (Api.unitsOf "16:9")) /\
   asExpansion exampleResult
     = Some {| prompts := ["a"; "b"]; aspectRatio := "16:9" |})
  /\
  (forall key response result,
     Api.generateDiversePrompts key response = Resolved result <->
     truthy key = true /\
     exists text,
       response = Resolved (Some text) /\
       text <> EmptyString /\
       Api.JSON_parse (Api.extractJson text) = Some result /\
       exists elements,
         Api.property "prompts" result = Some (Api.JArray elements))
  /\
  (forall key text,
     Api.JSON_parse (Api.extractJson text) = None ->
     exists message,
       Api.generateDiversePrompts key (Resolved (Some text))
       = Rejected message)
  /\
  (forall key text result,
     Api.JSON_parse (Api.extractJson text) = Some result ->
     (forall elements,
        Api.property "prompts" result <> Some (Api.JArray elements)) ->
     exists message,
       Api.generateDiversePrompts key (Resolved (Some text))
       = Rejected message).
Proof.
  split; [exact extractJson_fromFirstOpener|].
  split; [exact extractJson_object|].
  split; [exact extractJson_array|].
  split; [vm_compute; repeat split; reflexivity|].
  split; [exact generateDiversePrompts_resolves|].
  split.
  - intros key text Hp. unfold Api.generateDiversePrompts.
    destruct (negb (truthy key)); [eexists; reflexivity|].
    destruct (String.eqb text EmptyString); [eexists; reflexivity|].
    rewrite Hp. eexists; reflexivity.
  - intros key text result Hp Hno. unfold Api.generateDiversePrompts.
    destruct (negb (truthy key)); [eexists; reflexivity|].
    destruct (String.eqb text EmptyString); [eexists; reflexivity|].
    rewrite Hp.
    destruct result; try (eexists; reflexivity).
    destruct (Api.property "prompts" (Api.JObject members)) as [v|] eqn:Ev;
      [|eexists; reflexivity].
    destruct v; try (eexists; reflexivity).
    exfalso. exact (Hno _ eq_refl).
Qed.

Lemma extraction_and_parsing_witness :
  Api.extractJson unclosedBracket = "{b}" /\
  Api.extractJson ("Here you go: " ++ "{" ++ "}" ++ "}" ++ " Done.")
  = "{" ++ "}" ++ "}".
Proof.
  split.
  - exact (proj1 extraction_and_parsing unclosedBracket).
  - apply (proj1 (proj2 extraction_and_parsing) "Here you go: " "}" " Done.");
      reflexivity.
Defined.

(** ** A run in which every synthesis fails, and a cancelled expansion *)

Lemma synthesize_withPc env p run prompt ar :
  synthesize env (withPc p run) prompt ar = synthesize env run prompt ar.
Proof. reflexivity. Qed.

Lemma resumeSynthesisOn_rejected clk env run i dp ar s message :
  synthesize env run (nth i dp "undefined") ar = Rejected message ->
  Session.generatedImages (resumeSynthesisOn clk env run i dp ar false s)
    = Session.generatedImages s /\
  (List.length dp <= i + 1 ->
   Session.status (resumeSynthesisOn clk env run i dp ar false s) = completed
   /\ Session.progress (resumeSynthesisOn clk env run i dp ar false s) = 100).
Proof.
  intros E. unfold resumeSynthesisOn, loopHeadOn, settleOn. rewrite E.
  destruct (Nat.ltb_spec (i + 1) (List.length dp)) as [Hlt|Hge];
    (split; [reflexivity|]); intros H; [lia|].
  split; reflexivity.
Qed.

(** X11: without cancellation, a run whose remaining syntheses all fail ends
    with the session completed at progress 100 and with the images it had:
    none, when the failures start at the first item. *)
Lemma all_failures_complete sid dp ar envs :
  forall c run i s,
    findRun sid (runs c) = Some run ->
    pc run = AwaitSynthesis i dp ar ->
    findSession sid (sessions (world c)) = Some s ->
    abortControllerRef (world c) = false ->
    i + List.length envs = List.length dp ->
    envs <> [] ->
    Forall (fun ce => alwaysFails run ar (snd ce)) envs ->
    exists c' s' run',
      exec (settleAll sid envs) c = Some c' /\
      findSession sid (sessions (world c')) = Some s' /\
      findRun sid (runs c') = Some run' /\
      pc run' = Returned /\
      Session.status s' = completed /\
      Session.progress s' = 100 /\
      Session.generatedImages s' = Session.generatedImages s.
Proof.
  induction envs as [|[clk env] envs IH];
    intros c run i s Hr Hp Hs Ha Hlen Hne Hall; [contradiction|].
  inversion Hall as [|x l Hfail Hrest]; subst x l. cbn [snd] in Hfail.
  destruct (Hfail (nth i dp "undefined")) as [message Hm].
  cbn [settleAll map fst snd exec].
  destruct (step clk (SynthesisSettled sid env) c) as [c1|] eqn:Hstep.
  2:{ cbn [step] in Hstep. rewrite Hr, Hp in Hstep.
      destruct (resumeSynthesis clk env run i dp ar (world c)); discriminate. }
  pose proof (step_session _ _ _ _ sid Hstep) as Es.
  pose proof (step_run _ _ _ _ sid Hstep) as Er.
  pose proof (step_abort _ _ _ _ Hstep) as Ea.
  rewrite Hs in Es. cbn [option_map effect nextRun] in Es, Er, Ea.
  rewrite String.eqb_refl in Es, Er.
  rewrite Hr in Es, Er. cbn [option_map] in Er. rewrite Hp in Es, Er.
  rewrite Ha in Es. rewrite pc_resumeSynthesis, Ha in Er.
  destruct (resumeSynthesisOn_rejected clk env run i dp ar s message Hm)
    as [Himg Hdone].
  cbn [List.length] in Hlen.
  destruct envs as [|ce envs].
  - cbn [List.length] in Hlen.
    destruct (Nat.ltb_spec (i + 1) (List.length dp)) as [Hlt|Hge]; [lia|].
    destruct (Hdone Hge) as [Hst Hpr].
    cbn [map exec]. eexists _, _, _.
    split; [reflexivity|]. split; [exact Es|]. split; [exact Er|].
    cbn [andb pc withPc]. auto.
  - destruct (Nat.ltb_spec (i + 1) (List.length dp)) as [Hlt|Hge];
      [|cbn [List.length] in Hlen; lia].
    cbn [andb negb] in Er.
    assert (Ha1 : abortControllerRef (world c1) = false)
      by (rewrite Ea; exact Ha).
    assert (Hlen1 : i + 1 + List.length (ce :: envs) = List.length dp)
      by (cbn [List.length] in *; lia).
    assert (Hne1 : ce :: envs <> []) by discriminate.
    assert (Hall1 : Forall
              (fun x => alwaysFails
                          (withPc (AwaitSynthesis (i + 1) dp ar) run) ar
                          (snd x)) (ce :: envs)).
    { eapply Forall_impl; [|exact Hrest].
      intros a Hf prompt. rewrite synthesize_withPc. apply Hf. }
    destruct (IH c1 (withPc (AwaitSynthesis (i + 1) dp ar) run) (i + 1)
                (resumeSynthesisOn clk env run i dp ar false s)
                Er eq_refl Es Ha1 Hlen1 Hne1 Hall1)
      as (c' & s' & run' & He & Hs' & Hr' & Hp' & Hst & Hpr & Hi').
    exists c', s', run'. rewrite Hi', Himg. auto 10.
Qed.

(** Two images are asked for, both syntheses fail: the session is completed
    at progress 100 with no image. *)
Lemma both_fail_completed :
  let trace :=
    (twoForTwo ++ settleAll "1" [(clockAt 4, envDown); (clockAt 5, envDown)])%list
  in
  exec trace initial = Some (stateAfter trace) /\
  Session.status (sessionAfter trace "1") = completed /\
  Session.progress (sessionAfter trace "1") = 100 /\
  Session.generatedImages (sessionAfter trace "1") = [].
Proof. vm_compute. repeat split; reflexivity. Qed.

(** An event about another session leaves the session and its run as
    they are. *)
Lemma step_elsewhere clk e c c' sid :
  step clk e c = Some c' ->
  eventSession clk e <> sid ->
  findSession sid (sessions (world c')) = findSession sid (sessions (world c))
  /\ findRun sid (runs c') = findRun sid (runs c).
Proof.
  intros Hstep Hne.
  rewrite (step_session _ _ _ _ sid Hstep), (step_run _ _ _ _ sid Hstep).
  assert (Hs : forall x, String.eqb sid x = true -> eventSession clk e <> x).
  { intros x E. apply String.eqb_eq in E. congruence. }
  destruct e as [p r g|sid0 model|sid0|sid0 result|sid0 env];
    cbn [eventSession nextRun] in *.
  - apply String.eqb_neq in Hne. rewrite Hne. auto.
  - destruct (String.eqb sid sid0) eqn:E;
      [exfalso; apply (Hs _ E); reflexivity|].
    split; [|reflexivity].
    destruct (findSession sid (sessions (world c))); [|reflexivity].
    cbn [option_map effect]. rewrite E. reflexivity.
  - split; [|reflexivity].
    destruct (String.eqb sid sid0) eqn:E;
      [exfalso; apply (Hs _ E); reflexivity|].
    destruct (findSession sid (sessions (world c))); [|reflexivity].
    cbn [option_map effect]. rewrite E. reflexivity.
  - destruct (String.eqb sid sid0) eqn:E;
      [exfalso; apply (Hs _ E); reflexivity|].
    split; [|reflexivity].
    destruct (findSession sid (sessions (world c))); [|reflexivity].
    cbn [option_map effect]. rewrite E. reflexivity.
  - destruct (String.eqb sid sid0) eqn:E;
      [exfalso; apply (Hs _ E); reflexivity|].
    split; [|reflexivity].
    destruct (findSession sid (sessions (world c))); [|reflexivity].
    cbn [option_map effect]. rewrite E. reflexivity.
Qed.

(** Events that start no run and are about other sessions keep the
    session, its run and a cancellation flag that is set. *)
Lemma bystanders_keep sid between :
  forall c c',
    forallb (bystander sid) between = true ->
    exec between c = Some c' ->
    findSession sid (sessions (world c')) = findSession sid (sessions (world c))
    /\ findRun sid (runs c') = findRun sid (runs c)
    /\ (abortControllerRef (world c) = true ->
        abortControllerRef (world c') = true).
Proof.
  induction between as [|[clk e] between IH]; intros c c' Hb Hexec.
  - injection Hexec as <-. auto.
  - cbn [forallb] in Hb. apply andb_prop in Hb. destruct Hb as [Hb Hrest].
    cbn [exec] in Hexec.
    destruct (step clk e c) as [c1|] eqn:Hstep; [|discriminate].
    destruct (IH _ _ Hrest Hexec) as (Es & Er & Ea).
    assert (Hne : eventSession clk e <> sid).
    { unfold bystander in Hb. cbn [fst snd] in Hb.
      destruct e; try discriminate Hb;
        apply negb_true_iff, String.eqb_neq in Hb; exact Hb. }
    destruct (step_elsewhere _ _ _ _ sid Hstep Hne) as [Es1 Er1].
    rewrite Es, Er, Es1, Er1. split; [reflexivity|]. split; [reflexivity|].
    intros Ha. apply Ea. rewrite (step_abort _ _ _ _ Hstep).
    unfold bystander in Hb. cbn [snd] in Hb.
    destruct e; try discriminate Hb; try exact Ha; reflexivity.
Qed.

(** X12: cancellation while the expansion is awaited, with no start
    command of a run before the expansion settles (other sessions may be
    created or cancelled, and their promises may settle, in between): when
    the expansion settles, with a result or with an error, the run returns
    without starting an item; the session stays stopped and gets no image
    and no prompt list. *)
Lemma stop_then_expansion clk0 clk result between c c1 c1' c2 sid run s :
  findRun sid (runs c) = Some run ->
  pc run = AwaitExpansion ->
  findSession sid (sessions (world c)) = Some s ->
  step clk0 (KillTask sid) c = Some c1 ->
  forallb (bystander sid) between = true ->
  exec between c1 = Some c1' ->
  step clk (ExpansionSettled sid result) c1' = Some c2 ->
  exists s2 run2,
    findSession sid (sessions (world c2)) = Some s2 /\
    findRun sid (runs c2) = Some run2 /\
    pc run2 = Returned /\
    Session.status s2 = stopped /\
    Session.generatedImages s2 = Session.generatedImages s /\
    Session.generatedPrompts s2 = Session.generatedPrompts s.
Proof.
  intros Hr Hp Hs H1 Hb Hbetween H2.
  pose proof (step_session _ _ _ _ sid H1) as Es1.
  pose proof (step_run _ _ _ _ sid H1) as Er1.
  pose proof (step_abort _ _ _ _ H1) as Ea1.
  rewrite Hs in Es1. cbn [option_map effect nextRun] in Es1, Er1, Ea1.
  rewrite String.eqb_refl in Es1. rewrite Hr in Er1.
  destruct (bystanders_keep sid between _ _ Hb Hbetween) as (Es & Er & Ea).
  rewrite Es1 in Es. rewrite Er1 in Er. specialize (Ea Ea1).
  exists (resumeExpansionOn clk run result true (stopOn clk0 s)),
         (withPc (snd (resumeExpansion clk run result (world c1'))) run).
  split.
  { rewrite (step_session _ _ _ _ sid H2), Es.
    cbn [option_map effect]. rewrite String.eqb_refl, Er, Ea.
    reflexivity. }
  split.
  { rewrite (step_run _ _ _ _ sid H2).
    cbn [nextRun]. rewrite String.eqb_refl, Er. reflexivity. }
  cbn [pc withPc]. rewrite pc_resumeExpansion, Ea.
  split; [reflexivity|].
  unfold resumeExpansionOn, fallbackOn. destruct result; auto.
Qed.

(** * Further properties of services/api.ts *)

(** ** [extractJson] *)

Lemma pattern_unfold c s :
  Api.matchAt Api.jsonPattern (String c s) Some =
  match (if Ascii.eqb "{" c
         then Api.matchAt Api.AnyStar s (closes "}") else None) with
  | Some rest => Some rest
  | None =>
      if Ascii.eqb "[" c
      then Api.matchAt Api.AnyStar s (closes "]") else None
  end.
Proof.
  unfold Api.jsonPattern. cbn [Api.matchAt].
  destruct (Ascii.eqb "{" c), (Ascii.eqb "[" c); reflexivity.
Qed.

Lemma star_None d s :
  Api.matchAt Api.AnyStar s (closes d) = None -> occurs d s = false.
Proof.
  induction s as [|c s IH]; intros H; [reflexivity|].
  rewrite matchAt_AnyStar_cons in H.
  destruct (Api.matchAt Api.AnyStar s (closes d)); [discriminate|].
  unfold closes in H. cbn [Api.matchAt] in H.
  cbn [occurs]. rewrite (IH eq_refl).
  destruct (Ascii.eqb d c); [discriminate|reflexivity].
Qed.

(** What the greedy star followed by a closer matches: everything up to
    the last closer. *)
Lemma star_Some d s rest :
  Api.matchAt Api.AnyStar s (closes d) = Some rest ->
  occurs d rest = false /\ exists x, s = x ++ String d rest.
Proof.
  revert rest. induction s as [|c s IH]; intros rest H.
  - discriminate H.
  - rewrite matchAt_AnyStar_cons in H.
    destruct (Api.matchAt Api.AnyStar s (closes d)) as [r|] eqn:E.
    + injection H as <-. destruct (IH _ eq_refl) as [Hr [x ->]].
      split; [exact Hr|]. exists (String c x). reflexivity.
    + unfold closes in H. cbn [Api.matchAt] in H.
      destruct (Ascii.eqb_spec d c) as [->|]; [|discriminate].
      injection H as <-. split; [apply star_None, E|].
      exists EmptyString. reflexivity.
Qed.

Lemma append_nil_r (s : string) : s ++ EmptyString = s.
Proof. induction s as [|c s IH]; cbn [append]; congruence. Qed.

(** The shape of a match of the pattern of [extractJson]. *)
Lemma String_match_shape text m :
  Api.String_match Api.jsonPattern text = Some m ->
  exists pre body post,
    text = pre ++ m ++ post /\
    (m = "{" ++ body ++ "}" \/ m = "[" ++ body ++ "]").
Proof.
  revert m. induction text as [|c s IH]; intros m H.
  - discriminate H.
  - rewrite String_match_cons, pattern_unfold in H.
    assert (Hhit : forall opener closer rest,
              c = opener ->
              Api.matchAt Api.AnyStar s (closes closer) = Some rest ->
              m = substring 0
                    (String.length (String c s) - String.length rest)
                    (String c s) ->
              exists body,
                String c s = m ++ rest /\
                m = String opener (body ++ String closer EmptyString)).
    { intros opener closer rest -> Hs ->.
      destruct (star_Some _ _ _ Hs) as [_ [x ->]]. exists x.
      replace (String opener (x ++ String closer rest))
        with (String opener (x ++ String closer EmptyString) ++ rest)
        by (cbn [append]; rewrite append_assoc; reflexivity).
      rewrite matched_text. split; reflexivity. }
    destruct (Ascii.eqb_spec "{" c) as [E1|N1].
    + destruct (Api.matchAt Api.AnyStar s (closes "}")) as [rest|] eqn:Es.
      * injection H as H. symmetry in H.
        destruct (Hhit _ _ _ (eq_sym E1) Es H) as [body [Ht Hm]].
        exists EmptyString, body, rest. split; [exact Ht|]. left. exact Hm.
      * destruct (Ascii.eqb_spec "[" c) as [E2|N2]; [congruence|].
        destruct (IH _ H) as (pre & body & post & -> & Hm).
        exists (String c pre), body, post. split; [reflexivity|exact Hm].
    + destruct (Ascii.eqb_spec "[" c) as [E2|N2].
      * destruct (Api.matchAt Api.AnyStar s (closes "]")) as [rest|] eqn:Es.
        -- injection H as H. symmetry in H.
           destruct (Hhit _ _ _ (eq_sym E2) Es H) as [body [Ht Hm]].
           exists EmptyString, body, rest. split; [exact Ht|]. right. exact Hm.
        -- destruct (IH _ H) as (pre & body & post & -> & Hm).
           exists (String c pre), body, post. split; [reflexivity|exact Hm].
      * destruct (IH _ H) as (pre & body & post & -> & Hm).
        exists (String c pre), body, post. split; [reflexivity|exact Hm].
Qed.

(** X1: what [extractJson] returns is a contiguous piece of the answer: the
    whole answer when the pattern matches nowhere, and otherwise a piece
    that opens with a brace and closes with a brace, or opens with a
    bracket and closes with a bracket. *)
Theorem extractJson_is_delimited_piece text :
  exists pre post,
    text = pre ++ Api.extractJson text ++ post /\
    (Api.extractJson text = text \/
     (exists body, Api.extractJson text = "{" ++ body ++ "}") \/
     (exists body, Api.extractJson text = "[" ++ body ++ "]")).
Proof.
  unfold Api.extractJson.
  destruct (Api.String_match Api.jsonPattern text) as [m|] eqn:E.
  - destruct (String_match_shape _ _ E) as (pre & body & post & Ht & Hm).
    exists pre, post. split; [exact Ht|]. right.
    destruct Hm as [Hm|Hm]; [left|right]; exists body; exact Hm.
  - exists EmptyString, EmptyString. split; [|left; reflexivity].
    cbn [append]. symmetry. apply append_nil_r.
Qed.

(** X2: extracting twice is extracting once. *)
Theorem extractJson_idempotent text :
  Api.extractJson (Api.extractJson text) = Api.extractJson text.
Proof.
  destruct (extractJson_is_delimited_piece text)
    as (_ & _ & _ & [H|[[body H]|[body H]]]).
  - rewrite H. exact H.
  - rewrite H.
    exact (extractJson_object EmptyString body EmptyString
             eq_refl eq_refl eq_refl).
  - rewrite H.
    exact (extractJson_array EmptyString body EmptyString
             eq_refl eq_refl eq_refl).
Qed.

(** X3: an answer with no opening brace and no opening bracket is handed
    to the parser as it is. *)
Theorem extractJson_plain_text text :
  occurs "{" text = false -> occurs "[" text = false ->
  Api.extractJson text = text.
Proof.
  intros H1 H2. unfold Api.extractJson.
  rewrite <- (append_nil_r text) at 1.
  rewrite String_match_skip by assumption. reflexivity.
Qed.

Lemma extractJson_plain_text_witness :
  Api.extractJson "I cannot help with that." = "I cannot help with that.".
Proof. apply extractJson_plain_text; reflexivity. Defined.

(** ** [generateDiversePrompts] *)

(** X4: whenever the expansion resolves, the API key was present, the
    answer was a non-empty text, the result is what [JSON.parse] makes of
    the extracted text, and its member [prompts] is an array. *)
Theorem expansion_result_is_validated key response result :
  Api.generateDiversePrompts key response = Resolved result ->
  truthy key = true /\
  exists text elements,
    response = Resolved (Some text) /\
    text <> EmptyString /\
    Api.JSON_parse (Api.extractJson text) = Some result /\
    Api.property "prompts" result = Some (Api.JArray elements).
Proof.
  unfold Api.generateDiversePrompts.
  destruct (truthy key); cbn [negb]; [|discriminate].
  destruct response as [[text|]|]; try discriminate.
  destruct (String.eqb_spec text EmptyString) as [|Hne]; [discriminate|].
  destruct (Api.JSON_parse (Api.extractJson text)) as [parsed|] eqn:Ep;
    [|discriminate].
  intros H. split; [reflexivity|].
  assert (Hp : forall v,
            match Api.property "prompts" v with
            | Some (Api.JArray _) => Resolved v
            | _ => Rejected "Invalid prompt array in response"
            end = Resolved result ->
            v = result /\
            exists elements,
              Api.property "prompts" result = Some (Api.JArray elements)).
  { intros v Hv.
    destruct (Api.property "prompts" v) as [[| | | |elements|]|] eqn:Ev;
      try discriminate.
    injection Hv as <-. split; [reflexivity|]. exists elements. exact Ev. }
  destruct parsed; try discriminate;
    destruct (Hp _ H) as [<- [elements He]];
    exists text, elements; auto.
Qed.

Lemma expansion_result_is_validated_witness :
  truthy (Some "key") = true /\
  exists text elements,
    Resolved (Some exampleResponse) = Resolved (Some text) /\
    text <> EmptyString /\
    Api.JSON_parse (Api.extractJson text) = Some exampleResult /\
    Api.property "prompts" exampleResult = Some (Api.JArray elements).
Proof.
  apply (expansion_result_is_validated (Some "key")
           (Resolved (Some exampleResponse)) exampleResult).
  vm_compute. reflexivity.
Defined.

(** ** [generateImageWithGemini] *)

Lemma untilComma_plain s :
  occurs "," s = false -> Api.untilComma s = s.
Proof.
  induction s as [|c s IH]; intros H; [reflexivity|].
  cbn [occurs] in H. apply orb_false_elim in H. destruct H as [Hc Hs].
  cbn [Api.untilComma].
  destruct (Ascii.eqb_spec c ",") as [->|_].
  - rewrite Ascii.eqb_refl in Hc. discriminate.
  - rewrite (IH Hs). reflexivity.
Qed.

Lemma secondField_plain s :
  occurs "," s = false -> Api.secondField s = None.
Proof.
  induction s as [|c s IH]; intros H; [reflexivity|].
  cbn [occurs] in H. apply orb_false_elim in H. destruct H as [Hc Hs].
  cbn [Api.secondField].
  destruct (Ascii.eqb_spec c ",") as [->|_].
  - rewrite Ascii.eqb_refl in Hc. discriminate.
  - exact (IH Hs).
Qed.

Lemma secondField_header header rest :
  occurs "," header = false ->
  Api.secondField (header ++ String "," rest) = Some (Api.untilComma rest).
Proof.
  induction header as [|c s IH]; intros H; cbn [append Api.secondField].
  - reflexivity.
  - cbn [occurs] in H. apply orb_false_elim in H. destruct H as [Hc Hs].
    destruct (Ascii.eqb_spec c ",") as [->|_].
    + rewrite Ascii.eqb_refl in Hc. discriminate.
    + exact (IH Hs).
Qed.

(** X5: of a reference image given as a data URL (a header without comma,
    a comma, a non-empty payload without comma) the request carries the
    payload alone, and a payload given bare is carried as it is; whatever
    the header says, the part is labelled image/png. *)
Theorem reference_payload_is_sent header data prompt :
  occurs "," header = false ->
  occurs "," data = false ->
  data <> EmptyString ->
  Api.cleanBase64 (header ++ "," ++ data) = data /\
  Api.cleanBase64 data = data /\
  Api.geminiParts prompt [header ++ "," ++ data; data] =
    [ {| Api.Part.inlineData :=
           Some {| Api.InlineData.mimeType := Some "image/png";
                   Api.InlineData.data := Some data |};
         Api.Part.text := None |};
      {| Api.Part.inlineData :=
           Some {| Api.InlineData.mimeType := Some "image/png";
                   Api.InlineData.data := Some data |};
         Api.Part.text := None |};
      {| Api.Part.inlineData := None; Api.Part.text := Some prompt |} ].
Proof.
  intros Hh Hd Hne.
  assert (E1 : Api.cleanBase64 (header ++ "," ++ data) = data).
  { unfold Api.cleanBase64.
    change (header ++ "," ++ data) with (header ++ String "," data).
    rewrite (secondField_header _ _ Hh), (untilComma_plain _ Hd).
    cbn [truthy]. destruct (String.eqb_spec data EmptyString); [contradiction|].
    reflexivity. }
  assert (E2 : Api.cleanBase64 data = data).
  { unfold Api.cleanBase64. rewrite (secondField_plain _ Hd). reflexivity. }
  split; [exact E1|]. split; [exact E2|].
  unfold Api.geminiParts. cbn [map app]. rewrite E1, E2. reflexivity.
Qed.

Lemma reference_payload_is_sent_witness :
  Api.cleanBase64 ("data:image/jpeg;base64" ++ "," ++ "AAAA") = "AAAA" /\
  Api.cleanBase64 "AAAA" = "AAAA" /\
  Api.geminiParts "a cat" ["data:image/jpeg;base64" ++ "," ++ "AAAA"; "AAAA"] =
    [ {| Api.Part.inlineData :=
           Some {| Api.InlineData.mimeType := Some "image/png";
                   Api.InlineData.data := Some "AAAA" |};
         Api.Part.text := None |};
      {| Api.Part.inlineData :=
           Some {| Api.InlineData.mimeType := Some "image/png";
                   Api.InlineData.data := Some "AAAA" |};
         Api.Part.text := None |};
      {| Api.Part.inlineData := None; Api.Part.text := Some "a cat" |} ].
Proof.
  apply (reference_payload_is_sent "data:image/jpeg;base64" "AAAA" "a cat");
    [reflexivity|reflexivity|discriminate].
Defined.

Lemma firstInlineImage_skip part rest :
  hasInlineImage part = false ->
  Api.firstInlineImage (part :: rest) = Api.firstInlineImage rest.
Proof.
  unfold hasInlineImage. cbn [Api.firstInlineImage].
  destruct (Api.Part.inlineData part) as [d|]; [|reflexivity].
  destruct (Api.InlineData.data d) as [x|]; [|reflexivity].
  cbn [truthy]. destruct (String.eqb x EmptyString); [reflexivity|discriminate].
Qed.

Lemma firstInlineImage_hit part rest :
  hasInlineImage part = true ->
  Api.firstInlineImage (part :: rest) = Some (dataUrlOf part).
Proof.
  unfold hasInlineImage, dataUrlOf. cbn [Api.firstInlineImage].
  destruct (Api.Part.inlineData part) as [d|]; [|discriminate].
  destruct (Api.InlineData.data d) as [x|]; [|discriminate].
  cbn [truthy]. destruct (String.eqb x EmptyString); [discriminate|reflexivity].
Qed.

Lemma firstInlineImage_Some parts url :
  Api.firstInlineImage parts = Some url ->
  exists skipped part rest,
    parts = (skipped ++ part :: rest)%list /\
    forallb (fun p => negb (hasInlineImage p)) skipped = true /\
    hasInlineImage part = true /\
    url = dataUrlOf part.
Proof.
  induction parts as [|p parts IH]; intros H; [discriminate|].
  destruct (hasInlineImage p) eqn:Hp.
  - rewrite (firstInlineImage_hit _ _ Hp) in H. injection H as <-.
    exists [], p, parts. auto.
  - rewrite (firstInlineImage_skip _ _ Hp) in H.
    destruct (IH H) as (skipped & part & rest & -> & Hs & Hh & Hu).
    exists (p :: skipped), part, rest. cbn [forallb app].
    rewrite Hp, Hs. auto.
Qed.

Lemma firstInlineImage_None parts :
  forallb (fun p => negb (hasInlineImage p)) parts = true ->
  Api.firstInlineImage parts = None.
Proof.
  induction parts as [|p parts IH]; intros H; [reflexivity|].
  cbn [forallb] in H. apply andb_prop in H. destruct H as [Hp Hs].
  apply negb_true_iff in Hp.
  rewrite (firstInlineImage_skip _ _ Hp). exact (IH Hs).
Qed.

Lemma dataUrlOf_nonempty part : hasInlineImage part = true -> dataUrlOf part <> EmptyString.
Proof.
  unfold hasInlineImage, dataUrlOf.
  destruct (Api.Part.inlineData part); [|discriminate].
  intros _. discriminate.
Qed.

(** X6: whenever the native synthesizer hands over a payload, the API key
    was present, the call resolved, and the payload is the data URL of the
    first part of the FIRST candidate that carries inline data: the parts
    before it carry none; the payload is not empty. *)
Theorem gemini_payload_is_first_image key prompt refs aspectRatio call payload :
  Api.generateImageWithGemini key prompt refs aspectRatio call
    = Resolved payload ->
  truthy key = true /\
  payload <> EmptyString /\
  exists response more skipped part rest,
    call {| Api.GeminiRequest.model := "gemini-3-pro-image-preview";
            Api.GeminiRequest.parts := Api.geminiParts prompt refs;
            Api.GeminiRequest.aspectRatio := aspectRatio;
            Api.GeminiRequest.imageSize := "1K" |} = Resolved response /\
    Api.GeminiResponse.candidates response
      = Some (candidateWith (skipped ++ part :: rest) :: more) /\
    forallb (fun p => negb (hasInlineImage p)) skipped = true /\
    hasInlineImage part = true /\
    payload = dataUrlOf part.
Proof.
  unfold Api.generateImageWithGemini.
  destruct (truthy key); cbn [negb]; [|discriminate].
  destruct (call _) as [response|] eqn:Ec; [|discriminate].
  destruct (Api.GeminiResponse.candidates response)
    as [[|[[[[parts|]]|]] more]|] eqn:Ecand;
    cbn [Api.Candidate.content Api.Content.parts]; try discriminate.
  destruct (Api.firstInlineImage parts) as [url|] eqn:Ef; [|discriminate].
  intros H. injection H as <-.
  destruct (firstInlineImage_Some _ _ Ef)
    as (skipped & part & rest & -> & Hs & Hh & ->).
  split; [reflexivity|]. split; [apply dataUrlOf_nonempty, Hh|].
  exists response, more, skipped, part, rest. auto.
Qed.

Lemma gemini_payload_is_first_image_witness :
  truthy (API_KEY envOk) = true /\
  "data:image/png;base64,AAAA" <> EmptyString /\
  exists response more skipped part rest,
    generateContent envOk
      {| Api.GeminiRequest.model := "gemini-3-pro-image-preview";
         Api.GeminiRequest.parts := Api.geminiParts "a cat" [];
         Api.GeminiRequest.aspectRatio := "16:9";
         Api.GeminiRequest.imageSize := "1K" |} = Resolved response /\
    Api.GeminiResponse.candidates response
      = Some (candidateWith (skipped ++ part :: rest) :: more) /\
    forallb (fun p => negb (hasInlineImage p)) skipped = true /\
    hasInlineImage part = true /\
    "data:image/png;base64,AAAA" = dataUrlOf part.
Proof.
  apply (gemini_payload_is_first_image (API_KEY envOk) "a cat" [] "16:9"
           (generateContent envOk) "data:image/png;base64,AAAA").
  reflexivity.
Defined.

(** Among parts without inline data the loop finds nothing. *)
Lemma firstInlineImage_of_none parts :
  (forall part, In part parts -> hasInlineImage part = false) ->
  Api.firstInlineImage parts = None.
Proof.
  intros H. apply firstInlineImage_None, forallb_forall.
  intros part Hp. rewrite (H _ Hp). reflexivity.
Qed.

(** X7: when the first candidate brings no image, the native synthesizer
    fails, whatever the other candidates hold.  It fails with a
    [TypeError] when that candidate has no content, and with the no-image
    error when its content has no parts or no part with inline data. *)
Theorem gemini_first_candidate_decides key prompt refs aspectRatio call
  response candidate more :
  truthy key = true ->
  call {| Api.GeminiRequest.model := "gemini-3-pro-image-preview";
          Api.GeminiRequest.parts := Api.geminiParts prompt refs;
          Api.GeminiRequest.aspectRatio := aspectRatio;
          Api.GeminiRequest.imageSize := "1K" |} = Resolved response ->
  Api.GeminiResponse.candidates response = Some (candidate :: more) ->
  (forall content parts part,
     Api.Candidate.content candidate = Some content ->
     Api.Content.parts content = Some parts ->
     In part parts -> hasInlineImage part = false) ->
  Api.generateImageWithGemini key prompt refs aspectRatio call
  = match Api.Candidate.content candidate with
    | None => Rejected (Api.TypeError_message "undefined" "parts")
    | Some _ => Rejected "No image data found in response"
    end.
Proof.
  intros Hk Hc Hcand Hparts. unfold Api.generateImageWithGemini.
  rewrite Hk, Hc, Hcand. cbn [negb].
  destruct (Api.Candidate.content candidate) as [content|]; [|reflexivity].
  destruct (Api.Content.parts content) as [parts|] eqn:Ep; [|reflexivity].
  rewrite (firstInlineImage_of_none parts); [reflexivity|].
  intros part Hin. exact (Hparts content parts part eq_refl Ep Hin).
Qed.

Lemma gemini_first_candidate_decides_witness :
  Api.generateImageWithGemini (Some "key") "a cat" [] "16:9"
    (fun _ =>
       Resolved
         {| Api.GeminiResponse.candidates :=
              Some [ {| Api.Candidate.content := None |};
                     candidateWith [imagePart] ] |})
  = match Api.Candidate.content {| Api.Candidate.content := None |} with
    | None => Rejected (Api.TypeError_message "undefined" "parts")
    | Some _ => Rejected "No image data found in response"
    end.
Proof.
  apply (gemini_first_candidate_decides (Some "key") "a cat" [] "16:9" _
           {| Api.GeminiResponse.candidates :=
                Some [ {| Api.Candidate.content := None |};
                       candidateWith [imagePart] ] |}
           {| Api.Candidate.content := None |}
           [ candidateWith [imagePart] ]).
  - reflexivity.
  - reflexivity.
  - reflexivity.
  - intros content parts part H. discriminate H.
Defined.

(** ** [generateImageCustom] *)

Lemma truthy_Some v : truthy v = true -> exists s, v = Some s /\ s <> EmptyString.
Proof.
  destruct v as [s|]; cbn [truthy]; [|discriminate].
  intros H. exists s. split; [reflexivity|].
  intros ->. discriminate H.
Qed.

(** X8: whenever the compatible synthesizer hands over a payload, it has
    sent exactly one request, the answer was ok, and the payload comes from
    the first entry of [data] alone: its [b64_json] as a PNG data URL, or,
    only when that is missing or empty, its [url]; the payload is not
    empty. *)
Theorem custom_payload_is_first_datum config prompt aspectRatio fetch requests
  payload :
  Api.generateImageCustom config prompt aspectRatio fetch
    = (requests, Resolved payload) ->
  requests = [Api.imagesRequest config prompt aspectRatio] /\
  payload <> EmptyString /\
  exists response d rest,
    fetch (Api.imagesRequest config prompt aspectRatio) = Resolved response /\
    Api.HttpResponse.ok response = true /\
    Api.HttpResponse.json response = Resolved (Some (d :: rest)) /\
    ((exists b64,
        Api.ImageDatum.b64_json d = Some b64 /\ b64 <> EmptyString /\
        payload = "data:image/png;base64," ++ b64) \/
     (truthy (Api.ImageDatum.b64_json d) = false /\
      Api.ImageDatum.url d = Some payload)).
Proof.
  unfold Api.generateImageCustom.
  destruct (negb (truthy (ModelConfig.endpoint config))
            || negb (truthy (ModelConfig.apiKey config)));
    [discriminate|].
  intros H. injection H as <- H. split; [reflexivity|].
  destruct (fetch _) as [response|]; [|discriminate].
  destruct (Api.HttpResponse.ok response) eqn:Eok; cbn [negb] in H.
  2:{ destruct (Api.HttpResponse.text response); discriminate. }
  destruct (Api.HttpResponse.json response) as [data|] eqn:Ej; [|discriminate].
  destruct data as [[|d rest]|]; cbn [Api.firstDatum] in H;
    try discriminate.
  destruct (truthy (Api.ImageDatum.b64_json d)) eqn:Eb.
  - destruct (truthy_Some _ Eb) as [b64 [E Hne]]. rewrite E in H.
    injection H as <-. split; [discriminate|].
    exists response, d, rest. repeat split; auto.
    left. exists b64. auto.
  - destruct (truthy (Api.ImageDatum.url d)) eqn:Eu; [|discriminate].
    destruct (truthy_Some _ Eu) as [u [E Hne]]. rewrite E in H.
    injection H as <-. split; [exact Hne|].
    exists response, d, rest. repeat split; auto.
Qed.

Lemma custom_payload_is_first_datum_witness :
  [Api.imagesRequest customWithKey "a cat" "1:1"]
    = [Api.imagesRequest customWithKey "a cat" "1:1"] /\
  "http://img/1.png" <> EmptyString /\
  exists response d rest,
    (fun _ => Resolved
                (okResponse
                   [ {| Api.ImageDatum.b64_json := Some EmptyString;
                        Api.ImageDatum.url := Some "http://img/1.png" |} ]))
      (Api.imagesRequest customWithKey "a cat" "1:1") = Resolved response /\
    Api.HttpResponse.ok response = true /\
    Api.HttpResponse.json response = Resolved (Some (d :: rest)) /\
    ((exists b64,
        Api.ImageDatum.b64_json d = Some b64 /\ b64 <> EmptyString /\
        "http://img/1.png" = "data:image/png;base64," ++ b64) \/
     (truthy (Api.ImageDatum.b64_json d) = false /\
      Api.ImageDatum.url d = Some "http://img/1.png")).
Proof.
  apply (custom_payload_is_first_datum customWithKey "a cat" "1:1"
           (fun _ => Resolved
                       (okResponse
                          [ {| Api.ImageDatum.b64_json := Some EmptyString;
                               Api.ImageDatum.url := Some "http://img/1.png" |} ]))).
  reflexivity.
Defined.

Lemma gemini_nonempty key prompt refs aspectRatio call payload :
  Api.generateImageWithGemini key prompt refs aspectRatio call
    = Resolved payload ->
  payload <> EmptyString.
Proof.
  unfold Api.generateImageWithGemini.
  destruct (negb (truthy key)); [discriminate|].
  destruct (call _) as [response|]; [|discriminate].
  destruct (Api.GeminiResponse.candidates response)
    as [[|[[[[parts|]]|]] more]|];
    cbn [Api.Candidate.content Api.Content.parts]; try discriminate.
  destruct (Api.firstInlineImage parts) as [url|] eqn:Ef; [|discriminate].
  intros H. injection H as <-.
  destruct (firstInlineImage_Some _ _ Ef) as (_ & part & _ & _ & _ & Hh & ->).
  apply dataUrlOf_nonempty, Hh.
Qed.

Lemma custom_nonempty config prompt aspectRatio fetch requests payload :
  Api.generateImageCustom config prompt aspectRatio fetch
    = (requests, Resolved payload) ->
  payload <> EmptyString.
Proof.
  unfold Api.generateImageCustom.
  destruct (negb (truthy (ModelConfig.endpoint config))
            || negb (truthy (ModelConfig.apiKey config)));
    [discriminate|].
  intros H. injection H as _ H.
  destruct (fetch _) as [response|]; [|discriminate].
  destruct (Api.HttpResponse.ok response); cbn [negb] in H.
  2:{ destruct (Api.HttpResponse.text response); discriminate. }
  destruct (Api.HttpResponse.json response) as [data|]; [|discriminate].
  destruct (truthy (Api.firstDatum Api.ImageDatum.b64_json data)) eqn:Eb.
  - destruct (truthy_Some _ Eb) as [b64 [E Hne]]. rewrite E in H.
    injection H as <-. discriminate.
  - destruct (truthy (Api.firstDatum Api.ImageDatum.url data)) eqn:Eu;
      [|discriminate].
    destruct (truthy_Some _ Eu) as [u [E Hne]]. rewrite E in H.
    injection H as <-. exact Hne.
Qed.

(** No synthesizer ever hands the orchestrator an empty payload. *)
Lemma synthesize_payload_nonempty env run prompt aspectRatio payload :
  synthesize env run prompt aspectRatio = Resolved payload ->
  payload <> EmptyString.
Proof.
  unfold synthesize. destruct (ModelConfig.type (activeModel run)).
  - intros H. apply gemini_nonempty in H. exact H.
  - destruct (Api.generateImageCustom (activeModel run) prompt aspectRatio
                (fetch env)) as [requests outcome] eqn:E.
    cbn [snd]. intros ->.
    apply custom_nonempty in E. exact E.
Qed.

(** * Further properties of the orchestrator *)

(** ** Runs that are cancelled, and runs whose syntheses fail *)

Lemma other_sessions_untouched_witness :
  findSession "3"
    (sessions (world (stateAfter (twoSessions ++ [(clockAt 7, KillTask "1")]))))
  = findSession "3" (sessions (world (stateAfter twoSessions)))
  /\ findRun "3" (runs (stateAfter (twoSessions ++ [(clockAt 7, KillTask "1")])))
     = findRun "3" (runs (stateAfter twoSessions)).
Proof.
  apply (other_sessions_untouched (clockAt 7) (KillTask "1")
           (stateAfter twoSessions)
           (stateAfter (twoSessions ++ [(clockAt 7, KillTask "1")])) "3").
  - vm_compute. reflexivity.
  - vm_compute. discriminate.
Defined.

Lemma stop_then_settle_witness :
  exists s2 run2,
    findSession "1"
      (sessions
         (world
            (stateAfter
               (twoForTwo ++ [(clockAt 4, KillTask "1");
                              (clockAt 5, SynthesisSettled "1" envOk)]))))
    = Some s2 /\
    findRun "1"
      (runs
         (stateAfter
            (twoForTwo ++ [(clockAt 4, KillTask "1");
                           (clockAt 5, SynthesisSettled "1" envOk)])))
    = Some run2 /\
    pc run2 = Returned /\
    Session.status s2 = stopped /\
    (Session.generatedImages s2
     = Session.generatedImages (sessionAfter twoForTwo "1") \/
     exists image,
       Session.generatedImages s2
       = (Session.generatedImages (sessionAfter twoForTwo "1") ++ [image])%list).
Proof.
  apply (stop_then_settle (clockAt 4) (clockAt 5) envOk
           (stateAfter twoForTwo)
           (stateAfter (twoForTwo ++ [(clockAt 4, KillTask "1")]))
           (stateAfter
              (twoForTwo ++ [(clockAt 4, KillTask "1");
                             (clockAt 5, SynthesisSettled "1" envOk)]))
           "1" (runAfter twoForTwo "1") 0 ["p1"; "p2"] "16:9"
           (sessionAfter twoForTwo "1"));
    vm_compute; reflexivity.
Defined.

Lemma all_failures_complete_witness :
  exists c' s' run',
    exec (settleAll "1" [(clockAt 4, envDown); (clockAt 5, envDown)])
      (stateAfter twoForTwo) = Some c' /\
    findSession "1" (sessions (world c')) = Some s' /\
    findRun "1" (runs c') = Some run' /\
    pc run' = Returned /\
    Session.status s' = completed /\
    Session.progress s' = 100 /\
    Session.generatedImages s'
    = Session.generatedImages (sessionAfter twoForTwo "1").
Proof.
  apply (all_failures_complete "1" ["p1"; "p2"] "16:9"
           [(clockAt 4, envDown); (clockAt 5, envDown)]
           (stateAfter twoForTwo) (runAfter twoForTwo "1") 0
           (sessionAfter twoForTwo "1")).
  - vm_compute. reflexivity.
  - vm_compute. reflexivity.
  - vm_compute. reflexivity.
  - vm_compute. reflexivity.
  - reflexivity.
  - discriminate.
  - repeat constructor; intros prompt; exists "503"; reflexivity.
Defined.

Lemma stop_then_expansion_witness :
  exists s2 run2,
    findSession "1"
      (sessions
         (world
            (stateAfter
               (firstn 2 twoForTwo
                ++ [(clockAt 3, KillTask "1");
                    (clockAt 4, Synthesize "a dog" [] 2);
                    (clockAt 5, ExpansionSettled "1" (Rejected "quota"))]))))
    = Some s2 /\
    findRun "1"
      (runs
         (stateAfter
            (firstn 2 twoForTwo
             ++ [(clockAt 3, KillTask "1");
                 (clockAt 4, Synthesize "a dog" [] 2);
                 (clockAt 5, ExpansionSettled "1" (Rejected "quota"))])))
    = Some run2 /\
    pc run2 = Returned /\
    Session.status s2 = stopped /\
    Session.generatedImages s2
    = Session.generatedImages (sessionAfter (firstn 2 twoForTwo) "1") /\
    Session.generatedPrompts s2
    = Session.generatedPrompts (sessionAfter (firstn 2 twoForTwo) "1").
Proof.
  apply (stop_then_expansion (clockAt 3) (clockAt 5) (Rejected "quota")
           [(clockAt 4, Synthesize "a dog" [] 2)]
           (stateAfter (firstn 2 twoForTwo))
           (stateAfter (firstn 2 twoForTwo ++ [(clockAt 3, KillTask "1")]))
           (stateAfter
              (firstn 2 twoForTwo
               ++ [(clockAt 3, KillTask "1");
                   (clockAt 4, Synthesize "a dog" [] 2)]))
           (stateAfter
              (firstn 2 twoForTwo
               ++ [(clockAt 3, KillTask "1");
                   (clockAt 4, Synthesize "a dog" [] 2);
                   (clockAt 5, ExpansionSettled "1" (Rejected "quota"))]))
           "1" (runAfter (firstn 2 twoForTwo) "1")
           (sessionAfter (firstn 2 twoForTwo) "1"));
    vm_compute; reflexivity.
Defined.

(** ** Properties of every session that the application reaches *)

Section PerSession.

Variable P : Session.t -> option Run -> Prop.

Hypothesis P_new : forall clk promptInput refImages genCount,
  In genCount COUNT_OPTIONS ->
  P (newSession clk promptInput refImages genCount) None.

Hypothesis P_start : forall clk s model,
  Good s None -> P s None ->
  P (startOn clk s)
    (Some {| sessionId := Session.id s; session := s; activeModel := model;
             pc := AwaitExpansion |}).

Hypothesis P_stop : forall clk s r, Good s r -> P s r -> P (stopOn clk s) r.

Hypothesis P_expansion : forall clk run result w s,
  Good s (Some run) -> P s (Some run) ->
  sessionId run = Session.id s ->
  pc run = AwaitExpansion ->
  P (resumeExpansionOn clk run result (abortControllerRef w) s)
    (Some (withPc (snd (resumeExpansion clk run result w)) run)).

Hypothesis P_synthesis : forall clk env run i dp ar w s,
  Good s (Some run) -> P s (Some run) ->
  sessionId run = Session.id s ->
  pc run = AwaitSynthesis i dp ar ->
  P (resumeSynthesisOn clk env run i dp ar (abortControllerRef w) s)
    (Some (withPc (snd (resumeSynthesis clk env run i dp ar w)) run)).

Lemma Everywhere_step clk e c c' :
  Inv c -> Everywhere P c -> step clk e c = Some c' -> Everywhere P c'.
Proof.
  intros [HG HR] HP Hstep sid s' Hs'.
  rewrite (step_run _ _ _ _ sid Hstep).
  rewrite (step_session _ _ _ _ sid Hstep) in Hs'.
  destruct e as [p r g|sid0 model|sid0|sid0 result|sid0 env];
    cbn [nextRun].
  - cbn [step] in Hstep.
    destruct (existsb (Nat.eqb g) COUNT_OPTIONS) eqn:Ex; [|discriminate].
    destruct (findSession (show (now clk)) (sessions (world c))) eqn:Ef;
      [discriminate|].
    destruct (String.eqb (show (now clk)) sid) eqn:E.
    + injection Hs' as <-. apply String.eqb_eq in E. subst sid.
      destruct (findRun (show (now clk)) (runs c)) as [run|] eqn:Er.
      { exfalso. exact (HR _ _ Er Ef). }
      apply existsb_exists in Ex. destruct Ex as (x & Hx & Hgx).
      apply Nat.eqb_eq in Hgx. subst x. apply P_new. exact Hx.
    + apply HP. exact Hs'.
  - destruct (findSession sid (sessions (world c))) as [s|] eqn:Es;
      [|discriminate].
    cbn [option_map effect] in Hs'. injection Hs' as <-.
    specialize (HG _ _ Es). specialize (HP _ _ Es).
    destruct (String.eqb sid sid0) eqn:E; [|exact HP].
    apply String.eqb_eq in E. subst sid0. rewrite Es.
    cbn [step] in Hstep.
    destruct (findRun sid (runs c)); [discriminate|].
    pose proof (findSession_id _ _ _ Es) as Hid. subst sid.
    apply P_start; assumption.
  - destruct (findSession sid (sessions (world c))) as [s|] eqn:Es;
      [|discriminate].
    cbn [option_map effect] in Hs'. injection Hs' as <-.
    specialize (HG _ _ Es). specialize (HP _ _ Es).
    destruct (String.eqb sid sid0); [|exact HP].
    apply P_stop; assumption.
  - destruct (findSession sid (sessions (world c))) as [s|] eqn:Es;
      [|discriminate].
    cbn [option_map effect] in Hs'. injection Hs' as <-.
    specialize (HG _ _ Es). specialize (HP _ _ Es).
    destruct (String.eqb sid sid0) eqn:E; [|exact HP].
    apply String.eqb_eq in E. subst sid0.
    cbn [step] in Hstep.
    destruct (findRun sid (runs c)) as [run|] eqn:Er; [|discriminate].
    destruct (pc run) eqn:Ep; try discriminate.
    cbn [option_map]. apply P_expansion; try assumption.
    rewrite (findRun_sessionId _ _ _ Er), (findSession_id _ _ _ Es).
    reflexivity.
  - destruct (findSession sid (sessions (world c))) as [s|] eqn:Es;
      [|discriminate].
    cbn [option_map effect] in Hs'. injection Hs' as <-.
    specialize (HG _ _ Es). specialize (HP _ _ Es).
    destruct (String.eqb sid sid0) eqn:E; [|exact HP].
    apply String.eqb_eq in E. subst sid0.
    cbn [step] in Hstep.
    destruct (findRun sid (runs c)) as [run|] eqn:Er; [|discriminate].
    destruct (pc run) as [|i dp ar|] eqn:Ep; try discriminate.
    cbn [option_map]. rewrite Ep. apply P_synthesis; try assumption.
    rewrite (findRun_sessionId _ _ _ Er), (findSession_id _ _ _ Es).
    reflexivity.
Qed.

Lemma Everywhere_exec trace :
  forall c c',
    Inv c -> Everywhere P c -> exec trace c = Some c' -> Everywhere P c'.
Proof.
  induction trace as [|[clk e] rest IH]; cbn [exec]; intros c c' HI HP H.
  - injection H as <-. exact HP.
  - destruct (step clk e c) as [c1|] eqn:Es; [|discriminate].
    apply (IH c1); [eapply Inv_step; eassumption| |exact H].
    eapply Everywhere_step; eassumption.
Qed.

Lemma Everywhere_reachable trace c :
  exec trace initial = Some c -> Everywhere P c.
Proof.
  apply Everywhere_exec; [apply Inv_initial|].
  intros sid s H. discriminate H.
Qed.

End PerSession.

(** *** What the segments do to the fields of a session *)

Lemma images_resumeExpansionOn clk run result abort s :
  Session.generatedImages (resumeExpansionOn clk run result abort s)
    = Session.generatedImages s /\
  Session.id (resumeExpansionOn clk run result abort s) = Session.id s.
Proof.
  unfold resumeExpansionOn, loopHeadOn.
  destruct abort;
    [|destruct (Nat.ltb 0
         (List.length (fst (expansionOrFallback run result))))];
    destruct result; split; reflexivity.
Qed.

Lemma prompts_resumeExpansionOn clk run result abort s :
  Session.generatedPrompts (resumeExpansionOn clk run result abort s)
    = if abort then Session.generatedPrompts s
      else fst (expansionOrFallback run result).
Proof.
  unfold resumeExpansionOn, loopHeadOn.
  destruct abort;
    [|destruct (Nat.ltb 0
         (List.length (fst (expansionOrFallback run result))))];
    destruct result; reflexivity.
Qed.

Lemma status_resumeExpansionOn clk run result abort s :
  Session.status (resumeExpansionOn clk run result abort s)
    = if abort then Session.status s
      else if Nat.ltb 0 (List.length (fst (expansionOrFallback run result)))
           then Session.status s else completed.
Proof.
  unfold resumeExpansionOn, loopHeadOn.
  destruct abort;
    [|destruct (Nat.ltb 0
         (List.length (fst (expansionOrFallback run result))))];
    destruct result; reflexivity.
Qed.

Lemma cancelled_resumeExpansionOn clk run result s :
  Session.progress (resumeExpansionOn clk run result true s)
    = Session.progress s.
Proof. unfold resumeExpansionOn. destruct result; reflexivity. Qed.

Lemma images_resumeSynthesisOn clk env run i dp ar abort s :
  Session.generatedImages (resumeSynthesisOn clk env run i dp ar abort s)
    = (Session.generatedImages s
       ++ match synthesize env run (nth i dp "undefined") ar with
          | Resolved payload =>
              [imageFor clk (sessionId run) i (nth i dp "undefined") payload]
          | Rejected _ => []
          end)%list /\
  Session.id (resumeSynthesisOn clk env run i dp ar abort s) = Session.id s.
Proof.
  unfold resumeSynthesisOn, loopHeadOn.
  destruct (synthesize env run (nth i dp "undefined") ar);
    destruct (Nat.ltb (i + 1) (List.length dp));
    destruct abort;
    unfold afterLoopOn, settleOn, imageOn, appendLog;
    cbn [negb Session.id Session.generatedImages Session.with_progress
         Session.with_status Session.with_logs Session.with_generatedImages];
    rewrite ?app_nil_r; split; reflexivity.
Qed.

Lemma status_resumeSynthesisOn clk env run i dp ar abort s :
  Session.status (resumeSynthesisOn clk env run i dp ar abort s)
    = if Nat.ltb (i + 1) (List.length dp) && negb abort
      then Session.status s
      else if abort then stopped else completed.
Proof.
  unfold resumeSynthesisOn, loopHeadOn.
  destruct (synthesize env run (nth i dp "undefined") ar);
    destruct (Nat.ltb (i + 1) (List.length dp));
    destruct abort; reflexivity.
Qed.

(** *** Subsequences and prefixes *)

Lemma Subseq_app_r {A} (l m k : list A) : Subseq l m -> Subseq l (m ++ k).
Proof.
  induction 1 as [m|x l m H IH|x l m H IH]; cbn [app].
  - apply Subseq_nil.
  - apply Subseq_skip, IH.
  - apply Subseq_take, IH.
Qed.

Lemma Subseq_snoc {A} (l m : list A) (x : A) :
  Subseq l m -> Subseq (l ++ [x]) (m ++ [x]).
Proof.
  induction 1 as [m|y l m H IH|y l m H IH]; cbn [app].
  - induction m as [|y m IH]; cbn [app].
    + apply Subseq_take, Subseq_nil.
    + apply Subseq_skip, IH.
  - apply Subseq_skip, IH.
  - apply Subseq_take, IH.
Qed.

Lemma firstn_snoc {A} (d : A) (l : list A) :
  forall i, i < List.length l ->
            firstn (i + 1) l = (firstn i l ++ [nth i l d])%list.
Proof.
  induction l as [|a l IH]; intros [|i] H; cbn [List.length] in H;
    try lia; cbn [Nat.add firstn nth app].
  - reflexivity.
  - f_equal. apply IH. lia.
Qed.

Lemma Subseq_firstn {A} (l m : list A) k : Subseq l (firstn k m) -> Subseq l m.
Proof.
  intros H. rewrite <- (firstn_skipn k m). apply Subseq_app_r. exact H.
Qed.

(** *** Printing numbers *)

Lemma to_uint_nonnil n : Nat.to_uint n <> Decimal.Nil.
Proof.
  intros H.
  assert (E : n = 0).
  { rewrite <- (DecimalNat.Unsigned.of_to n), H. reflexivity. }
  subst n. discriminate H.
Qed.

Lemma show_inj n m : show n = show m -> n = m.
Proof.
  unfold show. intros H.
  apply (f_equal NilZero.uint_of_string) in H.
  rewrite !NilZero.usu in H by apply to_uint_nonnil.
  injection H as H. apply DecimalNat.Unsigned.to_uint_inj. exact H.
Qed.

Lemma string_of_uint_digits d :
  occurs "_" (NilZero.string_of_uint d) = false.
Proof.
  assert (H : forall u, occurs "_" (NilEmpty.string_of_uint u) = false)
    by (induction u; simpl; auto).
  destruct d; try apply H. reflexivity.
Qed.

Lemma show_digits n : occurs "_" (show n) = false.
Proof. apply string_of_uint_digits. Qed.

Lemma append_cancel_l (s a b : string) : s ++ a = s ++ b -> a = b.
Proof.
  induction s as [|c s IH]; cbn [append]; intros H; [exact H|].
  injection H as H. exact (IH H).
Qed.

(** Two texts split at their first underscore. *)
Lemma split_at_underscore (a b x y : string) :
  occurs "_" a = false -> occurs "_" b = false ->
  a ++ String "_" x = b ++ String "_" y -> a = b /\ x = y.
Proof.
  revert b. induction a as [|c a IH]; intros [|d b] Ha Hb H;
    cbn [append occurs] in *.
  - injection H as H. auto.
  - injection H as Hc H. subst d. rewrite Ascii.eqb_refl in Hb. discriminate.
  - injection H as Hc H. subst c. rewrite Ascii.eqb_refl in Ha. discriminate.
  - injection H as Hc H. subst d.
    apply orb_false_elim in Ha, Hb.
    destruct (IH b (proj2 Ha) (proj2 Hb) H) as [-> ->]. auto.
Qed.

Lemma imageId_index sid t j t' j' :
  imageId sid t j = imageId sid t' j' -> j = j'.
Proof.
  unfold imageId. intros H. apply append_cancel_l in H.
  change ("_" ++ show t ++ "_" ++ show j)
    with (String "_" (show t ++ String "_" (show j))) in H.
  change ("_" ++ show t' ++ "_" ++ show j')
    with (String "_" (show t' ++ String "_" (show j'))) in H.
  injection H as H.
  apply split_at_underscore in H; try apply show_digits.
  apply show_inj, H.
Qed.

(** *** The images of a session follow its prompt list *)

Lemma servedPrompts_generated s r :
  Good s r ->
  forall l, Subseq l (servedPrompts s r) ->
            Subseq l (Session.generatedPrompts s).
Proof.
  intros (_ & _ & _ & _ & HP) l H.
  destruct r as [run|]; [|exact H].
  unfold servedPrompts in H. destruct HP as (_ & _ & HP).
  destruct (pc run) as [|i dp ar|]; try exact H.
  destruct HP as (-> & _). apply Subseq_firstn in H. exact H.
Qed.

Lemma Ordered_stopOn clk s r : Ordered s r -> Ordered (stopOn clk s) r.
Proof.
  intros H.
  assert (E : servedPrompts (stopOn clk s) r = servedPrompts s r).
  { destruct r as [run|]; [|reflexivity].
    unfold servedPrompts. destruct (pc run); reflexivity. }
  unfold Ordered. rewrite E. exact H.
Qed.

Lemma Ordered_resumeSynthesis clk env run i dp ar w s :
  Good s (Some run) ->
  Ordered s (Some run) ->
  pc run = AwaitSynthesis i dp ar ->
  Ordered (resumeSynthesisOn clk env run i dp ar (abortControllerRef w) s)
    (Some (withPc (snd (resumeSynthesis clk env run i dp ar w)) run)).
Proof.
  intros (_ & _ & _ & _ & _ & _ & HG) [HS HF] Ep.
  unfold servedPrompts in HS. rewrite Ep in HG, HS.
  destruct HG as (Hdp & Hi & _).
  unfold Ordered.
  destruct (images_resumeSynthesisOn clk env run i dp ar
              (abortControllerRef w) s) as [Ei _].
  destruct (prompts_resumeSynthesisOn clk env run i dp ar
              (abortControllerRef w) s) as [Eg _].
  rewrite Ei.
  assert (Hnext :
    Subseq
      (map GeneratedImage.prompt
         (Session.generatedImages s
          ++ match synthesize env run (nth i dp "undefined") ar with
             | Resolved payload =>
                 [imageFor clk (sessionId run) i (nth i dp "undefined")
                    payload]
             | Rejected _ => []
             end))
      (firstn (i + 1) dp)).
  { rewrite (firstn_snoc "undefined" dp i Hi), map_app.
    destruct (synthesize env run (nth i dp "undefined") ar);
      cbn [map GeneratedImage.prompt imageFor].
    - apply Subseq_snoc, HS.
    - rewrite app_nil_r. apply Subseq_app_r, HS. }
  split.
  - unfold servedPrompts. cbn [pc withPc]. rewrite pc_resumeSynthesis.
    destruct (Nat.ltb (i + 1) (List.length dp) && negb (abortControllerRef w)).
    + exact Hnext.
    + rewrite Eg, Hdp. apply Subseq_firstn in Hnext. exact Hnext.
  - apply Forall_app. split; [exact HF|].
    destruct (synthesize env run (nth i dp "undefined") ar) as [payload|]
      eqn:Es; constructor; [|constructor].
    split; [|reflexivity]. cbn [GeneratedImage.url imageFor].
    exact (synthesize_payload_nonempty _ _ _ _ _ Es).
Qed.

Lemma Ordered_reachable trace c :
  exec trace initial = Some c -> Everywhere Ordered c.
Proof.
  apply Everywhere_reachable.
  - intros clk p r g _. split; [apply Subseq_nil|constructor].
  - intros clk s model (_ & _ & _ & _ & HI & _) _.
    unfold Ordered.
    change (Session.generatedImages (startOn clk s))
      with (Session.generatedImages s).
    rewrite HI. split; [apply Subseq_nil|constructor].
  - intros clk s r _. apply Ordered_stopOn.
  - intros clk run result w s (_ & _ & _ & _ & _ & _ & HG) _ _ Ep.
    rewrite Ep in HG. destruct HG as (HI & _).
    unfold Ordered.
    destruct (images_resumeExpansionOn clk run result
                (abortControllerRef w) s) as [-> _].
    rewrite HI. split; [apply Subseq_nil|constructor].
  - intros clk env run i dp ar w s HG HO _ Ep.
    apply Ordered_resumeSynthesis; assumption.
Qed.

(** X13: in every state that the pipeline reaches by its own events (a
    session created, a run started, a cancellation, the expansion or a
    synthesis settled; the editor and the deletion of a session are not
    among them), the prompts of the images of a session, in the order of
    the images, are the adopted prompt list with some prompts left out: no
    image for a prompt that was not adopted, none out of order, at most one
    for each position.  Every image has a payload, and no tag: the pipeline
    gives none, tags come from the editor alone. *)
Theorem images_follow_prompt_order trace c sid s :
  exec trace initial = Some c ->
  findSession sid (sessions (world c)) = Some s ->
  Subseq (map GeneratedImage.prompt (Session.generatedImages s))
    (Session.generatedPrompts s) /\
  Forall fresh (Session.generatedImages s).
Proof.
  intros Hexec Hs.
  destruct (Inv_reachable _ _ Hexec) as [HG _].
  destruct (Ordered_reachable _ _ Hexec _ _ Hs) as [HO HF].
  split; [|exact HF].
  exact (servedPrompts_generated _ _ (HG _ _ Hs) _ HO).
Qed.

Lemma images_follow_prompt_order_witness :
  Subseq
    (map GeneratedImage.prompt
       (Session.generatedImages (sessionAfter threeForOne "1")))
    (Session.generatedPrompts (sessionAfter threeForOne "1")) /\
  Forall fresh (Session.generatedImages (sessionAfter threeForOne "1")).
Proof.
  apply (images_follow_prompt_order threeForOne (stateAfter threeForOne) "1");
    vm_compute; reflexivity.
Defined.

(** *** The ids of the images of a session *)

Lemma Identified_stopOn clk s r : Identified s r -> Identified (stopOn clk s) r.
Proof.
  intros H.
  assert (E : nextIndex (stopOn clk s) r = nextIndex s r).
  { destruct r as [run|]; [|reflexivity].
    unfold nextIndex. destruct (pc run); reflexivity. }
  unfold Identified. rewrite E. exact H.
Qed.

Lemma Identified_empty s r :
  Session.generatedImages s = [] -> Identified s r.
Proof. intros E. unfold Identified. rewrite E. split; constructor. Qed.

Lemma Identified_resumeSynthesis clk env run i dp ar w s :
  Good s (Some run) ->
  Identified s (Some run) ->
  sessionId run = Session.id s ->
  pc run = AwaitSynthesis i dp ar ->
  Identified (resumeSynthesisOn clk env run i dp ar (abortControllerRef w) s)
    (Some (withPc (snd (resumeSynthesis clk env run i dp ar w)) run)).
Proof.
  intros (_ & _ & _ & _ & _ & _ & HG) [HF HN] Hid Ep.
  unfold nextIndex in HF. rewrite Ep in HG, HF.
  destruct HG as (Hdp & Hi & _).
  unfold Identified.
  destruct (images_resumeSynthesisOn clk env run i dp ar
              (abortControllerRef w) s) as [Ei Es].
  destruct (prompts_resumeSynthesisOn clk env run i dp ar
              (abortControllerRef w) s) as [Eg _].
  rewrite Ei, Es.
  assert (Hb : i < nextIndex
                     (resumeSynthesisOn clk env run i dp ar
                        (abortControllerRef w) s)
                     (Some (withPc
                              (snd (resumeSynthesis clk env run i dp ar w))
                              run))).
  { unfold nextIndex. cbn [pc withPc]. rewrite pc_resumeSynthesis.
    destruct (Nat.ltb (i + 1) (List.length dp) && negb (abortControllerRef w));
      [lia|]. rewrite Eg, Hdp. exact Hi. }
  split.
  - apply Forall_app. split.
    + eapply Forall_impl; [|exact HF].
      intros image (t & j & E & Hj). exists t, j. split; [exact E|lia].
    + destruct (synthesize env run (nth i dp "undefined") ar) as [payload|];
        constructor; [|constructor].
      exists (now clk), i. split; [|exact Hb].
      cbn [GeneratedImage.id imageFor]. rewrite Hid. reflexivity.
  - rewrite map_app. apply NoDup_app; [exact HN| |].
    + destruct (synthesize env run (nth i dp "undefined") ar);
        cbn [map]; repeat constructor; intros [].
    + intros x Hx Hy. apply in_map_iff in Hx.
      destruct Hx as (image & <- & Himage).
      rewrite Forall_forall in HF.
      destruct (HF _ Himage) as (t & j & E & Hj).
      destruct (synthesize env run (nth i dp "undefined") ar) as [payload|];
        cbn [map In GeneratedImage.id imageFor] in Hy;
        [|contradiction].
      destruct Hy as [Hy|[]]. rewrite Hid, E in Hy.
      apply imageId_index in Hy. lia.
Qed.

Lemma Identified_reachable trace c :
  exec trace initial = Some c -> Everywhere Identified c.
Proof.
  apply Everywhere_reachable.
  - intros clk p r g _. apply Identified_empty. reflexivity.
  - intros clk s model (_ & _ & _ & _ & HI & _) _.
    apply Identified_empty. exact HI.
  - intros clk s r _. apply Identified_stopOn.
  - intros clk run result w s (_ & _ & _ & _ & _ & _ & HG) _ _ Ep.
    rewrite Ep in HG. destruct HG as (HI & _).
    apply Identified_empty.
    destruct (images_resumeExpansionOn clk run result
                (abortControllerRef w) s) as [-> _].
    exact HI.
  - intros clk env run i dp ar w s HG HO Hid Ep.
    apply Identified_resumeSynthesis; assumption.
Qed.

(** X14: in every state that the application reaches, the images of a
    session have pairwise distinct ids, and each id is the id of the
    session, a time and the position of the prompt in the adopted list,
    joined by underscores. *)
Theorem image_ids_are_distinct trace c sid s :
  exec trace initial = Some c ->
  findSession sid (sessions (world c)) = Some s ->
  NoDup (map GeneratedImage.id (Session.generatedImages s)) /\
  Forall
    (fun image =>
       exists t j,
         GeneratedImage.id image = imageId sid t j /\
         j < List.length (Session.generatedPrompts s))
    (Session.generatedImages s).
Proof.
  intros Hexec Hs.
  destruct (Inv_reachable _ _ Hexec) as [HG _].
  specialize (HG _ _ Hs).
  destruct (Identified_reachable _ _ Hexec _ _ Hs) as [HF HN].
  split; [exact HN|].
  rewrite (findSession_id _ _ _ Hs) in HF.
  eapply Forall_impl; [|exact HF].
  intros image (t & j & E & Hj). exists t, j. split; [exact E|].
  destruct HG as (_ & _ & _ & _ & HP).
  unfold nextIndex in Hj.
  destruct (findRun sid (runs c)) as [run|]; [|exact Hj].
  destruct HP as (_ & _ & HP).
  destruct (pc run) as [|i dp ar|]; try exact Hj.
  destruct HP as (-> & Hi & _). lia.
Qed.

Lemma image_ids_are_distinct_witness :
  NoDup
    (map GeneratedImage.id
       (Session.generatedImages (sessionAfter threeForOne "1"))) /\
  Forall
    (fun image =>
       exists t j,
         GeneratedImage.id image = imageId "1" t j /\
         j < List.length
               (Session.generatedPrompts (sessionAfter threeForOne "1")))
    (Session.generatedImages (sessionAfter threeForOne "1")).
Proof.
  apply (image_ids_are_distinct threeForOne (stateAfter threeForOne) "1");
    vm_compute; reflexivity.
Defined.

(** *** The status of a session and the place of its run *)

Lemma Tracked_stopOn clk s r : Tracked (stopOn clk s) r.
Proof.
  unfold Tracked. destruct r as [run|]; [destruct (pc run)|];
    cbn [stopOn appendLog Session.status Session.with_logs
         Session.with_status]; auto.
Qed.

Lemma Tracked_resumeExpansion clk run result w s :
  Good s (Some run) ->
  Tracked s (Some run) ->
  pc run = AwaitExpansion ->
  Tracked (resumeExpansionOn clk run result (abortControllerRef w) s)
    (Some (withPc (snd (resumeExpansion clk run result w)) run)).
Proof.
  intros (_ & _ & _ & _ & _ & _ & HG) HT Ep.
  unfold Tracked in HT. rewrite Ep in HG, HT.
  destruct HG as (HI & HP & HR & _).
  unfold Tracked. cbn [pc withPc]. rewrite pc_resumeExpansion.
  rewrite status_resumeExpansionOn, prompts_resumeExpansionOn.
  destruct (images_resumeExpansionOn clk run result (abortControllerRef w) s)
    as [-> _].
  destruct (abortControllerRef w).
  - rewrite cancelled_resumeExpansionOn. destruct HT as [HT|HT]; auto 6.
  - destruct (Nat.ltb 0 (List.length (fst (expansionOrFallback run result))));
      auto.
Qed.

Lemma Tracked_resumeSynthesis clk env run i dp ar w s :
  Tracked s (Some run) ->
  pc run = AwaitSynthesis i dp ar ->
  Tracked (resumeSynthesisOn clk env run i dp ar (abortControllerRef w) s)
    (Some (withPc (snd (resumeSynthesis clk env run i dp ar w)) run)).
Proof.
  intros HT Ep. unfold Tracked in HT. rewrite Ep in HT.
  unfold Tracked. cbn [pc withPc]. rewrite pc_resumeSynthesis.
  rewrite status_resumeSynthesisOn.
  destruct (Nat.ltb (i + 1) (List.length dp) && negb (abortControllerRef w)).
  - exact HT.
  - destruct (abortControllerRef w); auto.
Qed.

Lemma Tracked_reachable trace c :
  exec trace initial = Some c -> Everywhere Tracked c.
Proof.
  apply Everywhere_reachable.
  - intros clk p r g _. left. reflexivity.
  - intros clk s model _ _. left. reflexivity.
  - intros clk s r _ _. apply Tracked_stopOn.
  - intros clk run result w s HG HT _ Ep.
    apply Tracked_resumeExpansion; assumption.
  - intros clk env run i dp ar w s _ HT _ Ep.
    apply Tracked_resumeSynthesis; assumption.
Qed.

(** X15: in every state that the application reaches, the status of a
    session tells where its run stands.  An idle session has no run.  A
    completed session has a run that has returned, and progress 100.  A
    generating session has a run; if that run has returned, it did so at
    the cancellation check after the expansion, and the session has no
    prompts, no images and progress 5 (it shows as processing for ever).
    No session is failed. *)
Theorem status_tells_the_run trace c sid s :
  exec trace initial = Some c ->
  findSession sid (sessions (world c)) = Some s ->
  Session.status s <> failed /\
  (Session.status s = idle -> findRun sid (runs c) = None) /\
  (Session.status s = completed ->
   Session.progress s = 100 /\
   exists run, findRun sid (runs c) = Some run /\ pc run = Returned) /\
  (Session.status s = generating ->
   exists run,
     findRun sid (runs c) = Some run /\
     (pc run = Returned ->
      Session.generatedPrompts s = [] /\
      Session.generatedImages s = [] /\
      Session.progress s = 5)).
Proof.
  intros Hexec Hs.
  destruct (Inv_reachable _ _ Hexec) as [HG _].
  specialize (HG _ _ Hs). destruct HG as (_ & HF & HC & _).
  pose proof (Tracked_reachable _ _ Hexec _ _ Hs) as HT.
  unfold Tracked in HT.
  split; [exact HF|].
  destruct (findRun sid (runs c)) as [run|].
  - split; [|split].
    + intros E. rewrite E in HT.
      destruct (pc run); repeat destruct HT as [HT|HT];
        try discriminate HT; destruct HT; discriminate.
    + intros E. split; [exact (HC E)|]. exists run. split; [reflexivity|].
      rewrite E in HT.
      destruct (pc run); [| |reflexivity];
        destruct HT as [HT|HT]; discriminate HT.
    + intros E. exists run. split; [reflexivity|]. intros Ep.
      rewrite Ep, E in HT.
      destruct HT as [HT|[HT|(_ & HT)]]; try discriminate HT. exact HT.
  - split; [reflexivity|]. split; intros E; rewrite E in HT;
      destruct HT as [HT|HT]; discriminate HT.
Qed.

Lemma status_tells_the_run_witness :
  Session.status (sessionAfter strandedByStop "1") <> failed /\
  (Session.status (sessionAfter strandedByStop "1") = idle ->
   findRun "1" (runs (stateAfter strandedByStop)) = None) /\
  (Session.status (sessionAfter strandedByStop "1") = completed ->
   Session.progress (sessionAfter strandedByStop "1") = 100 /\
   exists run,
     findRun "1" (runs (stateAfter strandedByStop)) = Some run /\
     pc run = Returned) /\
  (Session.status (sessionAfter strandedByStop "1") = generating ->
   exists run,
     findRun "1" (runs (stateAfter strandedByStop)) = Some run /\
     (pc run = Returned ->
      Session.generatedPrompts (sessionAfter strandedByStop "1") = [] /\
      Session.generatedImages (sessionAfter strandedByStop "1") = [] /\
      Session.progress (sessionAfter strandedByStop "1") = 5)).
Proof.
  apply (status_tells_the_run strandedByStop (stateAfter strandedByStop) "1");
    vm_compute; reflexivity.
Defined.

(** * Properties of the workbench *)

(** ** Trimming *)

Lemma trimEnd_idempotent s :
  ImageEditorModal.trimEnd (ImageEditorModal.trimEnd s)
  = ImageEditorModal.trimEnd s.
Proof.
  induction s as [|c s IH]; [reflexivity|].
  cbn [ImageEditorModal.trimEnd].
  destruct (ImageEditorModal.trimEnd s) as [|d r] eqn:E.
  - destruct (ImageEditorModal.isWhiteSpace c) eqn:Ec; [reflexivity|].
    cbn [ImageEditorModal.trimEnd]. rewrite Ec. reflexivity.
  - change (ImageEditorModal.trimEnd (String c (String d r)))
      with (match ImageEditorModal.trimEnd (String d r) with
            | EmptyString =>
                if ImageEditorModal.isWhiteSpace c then EmptyString
                else String c EmptyString
            | String d' r' => String c (String d' r')
            end).
    rewrite IH. reflexivity.
Qed.

Lemma trimStart_head c s :
  ImageEditorModal.isWhiteSpace c = false ->
  ImageEditorModal.trimStart (String c s) = String c s.
Proof. intros H. cbn [ImageEditorModal.trimStart]. rewrite H. reflexivity. Qed.

Lemma trimStart_shape s :
  ImageEditorModal.trimStart s = EmptyString \/
  exists c r,
    ImageEditorModal.trimStart s = String c r /\
    ImageEditorModal.isWhiteSpace c = false.
Proof.
  induction s as [|c s IH]; [left; reflexivity|].
  cbn [ImageEditorModal.trimStart].
  destruct (ImageEditorModal.isWhiteSpace c) eqn:E; [exact IH|].
  right. exists c, s. auto.
Qed.

Lemma trimEnd_head c s :
  ImageEditorModal.isWhiteSpace c = false ->
  exists r, ImageEditorModal.trimEnd (String c s) = String c r.
Proof.
  intros H. cbn [ImageEditorModal.trimEnd].
  destruct (ImageEditorModal.trimEnd s) as [|d r].
  - rewrite H. eauto.
  - eauto.
Qed.

Lemma trim_idempotent s :
  ImageEditorModal.trim (ImageEditorModal.trim s) = ImageEditorModal.trim s.
Proof.
  unfold ImageEditorModal.trim.
  destruct (trimStart_shape s) as [->|(c & r & -> & Hc)]; [reflexivity|].
  destruct (trimEnd_head c r Hc) as [r' E]. rewrite E.
  rewrite (trimStart_head _ _ Hc), <- E. apply trimEnd_idempotent.
Qed.

Lemma trim_nonempty s :
  ImageEditorModal.trim s <> EmptyString -> s <> EmptyString.
Proof. intros H ->. apply H. reflexivity. Qed.

Lemma truthy_Some_true s : truthy (Some s) = true <-> s <> EmptyString.
Proof.
  cbn [truthy]. destruct (String.eqb_spec s EmptyString) as [->|H].
  - split; [discriminate|intros H; contradiction].
  - split; auto.
Qed.

(** ** Tidy tag lists *)

Lemma includes_In tag ts :
  ImageEditorModal.includes tag ts = true <-> In tag ts.
Proof.
  unfold ImageEditorModal.includes. rewrite existsb_exists. split.
  - intros (x & Hx & E). apply String.eqb_eq in E. subst. exact Hx.
  - intros H. exists tag. split; [exact H|apply String.eqb_refl].
Qed.

Lemma tidy_nil : tidy [].
Proof. split; constructor. Qed.

Lemma tidy_handleAddTag ts text :
  tidy ts -> tidy (fst (ImageEditorModal.handleAddTag ts text)).
Proof.
  intros [HN HF]. unfold ImageEditorModal.handleAddTag.
  destruct (truthy (Some (ImageEditorModal.trim text))) eqn:Et;
    cbn [andb fst]; [|split; assumption].
  destruct (ImageEditorModal.includes (ImageEditorModal.trim text) ts) eqn:Ei;
    cbn [negb fst]; [split; assumption|].
  apply truthy_Some_true in Et.
  assert (Hnot : ~ In (ImageEditorModal.trim text) ts).
  { intros H. apply includes_In in H. congruence. }
  split.
  - apply NoDup_app; [exact HN|repeat constructor; intros []|].
    intros a Ha [<-|[]]. contradiction.
  - apply Forall_app. split; [exact HF|].
    constructor; [|constructor]. split; [exact Et|apply trim_idempotent].
Qed.

Lemma tidy_handleRemoveTag tag ts :
  tidy ts -> tidy (ImageEditorModal.handleRemoveTag tag ts).
Proof.
  intros [HN HF]. unfold ImageEditorModal.handleRemoveTag. split.
  - apply NoDup_filter, HN.
  - rewrite Forall_forall in *. intros x Hx.
    apply filter_In in Hx. apply HF, Hx.
Qed.

(** ** Looking up sessions in a changed store *)

Lemma findSession_cons sid s ss :
  findSession sid (s :: ss) =
  if String.eqb (Session.id s) sid then Some s else findSession sid ss.
Proof. reflexivity. Qed.

Lemma findSession_filter sid id ss :
  findSession sid
    (filter (fun s => negb (String.eqb (Session.id s) id)) ss) =
  if String.eqb sid id then None else findSession sid ss.
Proof.
  unfold findSession. induction ss as [|a ss IH]; cbn [filter find].
  - destruct (String.eqb sid id); reflexivity.
  - destruct (String.eqb (Session.id a) id) eqn:Ea; cbn [negb find].
    + rewrite IH. destruct (String.eqb sid id) eqn:E; [reflexivity|].
      destruct (String.eqb (Session.id a) sid) eqn:Eb; [|reflexivity].
      apply String.eqb_eq in Ea, Eb. apply String.eqb_neq in E. congruence.
    + destruct (String.eqb (Session.id a) sid) eqn:Eb.
      * apply String.eqb_eq in Eb. apply String.eqb_neq in Ea.
        assert (E : String.eqb sid id = false)
          by (apply String.eqb_neq; congruence).
        rewrite E. reflexivity.
      * exact IH.
Qed.

Lemma findSession_handleImageSave sid id newUrl newTags ss ui :
  findSession sid (Workbench.handleImageSave id newUrl newTags ss ui) =
  match Workbench.activeSessionId ui with
  | Some active =>
      if truthy (Some active) && String.eqb sid active
      then option_map (Workbench.saveOn id newUrl newTags)
             (findSession sid ss)
      else findSession sid ss
  | None => findSession sid ss
  end.
Proof.
  unfold Workbench.handleImageSave.
  destruct (Workbench.activeSessionId ui) as [active|]; [|reflexivity].
  destruct (truthy (Some active)); cbn [andb]; [|reflexivity].
  apply (findSession_updateSession active sid
           (Workbench.saveOn id newUrl newTags)).
  reflexivity.
Qed.

(** ** What an event of the pipeline leaves alone *)

Lemma static_resumeExpansionOn clk run result abort s :
  Session.totalTarget (resumeExpansionOn clk run result abort s)
    = Session.totalTarget s /\
  Session.basePrompt (resumeExpansionOn clk run result abort s)
    = Session.basePrompt s /\
  Session.name (resumeExpansionOn clk run result abort s) = Session.name s.
Proof.
  unfold resumeExpansionOn, loopHeadOn.
  destruct abort;
    [|destruct (Nat.ltb 0
         (List.length (fst (expansionOrFallback run result))))];
    destruct result; repeat split; reflexivity.
Qed.

Lemma static_resumeSynthesisOn clk env run i dp ar abort s :
  Session.totalTarget (resumeSynthesisOn clk env run i dp ar abort s)
    = Session.totalTarget s /\
  Session.basePrompt (resumeSynthesisOn clk env run i dp ar abort s)
    = Session.basePrompt s /\
  Session.name (resumeSynthesisOn clk env run i dp ar abort s)
    = Session.name s.
Proof.
  unfold resumeSynthesisOn, loopHeadOn.
  destruct (synthesize env run (nth i dp "undefined") ar);
    destruct (Nat.ltb (i + 1) (List.length dp));
    destruct abort; repeat split; reflexivity.
Qed.

Lemma effect_static clk e c sid s :
  Session.totalTarget (effect clk e c sid s) = Session.totalTarget s /\
  Session.basePrompt (effect clk e c sid s) = Session.basePrompt s /\
  Session.name (effect clk e c sid s) = Session.name s.
Proof.
  destruct e as [p r g|sid0 model|sid0|sid0 result|sid0 env]; cbn [effect].
  - auto.
  - destruct (String.eqb sid sid0); auto.
  - destruct (String.eqb sid sid0); auto.
  - destruct (String.eqb sid sid0); auto.
    destruct (findRun sid0 (runs c)); auto.
    apply static_resumeExpansionOn.
  - destruct (String.eqb sid sid0); auto.
    destruct (findRun sid0 (runs c)) as [run|]; auto.
    destruct (pc run); auto.
    apply static_resumeSynthesisOn.
Qed.

Lemma effect_images clk e c sid s :
  exists added,
    Session.generatedImages (effect clk e c sid s)
    = (Session.generatedImages s ++ added)%list /\
    Forall (fun img => GeneratedImage.tags img = []) added.
Proof.
  assert (Hsame : forall x,
    Session.generatedImages x = Session.generatedImages s ->
    exists added,
      Session.generatedImages x = (Session.generatedImages s ++ added)%list /\
      Forall (fun img => GeneratedImage.tags img = []) added).
  { intros x E. exists []. rewrite app_nil_r. auto. }
  destruct e as [p r g|sid0 model|sid0|sid0 result|sid0 env]; cbn [effect].
  - apply Hsame. reflexivity.
  - destruct (String.eqb sid sid0); apply Hsame; reflexivity.
  - destruct (String.eqb sid sid0); apply Hsame; reflexivity.
  - destruct (String.eqb sid sid0); [|apply Hsame; reflexivity].
    destruct (findRun sid0 (runs c)); [|apply Hsame; reflexivity].
    apply Hsame. apply images_resumeExpansionOn.
  - destruct (String.eqb sid sid0); [|apply Hsame; reflexivity].
    destruct (findRun sid0 (runs c)) as [run|]; [|apply Hsame; reflexivity].
    destruct (pc run) as [|i dp ar|]; try (apply Hsame; reflexivity).
    destruct (images_resumeSynthesisOn clk env run i dp ar
                (abortControllerRef (world c)) s) as [E _].
    eexists. split; [exact E|].
    destruct (synthesize env run (nth i dp "undefined") ar);
      repeat constructor.
Qed.

(** ** One action, seen from the sessions of the store *)

Lemma step_sessions clk e c c' sid s' :
  step clk e c = Some c' ->
  findSession sid (sessions (world c')) = Some s' ->
  (exists p r g, e = Synthesize p r g) \/
  exists s,
    findSession sid (sessions (world c)) = Some s /\
    s' = effect clk e c sid s.
Proof.
  intros Hstep Hs'. rewrite (step_session _ _ _ _ sid Hstep) in Hs'.
  destruct e as [p r g|sid0 model|sid0|sid0 result|sid0 env];
    [left; eauto| | | |]; right;
    (destruct (findSession sid (sessions (world c))) as [s|];
     [|discriminate]);
    injection Hs' as <-; eauto.
Qed.

Lemma step_found clk e c c' sid :
  step clk e c = Some c' ->
  findSession sid (sessions (world c)) <> None ->
  findSession sid (sessions (world c')) <> None.
Proof.
  intros Hstep H. rewrite (step_session _ _ _ _ sid Hstep).
  destruct e as [p r g|sid0 model|sid0|sid0 result|sid0 env];
    try (destruct (findSession sid (sessions (world c)));
         [discriminate|contradiction]).
  destruct (String.eqb (show (now clk)) sid); [discriminate|exact H].
Qed.

Lemma Kept_effect clk e c sid s : Kept s -> Kept (effect clk e c sid s).
Proof.
  intros (HT & HB & HN & HE & HI).
  destruct (effect_static clk e c sid s) as (ET & EB & EN).
  destruct (effect_images clk e c sid s) as (added & EI & HA).
  unfold Kept. rewrite ET, EB, EN, EI.
  repeat split; try assumption.
  apply Forall_app. split; [exact HI|].
  eapply Forall_impl; [|exact HA].
  intros img E. rewrite E. apply tidy_nil.
Qed.

Lemma Kept_saveOn id newUrl ts s :
  tidy ts -> Kept s -> Kept (Workbench.saveOn id newUrl ts s).
Proof.
  intros Hts (HT & HB & HN & HE & HI).
  unfold Kept, Workbench.saveOn.
  cbn [Session.totalTarget Session.basePrompt Session.name
       Session.generatedImages Session.with_generatedImages].
  repeat split; try assumption.
  rewrite Forall_forall in *. intros img Himg.
  apply in_map_iff in Himg. destruct Himg as (img0 & <- & H0).
  unfold Workbench.editImage.
  destruct (String.eqb (GeneratedImage.id img0) id);
    cbn [GeneratedImage.tags]; auto.
Qed.

Lemma substring_head n c s :
  substring 0 (S n) (String c s) = String c (substring 0 n s).
Proof. reflexivity. Qed.

Lemma Kept_newSession clk promptInput refImages genCount :
  truthy (Some (ImageEditorModal.trim promptInput)) = true ->
  In genCount COUNT_OPTIONS ->
  Kept (newSession clk promptInput refImages genCount).
Proof.
  intros Ht Hg. apply truthy_Some_true in Ht.
  pose proof (trim_nonempty _ Ht) as Hp.
  assert (Hsub : substring 0 30 promptInput <> EmptyString).
  { destruct promptInput as [|c r]; [contradiction|].
    rewrite substring_head. discriminate. }
  unfold Kept, newSession.
  cbn [Session.totalTarget Session.basePrompt Session.name
       Session.generatedImages].
  destruct (String.eqb_spec (substring 0 30 promptInput) EmptyString);
    [contradiction|].
  repeat split; auto.
Qed.

(** ** The models of the runs *)

Lemma activeModel_step clk e c c' (ms : list ModelConfig.t) :
  step clk e c = Some c' ->
  match e with TimerFired _ model => In model ms | _ => True end ->
  Forall (fun r => In (activeModel r) ms) (runs c) ->
  Forall (fun r => In (activeModel r) ms) (runs c').
Proof.
  assert (Hset : forall sid p rs,
    Forall (fun r => In (activeModel r) ms) rs ->
    Forall (fun r => In (activeModel r) ms) (setPc sid p rs)).
  { intros sid p rs H. unfold setPc. rewrite Forall_forall in *.
    intros r Hr. apply in_map_iff in Hr. destruct Hr as (r0 & <- & H0).
    destruct (String.eqb (sessionId r0) sid); cbn [activeModel withPc];
      apply H, H0. }
  destruct e as [p r g|sid0 model|sid0|sid0 result|sid0 env];
    cbn [step]; intros H Hm HF.
  - destruct (existsb (Nat.eqb g) COUNT_OPTIONS); [|discriminate].
    destruct (findSession (show (now clk)) (sessions (world c)));
      [discriminate|].
    injection H as <-. exact HF.
  - destruct (findRun sid0 (runs c)); [discriminate|].
    unfold startGeneration in H.
    destruct (findSession sid0 (sessions (world c)));
      injection H as <-; cbn [runs]; [|exact HF].
    constructor; [exact Hm|exact HF].
  - injection H as <-. exact HF.
  - destruct (findRun sid0 (runs c)) as [run|]; [|discriminate].
    destruct (pc run); try discriminate.
    destruct (resumeExpansion clk run result (world c)) as [w p].
    injection H as <-. apply Hset, HF.
  - destruct (findRun sid0 (runs c)) as [run|]; [|discriminate].
    destruct (pc run) as [|i dp ar|]; try discriminate.
    destruct (resumeSynthesis clk env run i dp ar (world c)) as [w p].
    injection H as <-. apply Hset, HF.
Qed.

Lemma Forall_removeAt {A} (Q : A -> Prop) k (l : list A) :
  Forall Q l -> Forall Q (Workbench.removeAt k l).
Proof.
  revert k. induction l as [|x l IH]; intros k H;
    [destruct k; constructor|].
  inversion H as [|y m Hx Hl]; subst.
  destruct k as [|k]; cbn [Workbench.removeAt]; [exact Hl|].
  constructor; [exact Hx|apply IH, Hl].
Qed.

Lemma existsb_app_l {A} (f : A -> bool) l m :
  existsb f l = true -> existsb f (l ++ m) = true.
Proof. intros H. rewrite existsb_app, H. reflexivity. Qed.

Lemma hd_error_app {A} (x : A) l m :
  hd_error l = Some x -> hd_error (l ++ m) = Some x.
Proof. destruct l; [discriminate|]. auto. Qed.

Lemma listed_handleSave clk f config f' :
  filled f ->
  SettingsModal.handleSave clk f = (Some config, f') ->
  listed config /\ f' = SettingsModal.blank.
Proof.
  intros (Ht & Hn & Hm & He & Hk). unfold SettingsModal.handleSave.
  destruct (SettingsModal.name f) as [n|]; [|discriminate].
  destruct (SettingsModal.modelId f) as [m|]; [|discriminate].
  destruct (truthy (Some n)) eqn:En; [|discriminate].
  destruct (truthy (Some m)) eqn:Em; [|discriminate].
  cbn [andb]. intros H. injection H as <- <-. split; [|reflexivity].
  right. cbn [ModelConfig.type ModelConfig.name ModelConfig.modelId
              ModelConfig.endpoint ModelConfig.apiKey].
  rewrite Ht. apply truthy_Some_true in En, Em. auto.
Qed.

Lemma filled_handleSave clk f :
  filled f -> filled (snd (SettingsModal.handleSave clk f)).
Proof.
  intros H. unfold SettingsModal.handleSave.
  destruct (SettingsModal.name f) as [n|]; [|exact H].
  destruct (SettingsModal.modelId f) as [m|]; [|exact H].
  destruct (truthy (Some n) && truthy (Some m)); [|exact H].
  cbn [snd]. unfold filled, SettingsModal.blank.
  cbn [SettingsModal.type SettingsModal.name SettingsModal.modelId
       SettingsModal.endpoint SettingsModal.apiKey].
  repeat split; discriminate.
Qed.

Lemma filled_onChange field value f :
  filled f -> filled (SettingsModal.onChange field value f).
Proof.
  intros (Ht & Hn & Hm & He & Hk).
  destruct field; unfold filled, SettingsModal.onChange;
    cbn [SettingsModal.type SettingsModal.name SettingsModal.modelId
         SettingsModal.endpoint SettingsModal.apiKey];
    repeat split; try assumption; discriminate.
Qed.

Lemma filteredImages_In ss ui img :
  In img (Workbench.filteredImages ss ui) ->
  exists id s,
    Workbench.activeSessionId ui = Some id /\
    findSession id ss = Some s /\
    In img (Session.generatedImages s).
Proof.
  unfold Workbench.filteredImages, Workbench.activeSession.
  destruct (Workbench.activeSessionId ui) as [id|]; [|intros []].
  destruct (findSession id ss) as [s|] eqn:E; [|intros []].
  intros H. apply filter_In in H. exists id, s. intuition.
Qed.

(** ** The invariant of the workbench *)

Ltac wb_cbn :=
  cbn [Workbench.ui Workbench.form Workbench.editingImage Workbench.tags
       Workbench.newTag Workbench.app Workbench.timers Workbench.readers
       Workbench.withUi Workbench.withForm Workbench.withEditor
       Workbench.withApp Workbench.withTimers Workbench.withReaders
       Workbench.setSessions
       Workbench.activeSessionId Workbench.activeModelId
       Workbench.modelConfigs Workbench.activeFilterTag
       Workbench.promptInput Workbench.refImages Workbench.genCount
       Workbench.setActiveSessionId Workbench.setActiveModelId
       Workbench.setModelConfigs Workbench.setActiveFilterTag
       Workbench.setPromptInput Workbench.setRefImages Workbench.setGenCount
       Workbench.handleNewSession Workbench.onloadend
       world runs sessions abortControllerRef withSessions fst snd option_map]
    in *.

Ltac sound_split :=
  unfold Sound; wb_cbn;
  (split; [|split; [|split; [|split; [|split; [|split; [|split; [|split;
     [|split]]]]]]]]).

Lemma Sound_initial : Sound Workbench.initialState.
Proof.
  sound_split; try (constructor; fail).
  - cbn. auto.
  - apply tidy_nil.
  - intros sid s H. discriminate H.
  - intros id H. discriminate H.
  - constructor; [left; reflexivity|constructor].
  - unfold filled. cbn. repeat split; discriminate.
Qed.

Lemma Sound_act clk a st st' :
  Sound st -> Workbench.act clk a st = Some st' -> Sound st'.
Proof.
  intros (S1 & S2 & S3 & S4 & S5 & S6 & S7 & S8 & S9 & S10) H.
  destruct a; cbn [Workbench.act] in H.
  - (* NewSession *)
    injection H as <-. sound_split; try assumption.
    + cbn. auto.
    + intros id E. discriminate E.
  - (* SelectSession *)
    unfold Workbench.handleSelectSession in H.
    destruct (findSession id (sessions (world (Workbench.app st))))
      as [session|] eqn:E; injection H as <-; sound_split; try assumption.
    + destruct (S3 _ _ E) as (HT & _). exact HT.
    + intros id0 E0. injection E0 as <-. rewrite E. discriminate.
  - (* DeleteSession *)
    unfold Workbench.onDeleteSession in H. injection H as <-.
    assert (H3 : forall sid s,
      findSession sid
        (filter (fun s0 => negb (String.eqb (Session.id s0) id))
           (sessions (world (Workbench.app st)))) = Some s -> Kept s).
    { intros sid s. rewrite findSession_filter.
      destruct (String.eqb sid id); [discriminate|apply S3]. }
    destruct (Workbench.activeSessionId (Workbench.ui st)) as [active|] eqn:Ea.
    + destruct (String.eqb active id) eqn:Ei; sound_split; try assumption.
      * intros id0 E0. discriminate E0.
      * intros id0 E0. rewrite Ea in E0. injection E0 as <-.
        rewrite findSession_filter, Ei. apply S4. reflexivity.
    + sound_split; try assumption.
      intros id0 E0. rewrite Ea in E0. discriminate E0.
  - (* TypePrompt *)
    injection H as <-. sound_split; assumption.
  - (* PickCount *)
    destruct (existsb (Nat.eqb opt) COUNT_OPTIONS) eqn:Ex; [|discriminate].
    injection H as <-. sound_split; try assumption.
    apply existsb_exists in Ex. destruct Ex as (x & Hx & E).
    apply Nat.eqb_eq in E. subst x. exact Hx.
  - (* SelectFiles *)
    destruct (Workbench.handleFileSelection files (Workbench.ui st));
      injection H as <-; sound_split; assumption.
  - (* FileLoaded *)
    destruct (nth_error (Workbench.readers st) k); [|discriminate].
    injection H as <-. sound_split; assumption.
  - (* RemoveRef *)
    destruct (Nat.ltb idx (List.length (Workbench.refImages (Workbench.ui st))));
      [|discriminate].
    injection H as <-. sound_split; assumption.
  - (* ClickSynthesize *)
    destruct (truthy
                (Some (ImageEditorModal.trim
                         (Workbench.promptInput (Workbench.ui st)))))
      eqn:Et; [|discriminate].
    destruct (Workbench.unused (show (now clk)) st) eqn:Eu; [|discriminate].
    cbn [andb] in H. unfold Workbench.createSession in H.
    injection H as <-. sound_split; try assumption.
    + intros sid s. unfold createSession. rewrite findSession_cons.
      change (Session.id
                (newSession clk (Workbench.promptInput (Workbench.ui st))
                   (Workbench.refImages (Workbench.ui st))
                   (Workbench.genCount (Workbench.ui st))))
        with (show (now clk)).
      destruct (String.eqb (show (now clk)) sid); [|apply S3].
      intros E. injection E as <-. apply Kept_newSession; assumption.
    + intros id E. injection E as <-. unfold createSession.
      rewrite findSession_cons.
      change (Session.id
                (newSession clk (Workbench.promptInput (Workbench.ui st))
                   (Workbench.refImages (Workbench.ui st))
                   (Workbench.genCount (Workbench.ui st))))
        with (show (now clk)).
      rewrite String.eqb_refl. discriminate.
    + apply Forall_app. split; [exact S9|].
      constructor; [|constructor]. cbn [snd].
      unfold Workbench.activeModel.
      destruct (find
                  (fun m =>
                     String.eqb (ModelConfig.id m)
                       (Workbench.activeModelId (Workbench.ui st)))
                  (Workbench.modelConfigs (Workbench.ui st))) as [m|] eqn:Ef.
      * apply find_some in Ef. apply Ef.
      * destruct (Workbench.modelConfigs (Workbench.ui st));
          [discriminate|].
        injection S5 as ->. left. reflexivity.
  - (* TimerFires *)
    destruct (nth_error (Workbench.timers st) k) as [[sid model]|] eqn:Ek;
      [|discriminate].
    destruct (step clk (TimerFired sid model) (Workbench.app st))
      as [c|] eqn:Hstep; [|discriminate].
    injection H as <-.
    assert (Hm : In model (Workbench.modelConfigs (Workbench.ui st))).
    { rewrite Forall_forall in S9.
      apply (S9 (sid, model)). eapply nth_error_In, Ek. }
    sound_split; try assumption.
    + intros sid0 s' Hs'.
      destruct (step_sessions _ _ _ _ _ _ Hstep Hs')
        as [(p & r & g & E)|(s & Hs & ->)]; [discriminate|].
      apply Kept_effect, (S3 _ _ Hs).
    + intros id E. apply (step_found _ _ _ _ _ Hstep), S4, E.
    + apply Forall_removeAt, S9.
    + apply (activeModel_step _ _ _ _ _ Hstep); assumption.
  - (* KillTask *)
    destruct (Workbench.activeSession (sessions (world (Workbench.app st)))
                (Workbench.ui st)) as [s0|]; [|discriminate].
    destruct (Session.status s0); try discriminate.
    destruct (step clk (KillTask (Session.id s0)) (Workbench.app st))
      as [c|] eqn:Hstep; [|discriminate].
    injection H as <-. sound_split; try assumption.
    + intros sid0 s' Hs'.
      destruct (step_sessions _ _ _ _ _ _ Hstep Hs')
        as [(p & r & g & E)|(s & Hs & ->)]; [discriminate|].
      apply Kept_effect, (S3 _ _ Hs).
    + intros id E. apply (step_found _ _ _ _ _ Hstep), S4, E.
    + apply (activeModel_step _ _ _ _ _ Hstep); [exact I|assumption].
  - (* Settled *)
    assert (Hkind : forall p r g, e <> Synthesize p r g).
    { intros p r g ->. discriminate H. }
    assert (Hmodel :
      match e with
      | TimerFired _ model =>
          In model (Workbench.modelConfigs (Workbench.ui st))
      | _ => True
      end).
    { destruct e; try exact I. discriminate H. }
    assert (Hstep' : exists c,
      step clk e (Workbench.app st) = Some c /\ st' = Workbench.withApp c st).
    { destruct e; try discriminate H;
        (destruct (step clk _ (Workbench.app st)) as [c|];
         [|discriminate H]); injection H as <-; eauto. }
    destruct Hstep' as (c & Hstep & ->). clear H.
    sound_split; try assumption.
    + intros sid0 s' Hs'.
      destruct (step_sessions _ _ _ _ _ _ Hstep Hs')
        as [(p & r & g & E)|(s & Hs & ->)]; [exfalso; exact (Hkind _ _ _ E)|].
      apply Kept_effect, (S3 _ _ Hs).
    + intros id E. apply (step_found _ _ _ _ _ Hstep), S4, E.
    + apply (activeModel_step _ _ _ _ _ Hstep); assumption.
  - (* EditForm *)
    injection H as <-. sound_split; try assumption.
    apply filled_onChange, S8.
  - (* SaveModel *)
    pose proof (filled_handleSave clk _ S8) as Hf.
    destruct (SettingsModal.handleSave clk (Workbench.form st))
      as [[config|] newConfig] eqn:Es; injection H as <-;
      sound_split; try assumption.
    + apply hd_error_app, S5.
    + apply existsb_app_l, S6.
    + apply Forall_app. split; [exact S7|].
      constructor; [|constructor].
      apply (listed_handleSave _ _ _ _ S8 Es).
    + eapply Forall_impl; [|exact S9].
      intros t Ht. apply in_or_app. left. exact Ht.
    + eapply Forall_impl; [|exact S10].
      intros t Ht. apply in_or_app. left. exact Ht.
  - (* SelectModel *)
    destruct (existsb (fun m => String.eqb (ModelConfig.id m) id)
                (Workbench.modelConfigs (Workbench.ui st))) eqn:Ex;
      [|discriminate].
    injection H as <-. sound_split; assumption.
  - (* PickTag *)
    destruct (Workbench.uniqueTags (sessions (world (Workbench.app st)))
                (Workbench.ui st)) as [|t0 all]; [discriminate|].
    destruct tag as [t|].
    + destruct (ImageEditorModal.includes t (t0 :: all)); [|discriminate].
      injection H as <-. sound_split; assumption.
    + injection H as <-. sound_split; assumption.
  - (* OpenEditor *)
    destruct (nth_error
                (Workbench.filteredImages
                   (sessions (world (Workbench.app st))) (Workbench.ui st)) k)
      as [image|] eqn:Ek; [|discriminate].
    injection H as <-. sound_split; try assumption.
    apply nth_error_In in Ek.
    destruct (filteredImages_In _ _ _ Ek) as (id & s & _ & Hs & Hin).
    destruct (S3 _ _ Hs) as (_ & _ & _ & _ & HI).
    rewrite Forall_forall in HI. apply HI, Hin.
  - (* TypeTag *)
    destruct (Workbench.editingImage st); [|discriminate].
    injection H as <-. sound_split; assumption.
  - (* AddTag *)
    destruct (Workbench.editingImage st); [|discriminate].
    pose proof (tidy_handleAddTag (Workbench.tags st) (Workbench.newTag st) S2)
      as Ht.
    destruct (ImageEditorModal.handleAddTag (Workbench.tags st)
                (Workbench.newTag st)) as [ts text].
    injection H as <-. sound_split; assumption.
  - (* RemoveTag *)
    destruct (Workbench.editingImage st); [|discriminate].
    destruct (ImageEditorModal.includes tag (Workbench.tags st));
      [|discriminate].
    injection H as <-. sound_split; try assumption.
    apply tidy_handleRemoveTag, S2.
  - (* SaveChanges *)
    destruct (Workbench.editingImage st) as [image|]; [|discriminate].
    injection H as <-. sound_split; try assumption.
    + intros sid s'. rewrite findSession_handleImageSave.
      destruct (Workbench.activeSessionId (Workbench.ui st)) as [active|];
        [|apply S3].
      destruct (truthy (Some active) && String.eqb sid active); [|apply S3].
      destruct (findSession sid (sessions (world (Workbench.app st))))
        as [s|] eqn:Hs; [|discriminate].
      cbn [option_map]. intros E. injection E as <-.
      apply Kept_saveOn; [exact S2|apply (S3 _ _ Hs)].
    + intros id E. rewrite findSession_handleImageSave, E.
      specialize (S4 _ E).
      destruct (truthy (Some id) && String.eqb id id); [|exact S4].
      destruct (findSession id (sessions (world (Workbench.app st))));
        [discriminate|contradiction].
  - (* CloseEditor *)
    destruct (Workbench.editingImage st); [|discriminate].
    injection H as <-. sound_split; assumption.
Qed.

Lemma Sound_play script :
  forall st st', Sound st -> Workbench.play script st = Some st' -> Sound st'.
Proof.
  induction script as [|[clk a] rest IH]; cbn [Workbench.play];
    intros st st' HS H.
  - injection H as <-. exact HS.
  - destruct (Workbench.act clk a st) as [st1|] eqn:Ea; [|discriminate].
    apply (IH st1); [|exact H]. eapply Sound_act; eassumption.
Qed.

Lemma Sound_reachable script st :
  Workbench.play script Workbench.initialState = Some st -> Sound st.
Proof. apply Sound_play, Sound_initial. Qed.

(** ** What the workbench guarantees of sessions, tags and models *)

(** X17: in every state that the workbench reaches, the target of a
    session is one of the counts on offer (so it is positive), its base
    prompt is not blank, and its name is the first 30 characters of that
    prompt and not empty: the name [Untitled Task] that [createSession]
    falls back on is never used. *)
Theorem sessions_are_well_formed script st sid s :
  Workbench.play script Workbench.initialState = Some st ->
  findSession sid (sessions (world (Workbench.app st))) = Some s ->
  In (Session.totalTarget s) COUNT_OPTIONS /\
  0 < Session.totalTarget s /\
  ImageEditorModal.trim (Session.basePrompt s) <> EmptyString /\
  Session.name s = substring 0 30 (Session.basePrompt s) /\
  Session.name s <> EmptyString.
Proof.
  intros Hplay Hs.
  destruct (Sound_reachable _ _ Hplay) as (_ & _ & S3 & _).
  destruct (S3 _ _ Hs) as (HT & HB & HN & HE & _).
  pose proof (COUNT_OPTIONS_pos _ HT). auto.
Qed.

Lemma sessions_are_well_formed_witness :
  In (Session.totalTarget (newSession (clockAt 6) "a cat" [] 2)) COUNT_OPTIONS /\
  0 < Session.totalTarget (newSession (clockAt 6) "a cat" [] 2) /\
  ImageEditorModal.trim
    (Session.basePrompt (newSession (clockAt 6) "a cat" [] 2))
    <> EmptyString /\
  Session.name (newSession (clockAt 6) "a cat" [] 2)
    = substring 0 30
        (Session.basePrompt (newSession (clockAt 6) "a cat" [] 2)) /\
  Session.name (newSession (clockAt 6) "a cat" [] 2) <> EmptyString.
Proof.
  apply (sessions_are_well_formed (firstn 6 visit)
           (visited (firstn 6 visit)) "6");
    vm_compute; reflexivity.
Defined.

(** X18: in every state that the workbench reaches, the id of the active
    session, when there is one, is the id of a session of the store, and
    the id of the active model is the id of a configuration of the list,
    whose first entry is the built-in model: neither lookup falls back. *)
Theorem active_ids_resolve script st :
  Workbench.play script Workbench.initialState = Some st ->
  (forall id,
     Workbench.activeSessionId (Workbench.ui st) = Some id ->
     exists s,
       Workbench.activeSession (sessions (world (Workbench.app st)))
         (Workbench.ui st) = Some s /\
       Session.id s = id) /\
  find
    (fun m =>
       String.eqb (ModelConfig.id m)
         (Workbench.activeModelId (Workbench.ui st)))
    (Workbench.modelConfigs (Workbench.ui st))
  = Some (Workbench.activeModel (Workbench.ui st)) /\
  hd_error (Workbench.modelConfigs (Workbench.ui st)) = Some DEFAULT_MODEL.
Proof.
  intros Hplay.
  destruct (Sound_reachable _ _ Hplay) as (_ & _ & _ & S4 & S5 & S6 & _).
  split; [|split; [|exact S5]].
  - intros id E. specialize (S4 _ E). unfold Workbench.activeSession.
    rewrite E.
    destruct (findSession id (sessions (world (Workbench.app st))))
      as [s|] eqn:Es; [|contradiction].
    exists s. split; [reflexivity|exact (findSession_id _ _ _ Es)].
  - unfold Workbench.activeModel.
    destruct (find
                (fun m =>
                   String.eqb (ModelConfig.id m)
                     (Workbench.activeModelId (Workbench.ui st)))
                (Workbench.modelConfigs (Workbench.ui st))) as [m|] eqn:Ef;
      [reflexivity|].
    apply existsb_exists in S6. destruct S6 as (x & Hx & E).
    pose proof (find_none _ _ Ef _ Hx) as Hn. cbv beta in Hn. congruence.
Qed.

Lemma active_ids_resolve_witness :
  (forall id,
     Workbench.activeSessionId (Workbench.ui (visited visit)) = Some id ->
     exists s,
       Workbench.activeSession
         (sessions (world (Workbench.app (visited visit))))
         (Workbench.ui (visited visit)) = Some s /\
       Session.id s = id) /\
  find
    (fun m =>
       String.eqb (ModelConfig.id m)
         (Workbench.activeModelId (Workbench.ui (visited visit))))
    (Workbench.modelConfigs (Workbench.ui (visited visit)))
  = Some (Workbench.activeModel (Workbench.ui (visited visit))) /\
  hd_error (Workbench.modelConfigs (Workbench.ui (visited visit)))
  = Some DEFAULT_MODEL.
Proof.
  apply (active_ids_resolve visit (visited visit)).
  vm_compute. reflexivity.
Defined.

(** X19: in every state that the workbench reaches, the tags of every
    image, and the tags that the editor holds, are without repetition, and
    each tag is trimmed and not empty. *)
Theorem tags_are_tidy script st :
  Workbench.play script Workbench.initialState = Some st ->
  tidy (Workbench.tags st) /\
  forall sid s,
    findSession sid (sessions (world (Workbench.app st))) = Some s ->
    Forall (fun img => tidy (GeneratedImage.tags img))
      (Session.generatedImages s).
Proof.
  intros Hplay.
  destruct (Sound_reachable _ _ Hplay) as (_ & S2 & S3 & _).
  split; [exact S2|].
  intros sid s Hs. apply (S3 _ _ Hs).
Qed.

Lemma tags_are_tidy_witness :
  tidy (Workbench.tags (visited visit)) /\
  forall sid s,
    findSession sid (sessions (world (Workbench.app (visited visit))))
    = Some s ->
    Forall (fun img => tidy (GeneratedImage.tags img))
      (Session.generatedImages s).
Proof.
  apply (tags_are_tidy visit (visited visit)).
  vm_compute. reflexivity.
Defined.

(** X20: in every state that the workbench reaches, the model of every
    run, and of every timer that is still to fire, is a configuration of
    the settings list: the built-in model, or a configuration of the
    compatible type with a name and a model id that are not empty.  In
    particular a run of type GEMINI uses the built-in model. *)
Theorem runs_use_listed_models script st :
  Workbench.play script Workbench.initialState = Some st ->
  Forall (fun r => listed (activeModel r)) (runs (Workbench.app st)) /\
  Forall (fun t => listed (snd t)) (Workbench.timers st) /\
  Forall
    (fun r =>
       ModelConfig.type (activeModel r) = GEMINI ->
       activeModel r = DEFAULT_MODEL)
    (runs (Workbench.app st)).
Proof.
  intros Hplay.
  destruct (Sound_reachable _ _ Hplay)
    as (_ & _ & _ & _ & _ & _ & S7 & _ & S9 & S10).
  rewrite Forall_forall in S7.
  assert (H10 : Forall (fun r => listed (activeModel r))
                  (runs (Workbench.app st))).
  { eapply Forall_impl; [|exact S10]. intros r Hr. apply S7, Hr. }
  split; [exact H10|]. split.
  - eapply Forall_impl; [|exact S9]. intros t Ht. apply S7, Ht.
  - eapply Forall_impl; [|exact H10].
    intros r [E|(E & _)] Ht; [exact E|congruence].
Qed.

Lemma runs_use_listed_models_witness :
  Forall (fun r => listed (activeModel r))
    (runs (Workbench.app (visited visit))) /\
  Forall (fun t => listed (snd t)) (Workbench.timers (visited visit)) /\
  Forall
    (fun r =>
       ModelConfig.type (activeModel r) = GEMINI ->
       activeModel r = DEFAULT_MODEL)
    (runs (Workbench.app (visited visit))).
Proof.
  apply (runs_use_listed_models visit (visited visit)).
  vm_compute. reflexivity.
Defined.

(** ** The workbench and the pipeline *)

Lemma exec_snoc trace clk e c c1 c2 :
  exec trace c = Some c1 ->
  step clk e c1 = Some c2 ->
  exec (trace ++ [(clk, e)]) c = Some c2.
Proof.
  revert c. induction trace as [|[clk0 e0] rest IH]; cbn [app exec];
    intros c H Hstep.
  - injection H as ->. rewrite Hstep. reflexivity.
  - destruct (step clk0 e0 c) as [c'|]; [|discriminate].
    apply IH; assumption.
Qed.

Lemma act_step clk a st st' :
  Sound st ->
  Workbench.act clk a st = Some st' ->
  leavesStore a = true ->
  Workbench.app st' = Workbench.app st \/
  exists e, step clk e (Workbench.app st) = Some (Workbench.app st').
Proof.
  intros (S1 & _) H Hl.
  destruct a; cbn [Workbench.act] in H; try discriminate Hl;
    try (left;
         repeat match type of H with
                | context [match ?x with _ => _ end] => destruct x
                | context [if ?x then _ else _] => destruct x
                end;
         try discriminate H; injection H as <-; reflexivity).
  - (* ClickSynthesize *)
    destruct (truthy
                (Some (ImageEditorModal.trim
                         (Workbench.promptInput (Workbench.ui st)))));
      [|discriminate].
    destruct (Workbench.unused (show (now clk)) st) eqn:Eu; [|discriminate].
    cbn [andb] in H. unfold Workbench.createSession in H.
    injection H as <-. right.
    exists (Synthesize (Workbench.promptInput (Workbench.ui st))
              (Workbench.refImages (Workbench.ui st))
              (Workbench.genCount (Workbench.ui st))).
    cbn [step].
    assert (Ex : existsb (Nat.eqb (Workbench.genCount (Workbench.ui st)))
                   COUNT_OPTIONS = true).
    { apply existsb_exists. eexists. split; [exact S1|].
      apply Nat.eqb_refl. }
    rewrite Ex. unfold Workbench.unused in Eu.
    destruct (findSession (show (now clk))
                (sessions (world (Workbench.app st)))); [discriminate|].
    reflexivity.
  - (* TimerFires *)
    destruct (nth_error (Workbench.timers st) k) as [[sid model]|];
      [|discriminate].
    destruct (step clk (TimerFired sid model) (Workbench.app st))
      as [c|] eqn:Hstep; [|discriminate].
    injection H as <-. right. eauto.
  - (* KillTask *)
    destruct (Workbench.activeSession (sessions (world (Workbench.app st)))
                (Workbench.ui st)) as [s0|]; [|discriminate].
    destruct (Session.status s0); try discriminate.
    destruct (step clk (KillTask (Session.id s0)) (Workbench.app st))
      as [c|] eqn:Hstep; [|discriminate].
    injection H as <-. right. eauto.
  - (* Settled *)
    right. exists e.
    destruct e; try discriminate H;
      (destruct (step clk _ (Workbench.app st)) as [c|];
       [|discriminate H]); injection H as <-; reflexivity.
Qed.

Lemma play_exec script :
  forall st st' trace,
    Sound st ->
    exec trace initial = Some (Workbench.app st) ->
    Workbench.play script st = Some st' ->
    forallb (fun ca => leavesStore (snd ca)) script = true ->
    exists trace', exec trace' initial = Some (Workbench.app st').
Proof.
  induction script as [|[clk a] rest IH];
    cbn [Workbench.play forallb snd]; intros st st' trace HS He H Hl.
  - injection H as <-. eauto.
  - destruct (Workbench.act clk a st) as [st1|] eqn:Ea; [|discriminate].
    apply andb_prop in Hl. destruct Hl as [Ha Hrest].
    pose proof (Sound_act _ _ _ _ HS Ea) as HS1.
    destruct (act_step _ _ _ _ HS Ea Ha) as [E|(e & Hstep)].
    + apply (IH st1 st' trace); try assumption. rewrite E. exact He.
    + apply (IH st1 st' (trace ++ [(clk, e)])%list); try assumption.
      eapply exec_snoc; eassumption.
Qed.

(** X21: as long as no session is deleted and no edited image is saved,
    the state of the pipeline that the workbench has reached is a state
    that the pipeline reaches by a sequence of its own events; what holds
    of every such state holds in the workbench.  In particular the count of
    a new session is always one of the counts on offer.  Both transition
    systems take a click on Synthesize only at a clock reading that is not
    the id of a session yet: [createSession] makes no such test, and the
    statement is about the runs of the application in which no two sessions
    are created within the same millisecond. *)
Theorem workbench_refines_pipeline script st :
  Workbench.play script Workbench.initialState = Some st ->
  forallb (fun ca => leavesStore (snd ca)) script = true ->
  exists trace, exec trace initial = Some (Workbench.app st).
Proof.
  intros Hplay Hl.
  apply (play_exec script Workbench.initialState st []);
    [apply Sound_initial|reflexivity|exact Hplay|exact Hl].
Qed.

Lemma workbench_refines_pipeline_witness :
  exists trace,
    exec trace initial = Some (Workbench.app (visited (firstn 12 visit))).
Proof.
  apply (workbench_refines_pipeline (firstn 12 visit)
           (visited (firstn 12 visit)));
    vm_compute; reflexivity.
Defined.

(** ** A session that is deleted while its run is under way *)

Lemma updateSession_absent sid f ss :
  findSession sid ss = None -> updateSession sid f ss = ss.
Proof.
  unfold findSession, updateSession. intros H.
  rewrite <- (map_id ss) at 2. apply map_ext_in.
  intros s Hs. pose proof (find_none _ _ H _ Hs) as E. cbv beta in E.
  rewrite E. reflexivity.
Qed.

Lemma addLog_absent clk sid message ss :
  findSession sid ss = None -> addLog clk sid message ss = ss.
Proof. rewrite addLog_updateSession. apply updateSession_absent. Qed.

Lemma afterLoop_absent clk sid w :
  findSession sid (sessions w) = None ->
  sessions (afterLoop clk sid w) = sessions w.
Proof.
  intros H. unfold afterLoop.
  destruct (abortControllerRef w); cbn [negb withSessions sessions].
  - apply updateSession_absent, H.
  - rewrite updateSession_absent by exact H. apply addLog_absent, H.
Qed.

Lemma loopHead_absent clk sid i dp ar w :
  findSession sid (sessions w) = None ->
  sessions (fst (loopHead clk sid i dp ar w)) = sessions w.
Proof.
  intros H. unfold loopHead.
  destruct (Nat.ltb i (List.length dp)); cbn [fst].
  - destruct (abortControllerRef w); cbn [fst withSessions sessions].
    + apply afterLoop_absent, H.
    + apply addLog_absent, H.
  - apply afterLoop_absent, H.
Qed.

Lemma resumeSynthesis_absent clk env run i dp ar w :
  findSession (sessionId run) (sessions w) = None ->
  sessions (fst (resumeSynthesis clk env run i dp ar w)) = sessions w.
Proof.
  intros H. unfold resumeSynthesis.
  assert (E : match synthesize env run (nth i dp "undefined") ar with
              | Resolved base64OrUrl =>
                  handleImageResult clk (sessionId run) i
                    (nth i dp "undefined") base64OrUrl (sessions w)
              | Rejected message =>
                  addLog clk (sessionId run)
                    ("Error generating image " ++ show (i + 1) ++ ": "
                     ++ message) (sessions w)
              end = sessions w).
  { destruct (synthesize env run (nth i dp "undefined") ar).
    - unfold handleImageResult. rewrite H. reflexivity.
    - apply addLog_absent, H. }
  rewrite E. rewrite loopHead_absent; cbn [withSessions sessions];
    [reflexivity|exact H].
Qed.

Lemma resumeExpansion_absent clk run result w :
  findSession (sessionId run) (sessions w) = None ->
  sessions (fst (resumeExpansion clk run result w)) = sessions w.
Proof.
  intros H. unfold resumeExpansion.
  destruct (expansionOrFallback run result) as [dp ar].
  assert (E : logFallback clk run result (sessions w) = sessions w).
  { unfold logFallback. destruct result; [reflexivity|].
    apply addLog_absent, H. }
  rewrite E. cbn [withSessions abortControllerRef sessions].
  destruct (abortControllerRef w) eqn:Ea; cbn [fst sessions];
    [reflexivity|].
  assert (E2 : adoptPrompts clk (sessionId run) dp ar (sessions w)
               = sessions w).
  { unfold adoptPrompts.
    rewrite updateSession_absent by exact H.
    rewrite (addLog_absent clk _ _ (sessions w)) by exact H.
    apply addLog_absent, H. }
  rewrite E2. rewrite loopHead_absent; cbn [withSessions sessions];
    [reflexivity|exact H].
Qed.

(** X16: deleting a session does not end its run.  With the session gone
    from the store, the settlement of the expansion or of a synthesis
    writes nothing, and the run goes on as it would have: after the
    synthesis of item [i] it asks for the next item, unless cancellation was
    requested or the list is exhausted.  The images it pays for are
    dropped. *)
Theorem deleted_session_keeps_running clk env result run i dp ar w ui :
  let ss := fst (Workbench.onDeleteSession (sessionId run) (sessions w) ui) in
  findSession (sessionId run) ss = None /\
  sessions (fst (resumeExpansion clk run result (withSessions ss w))) = ss /\
  sessions (fst (resumeSynthesis clk env run i dp ar (withSessions ss w)))
  = ss /\
  snd (resumeSynthesis clk env run i dp ar (withSessions ss w))
  = (if Nat.ltb (i + 1) (List.length dp) && negb (abortControllerRef w)
     then AwaitSynthesis (i + 1) dp ar else Returned).
Proof.
  cbv zeta. unfold Workbench.onDeleteSession. cbn [fst].
  assert (H : findSession (sessionId run)
                (filter
                   (fun s => negb (String.eqb (Session.id s) (sessionId run)))
                   (sessions w)) = None).
  { rewrite findSession_filter, String.eqb_refl. reflexivity. }
  split; [exact H|]. split; [|split].
  - apply (resumeExpansion_absent clk run result
             (withSessions _ w)). exact H.
  - apply (resumeSynthesis_absent clk env run i dp ar
             (withSessions _ w)). exact H.
  - rewrite pc_resumeSynthesis. reflexivity.
Qed.

(** ** Saving an edited image *)

Lemma map_editImage_other id newUrl newTags l :
  ~ In id (map GeneratedImage.id l) ->
  map (Workbench.editImage id newUrl newTags) l = l.
Proof.
  intros H. rewrite <- (map_id l) at 2. apply map_ext_in.
  intros img Himg. unfold Workbench.editImage.
  destruct (String.eqb_spec (GeneratedImage.id img) id) as [E|_];
    [|reflexivity].
  exfalso. apply H. rewrite <- E. apply in_map, Himg.
Qed.

(** X22: [handleImageSave] on the active session, whose images have
    distinct ids: the image with the given id gets the new payload and the
    new tags and keeps its id, prompt, time and place; no other image and no
    other field of the session changes, and every other session is as it
    was. *)
Theorem image_save_changes_one_image newUrl newTags ss ui sid s pre img post :
  Workbench.activeSessionId ui = Some sid ->
  sid <> EmptyString ->
  findSession sid ss = Some s ->
  Session.generatedImages s = (pre ++ img :: post)%list ->
  NoDup (map GeneratedImage.id (Session.generatedImages s)) ->
  findSession sid
    (Workbench.handleImageSave (GeneratedImage.id img) newUrl newTags ss ui)
  = Some
      (Session.with_generatedImages
         (pre
          ++ {| GeneratedImage.id := GeneratedImage.id img;
                GeneratedImage.url := newUrl;
                GeneratedImage.prompt := GeneratedImage.prompt img;
                GeneratedImage.timestamp := GeneratedImage.timestamp img;
                GeneratedImage.tags := newTags |} :: post) s) /\
  forall other,
    other <> sid ->
    findSession other
      (Workbench.handleImageSave (GeneratedImage.id img) newUrl newTags ss ui)
    = findSession other ss.
Proof.
  intros Ha Hne Hs Himgs Hnd.
  split.
  - rewrite findSession_handleImageSave, Ha.
    apply truthy_Some_true in Hne. rewrite Hne, String.eqb_refl, Hs.
    cbn [andb option_map]. unfold Workbench.saveOn. rewrite Himgs.
    rewrite Himgs, map_app in Hnd. cbn [map] in Hnd.
    apply NoDup_remove_2 in Hnd.
    rewrite map_app. cbn [map].
    rewrite (map_editImage_other _ _ _ pre), (map_editImage_other _ _ _ post).
    + unfold Workbench.editImage. rewrite String.eqb_refl. reflexivity.
    + intros H. apply Hnd, in_or_app. right. exact H.
    + intros H. apply Hnd, in_or_app. left. exact H.
  - intros other Ho. rewrite findSession_handleImageSave, Ha.
    apply String.eqb_neq in Ho. rewrite Ho, andb_false_r. reflexivity.
Qed.

Lemma image_save_changes_one_image_witness :
  findSession "6"
    (Workbench.handleImageSave
       (GeneratedImage.id (imageFor (clockAt 9) "6" 0 "p1" "data:,A"))
       "data:,B" ["night"]
       [Session.with_generatedImages
          [imageFor (clockAt 9) "6" 0 "p1" "data:,A";
           imageFor (clockAt 10) "6" 1 "p2" "data:,A"]
          (newSession (clockAt 6) "a cat" [] 2)]
       (Workbench.setActiveSessionId (Some "6") Workbench.initialUi))
  = Some
      (Session.with_generatedImages
         ([]
          ++ {| GeneratedImage.id :=
                  GeneratedImage.id
                    (imageFor (clockAt 9) "6" 0 "p1" "data:,A");
                GeneratedImage.url := "data:,B";
                GeneratedImage.prompt :=
                  GeneratedImage.prompt
                    (imageFor (clockAt 9) "6" 0 "p1" "data:,A");
                GeneratedImage.timestamp :=
                  GeneratedImage.timestamp
                    (imageFor (clockAt 9) "6" 0 "p1" "data:,A");
                GeneratedImage.tags := ["night"] |}
             :: [imageFor (clockAt 10) "6" 1 "p2" "data:,A"])
         (Session.with_generatedImages
            [imageFor (clockAt 9) "6" 0 "p1" "data:,A";
             imageFor (clockAt 10) "6" 1 "p2" "data:,A"]
            (newSession (clockAt 6) "a cat" [] 2))) /\
  forall other,
    other <> "6" ->
    findSession other
      (Workbench.handleImageSave
         (GeneratedImage.id (imageFor (clockAt 9) "6" 0 "p1" "data:,A"))
         "data:,B" ["night"]
         [Session.with_generatedImages
            [imageFor (clockAt 9) "6" 0 "p1" "data:,A";
             imageFor (clockAt 10) "6" 1 "p2" "data:,A"]
            (newSession (clockAt 6) "a cat" [] 2)]
         (Workbench.setActiveSessionId (Some "6") Workbench.initialUi))
    = findSession other
        [Session.with_generatedImages
           [imageFor (clockAt 9) "6" 0 "p1" "data:,A";
            imageFor (clockAt 10) "6" 1 "p2" "data:,A"]
           (newSession (clockAt 6) "a cat" [] 2)].
Proof.
  apply (image_save_changes_one_image "data:,B" ["night"]
           [Session.with_generatedImages
              [imageFor (clockAt 9) "6" 0 "p1" "data:,A";
               imageFor (clockAt 10) "6" 1 "p2" "data:,A"]
              (newSession (clockAt 6) "a cat" [] 2)]
           (Workbench.setActiveSessionId (Some "6") Workbench.initialUi)
           "6"
           (Session.with_generatedImages
              [imageFor (clockAt 9) "6" 0 "p1" "data:,A";
               imageFor (clockAt 10) "6" 1 "p2" "data:,A"]
              (newSession (clockAt 6) "a cat" [] 2))
           [] (imageFor (clockAt 9) "6" 0 "p1" "data:,A")
           [imageFor (clockAt 10) "6" 1 "p2" "data:,A"]).
  - reflexivity.
  - discriminate.
  - vm_compute. reflexivity.
  - reflexivity.
  - vm_compute. repeat constructor; cbn; intuition discriminate.
Defined.

(** ** The gallery: tags, filter and export *)

Lemma fromSet_spec values :
  forall seen,
    NoDup (Workbench.fromSet seen values) /\
    forall x,
      In x (Workbench.fromSet seen values) <-> In x values /\ ~ In x seen.
Proof.
  induction values as [|v rest IH]; intros seen; cbn [Workbench.fromSet].
  - split; [constructor|]. intros x. cbn [In]. tauto.
  - destruct (ImageEditorModal.includes v seen) eqn:E.
    + apply includes_In in E. destruct (IH seen) as [HN HI].
      split; [exact HN|]. intros x. rewrite HI. cbn [In].
      split; [tauto|]. intros [[->|H] Hx]; [contradiction|tauto].
    + assert (Hv : ~ In v seen).
      { intros H. apply includes_In in H. congruence. }
      destruct (IH (v :: seen)) as [HN HI]. split.
      * constructor; [|exact HN]. intros H. apply HI in H.
        apply (proj2 H). left. reflexivity.
      * intros x. cbn [In]. rewrite HI. cbn [In].
        destruct (string_dec v x) as [->|Hne]; tauto.
Qed.

Lemma filter_all {A} (f : A -> bool) l :
  (forall x, In x l -> f x = true) -> filter f l = l.
Proof.
  induction l as [|a l IH]; intros H; [reflexivity|].
  cbn [filter]. rewrite (H a) by (left; reflexivity).
  f_equal. apply IH. intros x Hx. apply H. right. exact Hx.
Qed.

(** X23: the tag buttons and the filter of the gallery.  The buttons show
    the tags of the images of the active session, each once.  With no tag
    picked (or the empty tag) every image is shown; with a tag picked, the
    images that carry it, in the order of the gallery; and a tag of a button
    shows at least one image. *)
Theorem gallery_tags ss ui :
  NoDup (Workbench.uniqueTags ss ui) /\
  (forall tag,
     In tag (Workbench.uniqueTags ss ui) <->
     exists img, In img (gallery ss ui) /\ In tag (GeneratedImage.tags img)) /\
  (truthy (Workbench.activeFilterTag ui) = false ->
   Workbench.filteredImages ss ui = gallery ss ui) /\
  (forall tag,
     Workbench.activeFilterTag ui = Some tag ->
     tag <> EmptyString ->
     Workbench.filteredImages ss ui
     = filter (fun img => ImageEditorModal.includes tag (GeneratedImage.tags img))
         (gallery ss ui)) /\
  (forall tag,
     In tag (Workbench.uniqueTags ss ui) ->
     tag <> EmptyString ->
     Workbench.filteredImages ss (Workbench.setActiveFilterTag (Some tag) ui)
     <> []).
Proof.
  assert (Htags : forall tag,
    In tag (Workbench.uniqueTags ss ui) <->
    exists img, In img (gallery ss ui) /\ In tag (GeneratedImage.tags img)).
  { intros tag. unfold Workbench.uniqueTags, gallery.
    destruct (Workbench.activeSession ss ui) as [s|].
    - destruct (fromSet_spec
                  (flat_map GeneratedImage.tags (Session.generatedImages s))
                  []) as [_ HI].
      rewrite HI, in_flat_map. cbn [In]. tauto.
    - cbn [In]. split; [tauto|]. intros (img & [] & _). }
  split; [|split; [exact Htags|split; [|split]]].
  - unfold Workbench.uniqueTags.
    destruct (Workbench.activeSession ss ui) as [s|]; [|constructor].
    apply fromSet_spec.
  - intros Hf. unfold Workbench.filteredImages, gallery.
    destruct (Workbench.activeSession ss ui) as [s|]; [|reflexivity].
    apply filter_all. intros img _. rewrite Hf. reflexivity.
  - intros tag Ht Hne. unfold Workbench.filteredImages, gallery.
    destruct (Workbench.activeSession ss ui) as [s|]; [|reflexivity].
    rewrite Ht. apply truthy_Some_true in Hne. rewrite Hne. reflexivity.
  - intros tag Hin Hne. apply Htags in Hin.
    destruct Hin as (img & Himg & Htag).
    unfold Workbench.filteredImages, gallery in *.
    change (Workbench.activeSession ss
              (Workbench.setActiveFilterTag (Some tag) ui))
      with (Workbench.activeSession ss ui).
    destruct (Workbench.activeSession ss ui) as [s|]; [|destruct Himg].
    intros E.
    assert (Hshown :
      In img
        (filter
           (fun img0 =>
              negb
                (truthy
                   (Workbench.activeFilterTag
                      (Workbench.setActiveFilterTag (Some tag) ui)))
              || match
                   Workbench.activeFilterTag
                     (Workbench.setActiveFilterTag (Some tag) ui)
                 with
                 | Some tag0 =>
                     ImageEditorModal.includes tag0
                       (GeneratedImage.tags img0)
                 | None => false
                 end)
           (Session.generatedImages s))).
    { apply filter_In. split; [exact Himg|].
      cbn [Workbench.activeFilterTag Workbench.setActiveFilterTag].
      apply includes_In in Htag. rewrite Htag. apply orb_true_r. }
    rewrite E in Hshown. destruct Hshown.
Qed.

Lemma forEach_fst {A} (f : A -> string) (g : A -> nat -> string) xs :
  forall k, map fst (Workbench.forEach (fun x idx => (f x, g x idx)) k xs)
            = map f xs.
Proof.
  induction xs as [|x xs IH]; intros k; cbn [Workbench.forEach map fst];
    [reflexivity|].
  f_equal. apply IH.
Qed.

Lemma forEach_names {A} (f : A -> string) (g : nat -> string) xs :
  forall k name,
    In name
      (map snd (Workbench.forEach (fun x idx => (f x, g idx)) k xs)) ->
    exists j, k <= j /\ name = g j.
Proof.
  induction xs as [|x xs IH]; intros k name; cbn [Workbench.forEach map snd In];
    [intros []|].
  intros [<-|H]; [exists k; auto|].
  destruct (IH _ _ H) as (j & Hj & E). exists j. split; [lia|exact E].
Qed.

Lemma forEach_NoDup {A} (f : A -> string) (g : nat -> string) xs :
  (forall i j, g i = g j -> i = j) ->
  forall k,
    NoDup (map snd (Workbench.forEach (fun x idx => (f x, g idx)) k xs)).
Proof.
  intros Hg. induction xs as [|x xs IH]; intros k;
    cbn [Workbench.forEach map snd]; constructor; [|apply IH].
  intros H. destruct (forEach_names _ _ _ _ _ H) as (j & Hj & E).
  apply Hg in E. lia.
Qed.

(** X24: [downloadVisible] clicks one link for each image that the gallery
    shows, in their order, each with the payload of its image, and no two
    of these downloads have the same file name. *)
Theorem downloads_are_distinct ss ui :
  map fst (Workbench.downloadVisible ss ui)
  = map GeneratedImage.url (Workbench.filteredImages ss ui) /\
  NoDup (map snd (Workbench.downloadVisible ss ui)).
Proof.
  unfold Workbench.downloadVisible.
  destruct (Workbench.activeSession ss ui) as [s|] eqn:Ea.
  - split.
    + apply (forEach_fst GeneratedImage.url).
    + apply (forEach_NoDup GeneratedImage.url
               (fun idx =>
                  "synth_" ++ Session.id s ++ "_" ++ show idx ++ "_"
                  ++ match Workbench.activeFilterTag ui with
                     | Some tag => if truthy (Some tag) then tag else "all"
                     | None => "all"
                     end ++ ".png")).
      intros i j E. cbv beta in E.
      apply append_cancel_l in E. apply append_cancel_l in E.
      apply (append_cancel_l "_") in E.
      change ("_" ++ ?x) with (String "_" x) in E.
      apply split_at_underscore in E; try apply show_digits.
      apply show_inj, E.
  - unfold Workbench.filteredImages. rewrite Ea. split; [reflexivity|constructor].
Qed.

(** ** Reference images *)

Lemma refImages_loaded order :
  forall ui,
    Workbench.refImages
      (fold_left (fun u result => Workbench.onloadend result u) order ui)
    = (Workbench.refImages ui ++ order)%list.
Proof.
  induction order as [|r order IH]; intros ui; cbn [fold_left].
  - rewrite app_nil_r. reflexivity.
  - rewrite IH. unfold Workbench.onloadend.
    cbn [Workbench.refImages Workbench.setRefImages].
    rewrite <- app_assoc. reflexivity.
Qed.

(** X25: when [handleFileSelection] accepts a selection, it reads the
    files whose type starts with image/ and no other; and when nothing else
    changes the references before the readers of that selection have
    finished (no further selection, no removal), then once they have
    finished, in whatever order, the references are the former ones
    followed by the results, at most four in all.  The limit is tested
    against the references shown when the files are selected, not against
    readers that are still at work. *)
Theorem file_selection_keeps_the_limit files ui results order :
  Workbench.handleFileSelection files ui = Some results ->
  Permutation order results ->
  results
  = map Workbench.File.result
      (filter
         (fun file => String.prefix "image/" (Workbench.File.type file))
         files) /\
  Workbench.refImages
    (fold_left (fun u result => Workbench.onloadend result u) order ui)
  = (Workbench.refImages ui ++ order)%list /\
  List.length
    (Workbench.refImages
       (fold_left (fun u result => Workbench.onloadend result u) order ui))
  <= 4.
Proof.
  unfold Workbench.handleFileSelection. intros H HP.
  destruct (Nat.ltb_spec 4
              (List.length (Workbench.refImages ui)
               + List.length
                   (filter
                      (fun file =>
                         String.prefix "image/" (Workbench.File.type file))
                      files))) as [Hgt|Hle]; [discriminate|].
  injection H as <-. split; [reflexivity|].
  rewrite refImages_loaded. split; [reflexivity|].
  rewrite length_app, (Permutation_length HP), length_map. exact Hle.
Qed.

Lemma file_selection_keeps_the_limit_witness :
  ["data:image/png;base64,AAAA"]
  = map Workbench.File.result
      (filter
         (fun file => String.prefix "image/" (Workbench.File.type file))
         [ {| Workbench.File.type := "image/png";
              Workbench.File.result := "data:image/png;base64,AAAA" |};
           {| Workbench.File.type := "text/plain";
              Workbench.File.result := "data:text/plain;base64,QQ==" |} ]) /\
  Workbench.refImages
    (fold_left (fun u result => Workbench.onloadend result u)
       ["data:image/png;base64,AAAA"] Workbench.initialUi)
  = (Workbench.refImages Workbench.initialUi
     ++ ["data:image/png;base64,AAAA"])%list /\
  List.length
    (Workbench.refImages
       (fold_left (fun u result => Workbench.onloadend result u)
          ["data:image/png;base64,AAAA"] Workbench.initialUi))
  <= 4.
Proof.
  apply (file_selection_keeps_the_limit
           [ {| Workbench.File.type := "image/png";
                Workbench.File.result := "data:image/png;base64,AAAA" |};
             {| Workbench.File.type := "text/plain";
                Workbench.File.result := "data:text/plain;base64,QQ==" |} ]
           Workbench.initialUi).
  - reflexivity.
  - apply Permutation_refl.
Defined.

(** ** A custom model saved without its credentials *)

(** X26: the form saves a model as soon as its name and its model id are
    filled in.  Saved with the endpoint or the API key left empty, the
    model makes every synthesis fail before any request is sent. *)
Theorem saved_without_credentials clk f config f' prompt aspectRatio fetch :
  SettingsModal.handleSave clk f = (Some config, f') ->
  truthy (SettingsModal.endpoint f) = false
  \/ truthy (SettingsModal.apiKey f) = false ->
  ModelConfig.name config <> EmptyString /\
  ModelConfig.modelId config <> EmptyString /\
  Api.generateImageCustom config prompt aspectRatio fetch
  = ([], Rejected "Missing endpoint or API key for custom model").
Proof.
  unfold SettingsModal.handleSave.
  destruct (SettingsModal.name f) as [n|]; [|discriminate].
  destruct (SettingsModal.modelId f) as [m|]; [|discriminate].
  destruct (truthy (Some n)) eqn:En; [|discriminate].
  destruct (truthy (Some m)) eqn:Em; [|discriminate].
  cbn [andb]. intros H Hc. injection H as <- <-.
  apply truthy_Some_true in En, Em.
  split; [exact En|]. split; [exact Em|].
  unfold Api.generateImageCustom.
  cbn [ModelConfig.endpoint ModelConfig.apiKey].
  destruct Hc as [-> | ->]; cbn [negb orb]; [reflexivity|].
  rewrite orb_true_r. reflexivity.
Qed.

Lemma saved_without_credentials_witness :
  ModelConfig.name
    {| ModelConfig.id := "3"; ModelConfig.name := "local";
       ModelConfig.type := OPENAI_COMPATIBLE;
       ModelConfig.endpoint := Some EmptyString;
       ModelConfig.apiKey := Some EmptyString;
       ModelConfig.modelId := "sd" |} <> EmptyString /\
  ModelConfig.modelId
    {| ModelConfig.id := "3"; ModelConfig.name := "local";
       ModelConfig.type := OPENAI_COMPATIBLE;
       ModelConfig.endpoint := Some EmptyString;
       ModelConfig.apiKey := Some EmptyString;
       ModelConfig.modelId := "sd" |} <> EmptyString /\
  Api.generateImageCustom
    {| ModelConfig.id := "3"; ModelConfig.name := "local";
       ModelConfig.type := OPENAI_COMPATIBLE;
       ModelConfig.endpoint := Some EmptyString;
       ModelConfig.apiKey := Some EmptyString;
       ModelConfig.modelId := "sd" |}
    "p1" "16:9" (fetch envOk)
  = ([], Rejected "Missing endpoint or API key for custom model").
Proof.
  apply (saved_without_credentials (clockAt 3)
           (SettingsModal.onChange SettingsModal.ModelId "sd"
              (SettingsModal.onChange SettingsModal.Name "local"
                 SettingsModal.blank))
           _ SettingsModal.blank "p1" "16:9" (fetch envOk)).
  - reflexivity.
  - left. reflexivity.
Defined.
